(** * Kaitu npm installer: a shallow embedding of [postinstall.js] and [index.js]

    The two scripts are effectful JavaScript: they read ambient process
    state, talk to the network, touch the file system and shell out to
    [hdiutil], [cp], [rm], [mkdir], [chmod] and the service binary.  The
    embedding threads an explicit [World] (file system, event trace, service
    registration) through a small outcome monad, and reads everything the
    scripts do not control from an [Env] record of oracles. *)

From Stdlib Require Import ZArith String List Ascii Lia Bool.
From Stdlib.Strings Require Import Byte.
From stdpp Require Import base gmap strings list fin_maps pretty.

Local Open Scope string_scope.

(** ** SHA-256 (FIPS 180-4)

    [crypto.createHash('sha256')] followed by [digest('hex')], which the
    script uses in [verifyHash], is Node's binding of SHA-256 with a
    lower-case hexadecimal rendering.  Words are 32-bit integers kept in [Z]
    with the wrap-around written out. *)
Module Sha256.

Local Open Scope Z_scope.

Definition mask32 : Z := 0xFFFFFFFF.

Definition add32 (a b : Z) : Z := Z.land (a + b) mask32.

Definition rotr (n x : Z) : Z :=
  Z.lor (Z.shiftr x n) (Z.land (Z.shiftl x (32 - n)) mask32).

Definition not32 (x : Z) : Z := Z.lxor x mask32.

Definition Ch (x y z : Z) : Z := Z.lxor (Z.land x y) (Z.land (not32 x) z).

Definition Maj (x y z : Z) : Z :=
  Z.lxor (Z.lxor (Z.land x y) (Z.land x z)) (Z.land y z).

Definition Sigma0 (x : Z) : Z := Z.lxor (Z.lxor (rotr 2 x) (rotr 13 x)) (rotr 22 x).
Definition Sigma1 (x : Z) : Z := Z.lxor (Z.lxor (rotr 6 x) (rotr 11 x)) (rotr 25 x).
Definition sigma0 (x : Z) : Z := Z.lxor (Z.lxor (rotr 7 x) (rotr 18 x)) (Z.shiftr x 3).
Definition sigma1 (x : Z) : Z := Z.lxor (Z.lxor (rotr 17 x) (rotr 19 x)) (Z.shiftr x 10).

(** Integer root by bits: the largest [r] below [2^bits] with
    [r ^ k <= n]. *)
Fixpoint iroot (k : Z) (bits : nat) (n r : Z) : Z :=
  match bits with
  | O => r
  | S b =>
      let r' := r + Z.shiftl 1 (Z.of_nat b) in
      iroot k b n (if r' ^ k <=? n then r' else r)
  end.

(** The first thirty-two bits of the fractional part of the [k]-th root of
    [p]. *)
Definition frac_root (k p : Z) : Z :=
  Z.land (iroot k 40 (Z.shiftl p (32 * k)) 0) mask32.

Definition primes : list Z :=
  [2; 3; 5; 7; 11; 13; 17; 19; 23; 29; 31; 37; 41; 43; 47; 53; 59; 61; 67; 71;
   73; 79; 83; 89; 97; 101; 103; 107; 109; 113; 127; 131; 137; 139; 149; 151;
   157; 163; 167; 173; 179; 181; 191; 193; 197; 199; 211; 223; 227; 229; 233;
   239; 241; 251; 257; 263; 269; 271; 277; 281; 283; 293; 307; 311].

(** Round constants: cube roots of the first sixty-four primes. *)
Definition K : list Z := Eval vm_compute in List.map (frac_root 3) primes.

(** Initial hash value: square roots of the first eight primes. *)
Definition H0 : list Z := Eval vm_compute in List.map (frac_root 2) (List.firstn 8 primes).

(** Big-endian rendering of [x] on [n] bytes. *)
Fixpoint be_bytes (n : nat) (x : Z) : list Z :=
  match n with
  | O => []
  | S m => Z.land (Z.shiftr x (8 * Z.of_nat m)) 0xFF :: be_bytes m x
  end.

(** Message padding: a [0x80] byte, zeros up to 56 mod 64, then the bit
    length on eight bytes. *)
Definition pad (msg : list Z) : list Z :=
  let len := Z.of_nat (List.length msg) in
  let zeros := Z.to_nat ((55 - len) mod 64) in
  msg ++ 0x80 :: List.repeat 0 zeros ++ be_bytes 8 (8 * len).

Fixpoint words_of_bytes (fuel : nat) (bs : list Z) : list Z :=
  match fuel, bs with
  | S f, a :: b :: c :: d :: rest =>
      (Z.shiftl a 24 + Z.shiftl b 16 + Z.shiftl c 8 + d) :: words_of_bytes f rest
  | _, _ => []
  end.

Definition nthZ (l : list Z) (i : nat) : Z := List.nth i l 0.

(** The message schedule: sixteen block words extended to sixty-four.
    The schedule is kept most-recent-first while it is built. *)
Fixpoint extend (n : nat) (rev_w : list Z) : list Z :=
  match n with
  | O => rev_w
  | S m =>
      let w := add32 (add32 (sigma1 (nthZ rev_w 1)) (nthZ rev_w 6))
                     (add32 (sigma0 (nthZ rev_w 14)) (nthZ rev_w 15)) in
      extend m (w :: rev_w)
  end.

Definition schedule (block : list Z) : list Z :=
  List.rev (extend 48 (List.rev block)).

Record regs := Regs { ra : Z; rb : Z; rc : Z; rd : Z; re : Z; rf : Z; rg : Z; rh : Z }.

Definition round (s : regs) (kw : Z * Z) : regs :=
  let t1 := add32 (add32 (add32 (rh s) (Sigma1 (re s))) (Ch (re s) (rf s) (rg s)))
                  (add32 (fst kw) (snd kw)) in
  let t2 := add32 (Sigma0 (ra s)) (Maj (ra s) (rb s) (rc s)) in
  Regs (add32 t1 t2) (ra s) (rb s) (rc s) (add32 (rd s) t1) (re s) (rf s) (rg s).

Definition compress (h : regs) (block : list Z) : regs :=
  let s := List.fold_left round (List.combine K (schedule block)) h in
  Regs (add32 (ra h) (ra s)) (add32 (rb h) (rb s)) (add32 (rc h) (rc s))
       (add32 (rd h) (rd s)) (add32 (re h) (re s)) (add32 (rf h) (rf s))
       (add32 (rg h) (rg s)) (add32 (rh h) (rh s)).

Fixpoint blocks (fuel : nat) (ws : list Z) : list (list Z) :=
  match fuel, ws with
  | S f, _ :: _ => List.firstn 16 ws :: blocks f (List.skipn 16 ws)
  | _, _ => []
  end.

Definition init : regs :=
  Regs (nthZ H0 0) (nthZ H0 1) (nthZ H0 2) (nthZ H0 3)
       (nthZ H0 4) (nthZ H0 5) (nthZ H0 6) (nthZ H0 7).

Definition digest_words (msg : list Z) : list Z :=
  let bs := pad msg in
  let ws := words_of_bytes (List.length bs) bs in
  let s := List.fold_left compress (blocks (List.length ws) ws) init in
  [ra s; rb s; rc s; rd s; re s; rf s; rg s; rh s].

Definition hex_digit (d : Z) : ascii :=
  if d <? 10 then ascii_of_nat (Z.to_nat (48 + d)) else ascii_of_nat (Z.to_nat (87 + d)).

Fixpoint hex_of (n : nat) (x : Z) : string :=
  match n with
  | O => EmptyString
  | S m => String (hex_digit (Z.land (Z.shiftr x (4 * Z.of_nat m)) 0xF)) (hex_of m x)
  end.

Definition hex_of_words (ws : list Z) : string :=
  List.fold_right (fun w acc => String.append (hex_of 8 w) acc) EmptyString ws.

Definition byte_val (b : Byte.byte) : Z := Z.of_N (Byte.to_N b).

(** [hash.update(data)] over the whole stream, then [hash.digest('hex')]. *)
Definition sha256_hex (content : list Byte.byte) : string :=
  hex_of_words (digest_words (List.map byte_val content)).

End Sha256.

Arguments Sha256.sha256_hex : simpl never.

(** ** Strings and paths *)

(** The double-quote character, used when a shell command line is rendered. *)
Definition dq : string := String "034"%char EmptyString.

Definition quoted (s : string) : string := dq +:+ s +:+ dq.

(** [strip_prefix p k] is the rest of [k] after its prefix [p], when [k]
    starts with [p]. *)
Fixpoint strip_prefix (p k : string) : option string :=
  match p, k with
  | EmptyString, _ => Some k
  | String a p', String b k' => if Ascii.eqb a b then strip_prefix p' k' else None
  | String _ _, EmptyString => None
  end.

(** [String.prototype.endsWith]. *)
Definition endsWith (s suffix : string) : bool :=
  let n := String.length s in
  let m := String.length suffix in
  (m <=? n)%nat && String.eqb (String.substring (n - m) m s) suffix.

Fixpoint has_slash (s : string) : bool :=
  match s with
  | EmptyString => false
  | String c r => Ascii.eqb c "/"%char || has_slash r
  end.

(** Last path component, as [cp] computes it when it copies into a
    directory. *)
Fixpoint basename (s : string) : string :=
  match s with
  | EmptyString => EmptyString
  | String c r =>
      if has_slash r then basename r
      else if Ascii.eqb c "/"%char then r else s
  end.

Fixpoint intercalate (sep : string) (segs : list string) : string :=
  match segs with
  | [] => EmptyString
  | [s] => s
  | s :: rest => s +:+ sep +:+ intercalate sep rest
  end.

Definition nonempty (s : string) : bool :=
  match s with EmptyString => false | String _ _ => true end.

(** [path.join]: empty segments are skipped and the rest joined with the
    platform separator; joining nothing gives ["."].  The segments the
    scripts pass are literals or environment values ([os.tmpdir()],
    [ProgramFiles], [LOCALAPPDATA]) that are taken to be normalized already,
    so the further normalization of [path.join] is the identity on them. *)
Definition path_join (sep : string) (segs : list string) : string :=
  match List.filter nonempty segs with
  | [] => "."
  | segs' => intercalate sep segs'
  end.

(** [path.dirname] for a POSIX path. *)
Fixpoint dirname_aux (s : string) : string :=
  match s with
  | EmptyString => EmptyString
  | String c r => if has_slash r then String c (dirname_aux r) else EmptyString
  end.

Definition dirname (s : string) : string :=
  match dirname_aux s with
  | EmptyString => if String.prefix "/" s then "/" else "."
  | d => d
  end.

(** [a || b] on a value that is a string or [undefined]: the empty string is
    falsy as well. *)
Definition or_default (a : option string) (b : string) : string :=
  match a with
  | Some (String c r) => String c r
  | _ => b
  end.

(** ** The file system *)

(** A node is a regular file with its bytes, or a directory.  The file
    system maps full path names to nodes; the tree under a directory is the
    set of entries whose path extends the directory's path by ["/..."]. *)
Inductive node :=
| File (content : list Byte.byte)
| Dir.

Definition under (p k : string) : bool :=
  match strip_prefix p k with
  | Some EmptyString => true
  | Some (String c _) => Ascii.eqb c "/"%char
  | None => false
  end.

Definition rebase (src dst k : string) : string :=
  match strip_prefix src k with
  | Some rest => dst +:+ rest
  | None => k
  end.

Definition rm_tree (p : string) (m : gmap string node) : gmap string node :=
  filter (fun kv => negb (under p kv.1)) m.

Definition copy_tree (src dst : string) (m : gmap string node) : gmap string node :=
  kmap (rebase src dst) (filter (fun kv => under src kv.1) m) ∪ m.

(** Names of the entries directly inside directory [d]. *)
Definition children (d : string) (m : gmap string node) : list string :=
  omap (fun kv =>
          match strip_prefix (d +:+ "/") kv.1 with
          | Some rest => if nonempty rest && negb (has_slash rest) then Some rest else None
          | None => None
          end) (map_to_list m).

(** ** Commands run through [execSync] *)

Inductive cmd :=
| HdiutilAttach (dmg mountPoint : string)
| HdiutilDetach (mountPoint : string)
| RmRf (p : string)
| CpR (src dst : string)
| MkdirP (dir : string)
| Cp (src dst : string)
| ChmodX (p : string)
| ServiceInstall (bin : string)
| NetSession
| OpenApp.

(** The command line the script builds for each command. *)
Definition cmd_line (c : cmd) : string :=
  match c with
  | HdiutilAttach dmg mp =>
      "hdiutil attach " +:+ quoted dmg +:+ " -nobrowse -mountpoint " +:+ quoted mp
  | HdiutilDetach mp => "hdiutil detach " +:+ quoted mp
  | RmRf p => "rm -rf " +:+ quoted p
  | CpR src dst => "cp -R " +:+ quoted src +:+ " " +:+ quoted dst
  | MkdirP d => "mkdir -p " +:+ d
  | Cp src dst => "cp " +:+ quoted src +:+ " " +:+ quoted dst
  | ChmodX p => "chmod +x " +:+ quoted p
  | ServiceInstall bin => quoted bin +:+ " install"
  | NetSession => "net session"
  | OpenApp => "open -a Kaitu"
  end.

(** ** Errors, events, environment and world *)

(** The scripts raise plain [Error] objects; what tells them apart is the
    message.  One constructor per origin. *)
Inductive error :=
| UnsupportedPlatform (platform : string)    (* `Unsupported platform: ${platform}` *)
| DownloadFailed (statusCode : nat)          (* `Failed to download: HTTP ${statusCode}` *)
| NetworkError (msg : string)                (* the request's 'error' event *)
| InvalidUrl                                 (* https.get throws on its argument *)
| HashMismatch (expected got : string)       (* `Hash mismatch: expected ..., got ...` *)
| NoAppInDMG                                 (* 'No .app file found in DMG' *)
| FsError (code path : string)               (* ENOENT, EISDIR, EPERM, ENOTDIR from fs *)
| ExecError (c : cmd)                        (* execSync: the command exited non-zero *)
| ConfigError.                               (* package.json unreadable or not JSON *)

Definition message (e : error) : string :=
  match e with
  | UnsupportedPlatform p => "Unsupported platform: " +:+ p
  | DownloadFailed s => "Failed to download: HTTP " +:+ pretty s
  | NetworkError m => m
  | InvalidUrl => "Invalid URL"
  | HashMismatch e g => "Hash mismatch: expected " +:+ e +:+ ", got " +:+ g
  | NoAppInDMG => "No .app file found in DMG"
  | FsError c p => c +:+ ": " +:+ p
  | ExecError c => "Command failed: " +:+ cmd_line c
  | ConfigError => "package.json"
  end.

(** What the process does to the outside, in the order it does it (most
    recent first).  Reads are not recorded. *)
Inductive event :=
| Log (msg : string)                  (* console.log *)
| LogErr (msg : string)               (* console.error *)
| Get (url : option string)           (* https.get *)
| OpenWrite (path : string)           (* fs.createWriteStream *)
| Unlink (path : string)              (* fs.unlinkSync *)
| Exec (c : cmd) (ok : bool)          (* execSync and how it ended *)
| Spawn (prog : string) (args : list string).

(** What [https.get] does with a request. *)
Inductive reply :=
| Response (statusCode : nat) (location : option string) (body : list Byte.byte)
| RequestError (msg : string)         (* 'error' on the request: DNS, reset, TLS *)
| BadUrl                              (* the call itself throws: not a URL *)
| Unanswered.                         (* neither a response nor an error is heard *)

Inductive child_result :=
| ChildError (code msg : string)                     (* 'error' event *)
| ChildExit (code : option Z) (signal : option string).  (* 'exit' event *)

(** One artifact entry of package.json. *)
Record Descriptor := { url : string; hash : string }.

(** The two tables of package.json the scripts read, in key order. *)
Record PackageConfig := {
  service : option (list (string * Descriptor));
  installer : option (list (string * Descriptor))
}.

Record Env := {
  process_platform : string;                       (* process.platform *)
  process_arch : string;                           (* process.arch *)
  tmpdir : string;                                 (* os.tmpdir() *)
  ProgramFiles : option string;                    (* process.env.ProgramFiles *)
  LOCALAPPDATA : option string;                    (* process.env.LOCALAPPDATA *)
  package_json : option PackageConfig;             (* None: unreadable *)
  net : string -> reply;                           (* the network *)
  access_W_OK : string -> bool;                    (* fs.accessSync(p, W_OK) passes *)
  dmg_volume : list Byte.byte -> option (gmap string node);
                                  (* the volume inside a disk image, if it is one *)
  cmd_fails : cmd -> bool;        (* the command fails for an outside reason *)
  spawn_result : string -> list string -> child_result
}.

Record World := {
  fs : gmap string node;
  events : list event;
  registered : bool               (* the service is known to the OS *)
}.

Definition emit (e : event) (w : World) : World :=
  {| fs := fs w; events := e :: events w; registered := registered w |}.

Definition set_fs (m : gmap string node) (w : World) : World :=
  {| fs := m; events := events w; registered := registered w |}.

Definition set_registered (b : bool) (w : World) : World :=
  {| fs := fs w; events := events w; registered := b |}.

(** ** Outcomes and the effect monad *)

(** How a computation can stop short of returning. *)
Inductive abort :=
| Thrown (e : error)          (* an exception, or a rejected promise *)
| Exited (code : Z)           (* process.exit(code) *)
| Uncaught (e : error)        (* an 'error' event nobody listens to *)
| Killed (signal : string)    (* process.kill(process.pid, signal) *)
| OutOfFuel.                  (* the promise does not settle: the budget of
                                 requests ran out, or no answer came *)

Inductive outcome (A : Type) : Type :=
| Ret (a : A)
| Abort (why : abort).

Arguments Ret {A} a.
Arguments Abort {A} why.

Definition M (A : Type) : Type := World -> outcome A * World.

Definition ret {A} (a : A) : M A := fun w => (Ret a, w).

Definition bind {A B} (m : M A) (k : A -> M B) : M B :=
  fun w =>
    match m w with
    | (Ret a, w') => k a w'
    | (Abort why, w') => (Abort why, w')
    end.

Declare Scope M_scope.
Delimit Scope M_scope with M.
Notation "x <- m ;; k" := (bind m (fun x => k))
  (at level 100, m at next level, right associativity) : M_scope.
Notation "m ;; k" := (bind m (fun _ => k))
  (at level 100, right associativity) : M_scope.
Local Open Scope M_scope.

Definition stop {A} (why : abort) : M A := fun w => (Abort why, w).

Definition throw {A} (e : error) : M A := stop (Thrown e).

Definition exit {A} (code : Z) : M A := stop (Exited code).

Definition lift {A} (o : outcome A) : M A := fun w => (o, w).

(** [try { body } catch (err) { handler }]: only exceptions are caught. *)
Definition try_catch {A} (body : M A) (handler : error -> M A) : M A :=
  fun w =>
    match body w with
    | (Abort (Thrown e), w') => handler e w'
    | r => r
    end.

Definition tell (e : event) : M unit := fun w => (Ret tt, emit e w).

Definition log (msg : string) : M unit := tell (Log msg).

Definition logErr (msg : string) : M unit := tell (LogErr msg).

Definition when (b : bool) (m : M unit) : M unit := if b then m else ret tt.

(** ** File-system and network primitives *)

Definition existsSync (p : string) : M bool :=
  fun w => (Ret (match fs w !! p with Some _ => true | None => false end), w).

Definition unlinkSync (p : string) : M unit :=
  fun w =>
    match fs w !! p with
    | Some (File _) => (Ret tt, emit (Unlink p) (set_fs (delete p (fs w)) w))
    | Some Dir => (Abort (Thrown (FsError "EPERM" p)), emit (Unlink p) w)
    | None => (Abort (Thrown (FsError "ENOENT" p)), emit (Unlink p) w)
    end.

Definition readdirSync (p : string) : M (list string) :=
  fun w =>
    match fs w !! p with
    | Some Dir => (Ret (children p (fs w)), w)
    | Some (File _) => (Abort (Thrown (FsError "ENOTDIR" p)), w)
    | None => (Abort (Thrown (FsError "ENOENT" p)), w)
    end.

(** [fs.createWriteStream(p)]: the file is created, or truncated if it is
    there.  On a directory the stream emits 'error', which no listener
    handles.  The other errors of the stream (the directory of [p] is
    missing or cannot be written, the disk is full) are not in the model:
    its worlds are those in which the directory of [p] can be written. *)
Definition createWriteStream (p : string) : M unit :=
  fun w =>
    match fs w !! p with
    | Some Dir => (Abort (Uncaught (FsError "EISDIR" p)), emit (OpenWrite p) w)
    | _ => (Ret tt, emit (OpenWrite p) (set_fs (<[p := File []]> (fs w)) w))
    end.

(** [response.pipe(file)] up to the stream's 'finish'. *)
Definition pipe (body : list Byte.byte) (p : string) : M unit :=
  fun w => (Ret tt, set_fs (<[p := File body]> (fs w)) w).

(** What the network answers to a request.  [https.get(undefined, cb)]
    does not throw: with no URL the request goes to localhost and [cb] is
    taken for the options' place, so that no response is heard; only the
    request's 'error' comes back. *)
Definition localhost : string := "https://localhost/".

Definition request (env : Env) (u : option string) : reply :=
  match u with
  | Some s => net env s
  | None =>
      match net env localhost with
      | RequestError msg => RequestError msg
      | _ => Unanswered
      end
  end.

Definition https_get (env : Env) (u : option string) : M reply :=
  fun w => (Ret (request env u), emit (Get u) w).

(** Where [cp] writes: inside [dst] when [dst] is a directory. *)
Definition cp_target (src dst : string) (m : gmap string node) : string :=
  match m !! dst with
  | Some Dir => dst +:+ "/" +:+ basename src
  | _ => dst
  end.

(** The effect of a command that runs to completion; [None] is a non-zero
    exit status, on which the file system is left as it was. *)
Definition cmd_sem (env : Env) (c : cmd) (w : World) : option World :=
  match c with
  | HdiutilAttach dmg mp =>
      match fs w !! dmg with
      | Some (File bytes) =>
          match dmg_volume env bytes with
          | Some vol =>
              Some (set_fs (kmap (fun r => mp +:+ "/" +:+ r) vol
                              ∪ <[mp := Dir]> (rm_tree mp (fs w))) w)
          | None => None
          end
      | _ => None
      end
  | HdiutilDetach mp =>
      match fs w !! mp with
      | Some _ => Some (set_fs (rm_tree mp (fs w)) w)
      | None => None
      end
  | RmRf p => Some (set_fs (rm_tree p (fs w)) w)
  | CpR src dst =>
      match fs w !! src, fs w !! dst with
      | None, _ => None
      | Some Dir, Some (File _) => None
      | Some _, _ => Some (set_fs (copy_tree src (cp_target src dst (fs w)) (fs w)) w)
      end
  | MkdirP d =>
      match fs w !! d with
      | Some (File _) => None
      | Some Dir => Some w
      | None => Some (set_fs (<[d := Dir]> (fs w)) w)
      end
  | Cp src dst =>
      match fs w !! src with
      | Some (File bytes) =>
          Some (set_fs (<[cp_target src dst (fs w) := File bytes]> (fs w)) w)
      | _ => None
      end
  | ChmodX p =>
      match fs w !! p with
      | Some _ => Some w
      | None => None
      end
  | ServiceInstall bin =>
      match fs w !! bin with
      | Some (File _) => Some (set_registered true w)
      | _ => None
      end
  | NetSession => Some w
  | OpenApp => Some w
  end.

(** [execSync(cmd)]: throws when the command exits non-zero. *)
Definition execSync (env : Env) (c : cmd) : M unit :=
  fun w =>
    match (if cmd_fails env c then None else cmd_sem env c w) with
    | Some w' => (Ret tt, emit (Exec c true) w')
    | None => (Abort (Thrown (ExecError c)), emit (Exec c false) w)
    end.

(** ** postinstall.js *)

(** The values an indexed object literal can give: a string of its own,
    or what it inherits from [Object.prototype], a built-in function or the
    prototype object itself. *)
Inductive value :=
| Str (s : string)
| Builtin (name : string)
| ObjectPrototype.

(** The string a template literal makes of a value. *)
Definition to_string (v : value) : string :=
  match v with
  | Str s => s
  | Builtin name => "function " +:+ name +:+ "() { [native code] }"
  | ObjectPrototype => "[object Object]"
  end.

(** The members an object literal inherits from [Object.prototype]. *)
Definition inherited (k : string) : option value :=
  if String.eqb k "constructor" then Some (Builtin "Object")
  else if String.eqb k "__proto__" then Some ObjectPrototype
  else if List.existsb (String.eqb k)
            ["hasOwnProperty"; "isPrototypeOf"; "propertyIsEnumerable";
             "toLocaleString"; "toString"; "valueOf";
             "__defineGetter__"; "__defineSetter__";
             "__lookupGetter__"; "__lookupSetter__"]
       then Some (Builtin k)
  else None.

(** [table[k]] on an object literal with the own properties [own]. *)
Definition member (own : gmap string string) (k : string) : option value :=
  match own !! k with
  | Some s => Some (Str s)
  | None => inherited k
  end.

(** [v || b] on the result of such a lookup: [undefined] and the empty
    string are falsy, functions and objects are not. *)
Definition or_else (v : option value) (b : string) : value :=
  match v with
  | None | Some (Str EmptyString) => Str b
  | Some v' => v'
  end.

Record PlatformInfo := {
  platform : string;
  arch : value;
  key : string;
  isMac : bool;
  isWindows : bool;
  isLinux : bool
}.

Definition archMap_win32 : gmap string string :=
  {[ "x64" := "amd64"; "arm64" := "arm64"; "ia32" := "386" ]}.

Definition archMap_linux : gmap string string :=
  {[ "x64" := "amd64"; "arm64" := "arm64"; "arm" := "arm" ]}.

(** [getPlatformInfo], as a function of [process.platform] and
    [process.arch].  The arch tables are object literals: [archMap[arch]]
    finds their own properties and the members of [Object.prototype]. *)
Definition getPlatformInfo (platform arch : string) : outcome PlatformInfo :=
  if String.eqb platform "darwin" then
    Ret {| platform := "darwin"; arch := Str "universal"; key := "darwin-universal";
           isMac := true; isWindows := false; isLinux := false |}
  else if String.eqb platform "win32" then
    Ret {| platform := "windows";
           arch := or_else (member archMap_win32 arch) arch;
           key := "windows-" +:+ to_string (or_else (member archMap_win32 arch) arch);
           isMac := false; isWindows := true; isLinux := false |}
  else if String.eqb platform "linux" then
    Ret {| platform := "linux";
           arch := or_else (member archMap_linux arch) arch;
           key := "linux-" +:+ to_string (or_else (member archMap_linux arch) arch);
           isMac := false; isWindows := false; isLinux := true |}
  else Abort (Thrown (UnsupportedPlatform platform)).

Definition getPackageConfig (env : Env) : M PackageConfig :=
  match package_json env with
  | Some c => ret c
  | None => throw ConfigError
  end.

(** [path.sep] of the running platform. *)
Definition sep (env : Env) : string :=
  if String.eqb (process_platform env) "win32" then "\" else "/".

Definition checkPrivileges (env : Env) : M bool :=
  if String.eqb (process_platform env) "darwin"
     || String.eqb (process_platform env) "linux" then
    let testPath :=
      if String.eqb (process_platform env) "darwin" then "/Applications"
      else "/usr/local/bin" in
    ret (access_W_OK env testPath)
  else if String.eqb (process_platform env) "win32" then
    try_catch (execSync env NetSession ;; ret true) (fun _ => ret false)
  else ret false.

Definition show_url (u : option string) : string :=
  match u with Some s => s | None => "undefined" end.

(** [downloadFile].  Each request uses one unit of [fuel]; a redirect
    re-enters the function.  The progress line written to stdout while the
    body arrives is not recorded. *)
Fixpoint downloadFile (fuel : nat) (env : Env) (url : option string)
    (destPath : string) : M unit :=
  match fuel with
  | O => stop OutOfFuel
  | S fuel' =>
      log ("Downloading from: " +:+ show_url url) ;;
      createWriteStream destPath ;;
      r <- https_get env url ;;
      match r with
      | BadUrl => throw InvalidUrl
      | Unanswered => stop OutOfFuel
      | RequestError msg =>
          ex <- existsSync destPath ;;
          when ex (unlinkSync destPath) ;;
          throw (NetworkError msg)
      | Response statusCode location body =>
          if (statusCode =? 302)%nat || (statusCode =? 301)%nat then
            ex <- existsSync destPath ;;
            when ex (unlinkSync destPath) ;;
            downloadFile fuel' env location destPath
          else if negb (statusCode =? 200)%nat then
            ex <- existsSync destPath ;;
            when ex (unlinkSync destPath) ;;
            throw (DownloadFailed statusCode)
          else
            pipe body destPath ;;
            log "Download complete"
      end
  end.

(** The [try] block of [installDMG]. *)
Definition installDMG_try (env : Env) (dmgPath : string) : M unit :=
  let mountPoint := path_join (sep env) [tmpdir env; "kaitu-mount"] in
  log "Mounting DMG..." ;;
  execSync env (HdiutilAttach dmgPath mountPoint) ;;
  let appPath := path_join (sep env) [mountPoint; "Kaitu.app"] in
  found <- existsSync appPath ;;
  when (negb found)
    (files <- readdirSync mountPoint ;;
     match List.find (fun f => endsWith f ".app") files with
     | None => throw NoAppInDMG
     | Some appFile => ret tt
     end) ;;
  let destPath := "/Applications/Kaitu.app" in
  log "Copying app to /Applications..." ;;
  present <- existsSync destPath ;;
  when present
    (log "Removing existing installation..." ;;
     execSync env (RmRf destPath)) ;;
  execSync env (CpR appPath destPath) ;;
  log "Unmounting DMG..." ;;
  execSync env (HdiutilDetach mountPoint) ;;
  unlinkSync dmgPath ;;
  log "Kaitu app installed successfully to /Applications" ;;
  log "You can now launch Kaitu from your Applications folder or Launchpad".

(** The [catch] block of [installDMG]: report, try to unmount, rethrow.
    The mount point is computed again there. *)
Definition installDMG_catch (env : Env) (err : error) : M unit :=
  logErr ("Installation failed: " +:+ message err) ;;
  try_catch
    (execSync env (HdiutilDetach (path_join (sep env) [tmpdir env; "kaitu-mount"])))
    (fun e => ret tt) ;;
  throw err.

Definition installDMG (env : Env) (dmgPath : string) : M unit :=
  log "Installing Kaitu app from DMG..." ;;
  try_catch (installDMG_try env dmgPath) (installDMG_catch env).

(** [verifyHash]: the promise resolves with [true] or rejects. *)
Definition verifyHash (filePath expectedHash : string) : M bool :=
  fun w =>
    match fs w !! filePath with
    | Some (File bytes) =>
        let fileHash := "sha256:" +:+ Sha256.sha256_hex bytes in
        if String.eqb fileHash expectedHash then (Ret true, w)
        else (Abort (Thrown (HashMismatch expectedHash fileHash)), w)
    | Some Dir => (Abort (Thrown (FsError "EISDIR" filePath)), w)
    | None => (Abort (Thrown (FsError "ENOENT" filePath)), w)
    end.

(** Property access [config[key]] on a parsed JSON object. *)
Definition entry (k : string) (table : list (string * Descriptor)) : option Descriptor :=
  snd <$> List.find (fun kv => String.eqb kv.1 k) table.

Definition serviceTempPath (env : Env) (platformInfo : PlatformInfo) : string :=
  path_join (sep env)
    [tmpdir env;
     "kaitu-service-" +:+ key platformInfo
       +:+ (if isWindows platformInfo then ".exe" else "")].

Definition serviceTargetPath (env : Env) (platformInfo : PlatformInfo) : string :=
  if isWindows platformInfo then
    path_join (sep env)
      [or_default (ProgramFiles env) "C:\Program Files"; "kaitu"; "kaitu-service.exe"]
  else "/usr/local/bin/kaitu-service".

(** [installService].  A run that falls off the end of the [try] block
    returns [undefined], which its caller reads as false. *)
Definition installService (fuel : nat) (env : Env) (platformInfo : PlatformInfo)
    (packageConfig : PackageConfig) : M bool :=
  log "Installing Kaitu Service..." ;;
  let serviceConfig := default [] (service packageConfig) in
  match entry (key platformInfo) serviceConfig with
  | None =>
      log ("No service binary available for platform: " +:+ key platformInfo) ;;
      ret false
  | Some serviceInfo =>
      let tempPath := serviceTempPath env platformInfo in
      let targetPath := serviceTargetPath env platformInfo in
      try_catch
        (log "Downloading service binary..." ;;
         downloadFile fuel env (Some (url serviceInfo)) tempPath ;;
         log "Verifying service binary..." ;;
         verifyHash tempPath (hash serviceInfo) ;;
         log "Verification successful" ;;
         if isMac platformInfo || isLinux platformInfo then
           log ("Installing service to " +:+ targetPath +:+ "...") ;;
           let binDir := dirname targetPath in
           present <- existsSync binDir ;;
           when (negb present) (execSync env (MkdirP binDir)) ;;
           execSync env (Cp tempPath targetPath) ;;
           execSync env (ChmodX targetPath) ;;
           unlinkSync tempPath ;;
           log "Running service installation..." ;;
           try_catch
             (execSync env (ServiceInstall targetPath) ;;
              log "Service installed successfully")
             (fun err =>
                log "Service installation requires sudo privileges" ;;
                log "Please run manually: sudo kaitu-service install") ;;
           ret true
         else if isWindows platformInfo then
           log "Windows service installation is not yet automated" ;;
           log "Please install the service manually" ;;
           ret false
         else ret false)
        (fun err =>
           logErr ("Service installation failed: " +:+ message err) ;;
           ret false)
  end.

Definition dmgTempPath (env : Env) : string :=
  path_join (sep env) [tmpdir env; "kaitu-installer.dmg"].

Definition releases_url : string :=
  "https://github.com/allnationconnect/kaitu/releases".

Definition rule : string := String.concat "" (List.repeat "=" 50).

(** The cache check at the head of the macOS branch of [postInstall]
    (from [if (fs.existsSync(dmgPath))] to the end of its [else]): a disk
    image already at the temp path is kept when it verifies, and is replaced
    by a fresh download when it does not. *)
Definition postInstall_fetch (fuel : nat) (env : Env) (installerInfo : Descriptor)
    (dmgPath : string) : M unit :=
  cached <- existsSync dmgPath ;;
  if cached then
    log "Using cached installer..." ;;
    try_catch
      (verifyHash dmgPath (hash installerInfo) ;; ret tt)
      (fun err =>
         log "Cached installer verification failed, re-downloading..." ;;
         unlinkSync dmgPath ;;
         downloadFile fuel env (Some (url installerInfo)) dmgPath)
  else downloadFile fuel env (Some (url installerInfo)) dmgPath.

(** The macOS branch of [postInstall] (the block under
    [if (platformInfo.isMac)]): fetch or reuse the disk image, verify it,
    install it when privileged. *)
Definition postInstall_mac (fuel : nat) (env : Env) (installerInfo : Descriptor)
    (hasPrivileges : bool) : M unit :=
  log "Installing Kaitu Desktop App..." ;;
  let dmgPath := dmgTempPath env in
  postInstall_fetch fuel env installerInfo dmgPath ;;
  log "Verifying installer..." ;;
  verifyHash dmgPath (hash installerInfo) ;;
  log "Verification successful" ;;
  if hasPrivileges then installDMG env dmgPath
  else
    log "Cannot install to /Applications without privileges" ;;
    log ("Downloaded installer to: " +:+ dmgPath) ;;
    log "Please open the DMG and drag Kaitu to Applications manually".

(** [postInstall] is one long [try] block, kept here in two parts.  The
    first part (down to the call of [installService]) finds the platform,
    probes the privileges, reads package.json and installs the service when
    privileged.  Messages are kept without their leading blank lines and
    pictographs. *)
Definition postInstall_prelude (fuel : nat) (env : Env)
  : M (PlatformInfo * bool * PackageConfig * bool) :=
  log "Installing Kaitu" ;;
  platformInfo <- lift (getPlatformInfo (process_platform env) (process_arch env)) ;;
  log ("Platform: " +:+ key platformInfo) ;;
  hasPrivileges <- checkPrivileges env ;;
  when (negb hasPrivileges)
    (log "Full installation requires administrator privileges" ;;
     log "Please run with sudo: sudo npm install -g kaitu" ;;
     log "Continuing with limited installation...") ;;
  packageConfig <- getPackageConfig env ;;
  serviceInstalled <-
    (if hasPrivileges then installService fuel env platformInfo packageConfig
     else ret false) ;;
  ret (platformInfo, hasPrivileges, packageConfig, serviceInstalled).

(** The second part: the desktop installer and the summary. *)
Definition postInstall_desktop (fuel : nat) (env : Env) (platformInfo : PlatformInfo)
    (hasPrivileges : bool) (packageConfig : PackageConfig) (serviceInstalled : bool)
  : M unit :=
  let installerConfig := default [] (installer packageConfig) in
  match entry (key platformInfo) installerConfig with
  | None =>
      log "No desktop installer available for your platform yet." ;;
      log ("Available platforms: " +:+ String.concat ", " (List.map fst installerConfig)) ;;
      when (negb serviceInstalled)
        (log "Please download the desktop app manually from:" ;;
         log releases_url)
  | Some installerInfo =>
      (if isMac platformInfo then postInstall_mac fuel env installerInfo hasPrivileges
       else if isWindows platformInfo then
         log "Windows automated installation is not yet implemented." ;;
         log "Please download and install manually from:" ;;
         log releases_url ;;
         log "The installer will be available once Windows packages are ready."
       else if isLinux platformInfo then
         log "Linux automated installation is not yet implemented." ;;
         log "Please download and install manually from:" ;;
         log releases_url ;;
         log "The installer will be available once Linux packages are ready."
       else ret tt) ;;
      log rule ;;
      log "Installation Summary:" ;;
      when serviceInstalled (log "Service installed to /usr/local/bin/kaitu-service") ;;
      when (isMac platformInfo && hasPrivileges) (log "Desktop app installed to /Applications") ;;
      log rule
  end.

Definition postInstall_body (fuel : nat) (env : Env) : M unit :=
  found <- postInstall_prelude fuel env ;;
  let '(platformInfo, hasPrivileges, packageConfig, serviceInstalled) := found in
  postInstall_desktop fuel env platformInfo hasPrivileges packageConfig serviceInstalled.

(** [postInstall]: any exception ends the process with code 1. *)
Definition postInstall (fuel : nat) (env : Env) : M unit :=
  try_catch (postInstall_body fuel env)
    (fun err =>
       logErr ("Installation failed: " +:+ message err) ;;
       logErr "You can download the installer manually from:" ;;
       logErr releases_url ;;
       exit 1%Z).

(** ** index.js *)

Definition servicePath (env : Env) : string :=
  if String.eqb (process_platform env) "win32" then
    path_join (sep env)
      [or_default (ProgramFiles env) "C:\Program Files"; "kaitu"; "kaitu-service.exe"]
  else "/usr/local/bin/kaitu-service".

Definition isServiceInstalled (env : Env) : M bool :=
  existsSync (servicePath env).

Definition isAppInstalled (env : Env) : M bool :=
  if String.eqb (process_platform env) "darwin" then
    existsSync "/Applications/Kaitu.app"
  else if String.eqb (process_platform env) "win32" then
    a <- existsSync (path_join (sep env)
                       [or_default (ProgramFiles env) "C:\Program Files"; "Kaitu"]) ;;
    b <- existsSync (path_join (sep env)
                       [or_default (LOCALAPPDATA env) ""; "Programs"; "Kaitu"]) ;;
    ret (a || b)
  else ret false.

Definition launchApp (env : Env) : M unit :=
  if String.eqb (process_platform env) "darwin" then
    try_catch
      (execSync env OpenApp ;; log "Kaitu app launched")
      (fun err =>
         logErr ("Failed to launch Kaitu app: " +:+ message err) ;;
         log "Please launch manually from /Applications")
  else if String.eqb (process_platform env) "win32" then
    log "Please launch Kaitu from your Start Menu or Desktop"
  else log "Please launch Kaitu from your application menu".

Definition showHelp : M unit :=
  log "Kaitu CLI - Desktop Application and Service Manager".

Definition showStatus (env : Env) : M unit :=
  log "Kaitu Installation Status:" ;;
  app <- isAppInstalled env ;;
  log ("Desktop App: " +:+ (if app then "Installed" else "Not installed")) ;;
  svc <- isServiceInstalled env ;;
  log ("Service Binary: " +:+ (if svc then "Installed" else "Not installed")) ;;
  app' <- isAppInstalled env ;;
  svc' <- (if negb app' then ret false else isServiceInstalled env) ;;
  when (negb app' || negb svc')
    (log "To install missing components:" ;;
     log "  sudo npm install -g kaitu") ;;
  log "".

Definition runServiceCommand (env : Env) (args : list string) : M unit :=
  let servicePath := servicePath env in
  present <- existsSync servicePath ;;
  when (negb present)
    (logErr "Service not installed" ;;
     log "Please run: sudo npm install -g kaitu" ;;
     exit 1%Z) ;;
  tell (Spawn servicePath args) ;;
  match spawn_result env servicePath args with
  | ChildError code msg =>
      logErr ("Failed to run service command: " +:+ msg) ;;
      when (String.eqb code "EACCES")
        (log ("Try running with sudo: sudo kaitu service " +:+ String.concat " " args)) ;;
      exit 1%Z
  | ChildExit code (Some signal) => stop (Killed signal)
  | ChildExit code None => exit (default 0%Z code)
  end.

(** The exit code of a process that runs postinstall.js as its main
    module. *)
Definition run_postinstall (fuel : nat) (env : Env) : M Z :=
  fun w =>
    match postInstall fuel env w with
    | (Ret _, w') => (Ret 0%Z, w')
    | (Abort (Exited c), w') => (Ret c, w')
    | (Abort (Thrown _), w') | (Abort (Uncaught _), w') => (Ret 1%Z, w')
    | (Abort why, w') => (Abort why, w')
    end.

Definition runInstall (fuel : nat) (env : Env) (postinstallPath : string) : M unit :=
  log "Running post-install setup..." ;;
  tell (Spawn "node" [postinstallPath]) ;;
  match spawn_result env "node" [postinstallPath] with
  | ChildError code msg =>
      logErr ("Failed to run installation: " +:+ msg) ;;
      exit 1%Z
  | ChildExit _ _ =>
      code <- run_postinstall fuel env ;;
      exit code
  end.

Definition is_one_of (command : option string) (names : list string) : bool :=
  match command with
  | Some c => List.existsb (String.eqb c) names
  | None => false
  end.

(** [main], on [process.argv.slice(2)]. *)
Definition main (fuel : nat) (env : Env) (postinstallPath : string)
    (args : list string) : M unit :=
  let command := List.head args in
  if is_one_of command ["start"; "launch"; "open"] then
    installed <- isAppInstalled env ;;
    when (negb installed)
      (logErr "Kaitu app is not installed" ;;
       log "Please run: sudo npm install -g kaitu" ;;
       exit 1%Z) ;;
    launchApp env
  else if is_one_of command ["service"] then runServiceCommand env (List.tail args)
  else if is_one_of command ["install"; "setup"] then runInstall fuel env postinstallPath
  else if is_one_of command ["status"] then showStatus env
  else if is_one_of command ["help"; "--help"; "-h"] then showHelp
  else
    match command with
    | None => showHelp
    | Some c =>
        logErr ("Unknown command: " +:+ c) ;;
        showHelp ;;
        exit 1%Z
    end.

Local Open Scope list_scope.
(** ** Vocabulary of the specifications *)

Definition is_redirect (statusCode : nat) : bool :=
  (statusCode =? 302)%nat || (statusCode =? 301)%nat.

(** The reply that ends the chain of requests started at [u], when it is
    reached within [n] requests. *)
Fixpoint final_reply (n : nat) (env : Env) (u : option string) : option reply :=
  match n with
  | O => None
  | S n' =>
      match request env u with
      | Response statusCode location body =>
          if is_redirect statusCode then final_reply n' env location
          else Some (Response statusCode location body)
      | r => Some r
      end
  end.

(** How [downloadFile] ends, read off the final reply. *)
Definition download_outcome (r : option reply) : outcome unit :=
  match r with
  | None => Abort OutOfFuel
  | Some BadUrl => Abort (Thrown InvalidUrl)
  | Some Unanswered => Abort OutOfFuel
  | Some (RequestError msg) => Abort (Thrown (NetworkError msg))
  | Some (Response statusCode _ _) =>
      if (statusCode =? 200)%nat then Ret tt
      else Abort (Thrown (DownloadFailed statusCode))
  end.

(** What [downloadFile] leaves at its destination. *)
Definition download_leaves (r : reply) : option node :=
  match r with
  | BadUrl | Unanswered => Some (File [])
  | RequestError _ => None
  | Response statusCode _ body =>
      if (statusCode =? 200)%nat then Some (File body) else None
  end.

(** [changes touch allowed w w']: from [w] to [w'] only paths in [touch]
    were written and only events in [allowed] were added. *)
Record changes (touch : string -> Prop) (allowed : event -> Prop)
    (w w' : World) : Prop := {
  changes_frame : forall q, ~ touch q -> fs w' !! q = fs w !! q;
  changes_trace : exists tr, events w' = tr ++ events w /\ Forall allowed tr
}.

(** A computation all of whose runs are related by [R]. *)
Definition keeps {A} (R : World -> World -> Prop) (m : M A) : Prop :=
  forall w, R w (m w).2.

Definition is_log (e : event) : Prop :=
  match e with Log _ | LogErr _ => True | _ => False end.

(** Events of a download to [dest]. *)
Definition download_event (dest : string) (e : event) : Prop :=
  match e with
  | Log _ | LogErr _ | Get _ => True
  | OpenWrite p | Unlink p => p = dest
  | _ => False
  end.

Definition sha256_tag (bytes : list Byte.byte) : string :=
  "sha256:" +:+ Sha256.sha256_hex bytes.

(** Normalization of an expected digest as the specification words it:
    lower-case hexadecimal behind the algorithm tag. *)
Definition lower_ascii (c : ascii) : ascii :=
  let n := nat_of_ascii c in
  if (65 <=? n)%nat && (n <=? 90)%nat then ascii_of_nat (n + 32) else c.

Fixpoint lower (s : string) : string :=
  match s with
  | EmptyString => EmptyString
  | String c r => String (lower_ascii c) (lower r)
  end.

Definition spec_normalize_digest (expected : string) : string :=
  let l := lower expected in
  if String.prefix "sha256:" l then l else "sha256:" +:+ l.




(** The paths a command may write.  The four commands of [installDMG]
    rewrite whole trees and are not bounded here. *)
Definition cmd_touch (c : cmd) (q : string) : Prop :=
  match c with
  | MkdirP d => q = d
  | Cp src dst => q = dst \/ q = dst +:+ "/" +:+ basename src
  | ChmodX _ | ServiceInstall _ | NetSession | OpenApp => False
  | _ => True
  end.

(** The paths [installService] may write and the events it may emit. *)
Definition service_touch (env : Env) (platformInfo : PlatformInfo) (q : string) : Prop :=
  q = serviceTempPath env platformInfo \/
  cmd_touch (MkdirP (dirname (serviceTargetPath env platformInfo))) q \/
  cmd_touch (Cp (serviceTempPath env platformInfo) (serviceTargetPath env platformInfo)) q.

Definition service_cmd (c : cmd) : Prop :=
  match c with
  | MkdirP _ | Cp _ _ | ChmodX _ | ServiceInstall _ => True
  | _ => False
  end.

Definition service_event (env : Env) (platformInfo : PlatformInfo) (e : event) : Prop :=
  match e with
  | Exec c _ => service_cmd c
  | _ => download_event (serviceTempPath env platformInfo) e
  end.

(** What [checkPrivileges] answers. *)
Definition elevated (env : Env) : bool :=
  if String.eqb (process_platform env) "darwin" then access_W_OK env "/Applications"
  else if String.eqb (process_platform env) "linux" then access_W_OK env "/usr/local/bin"
  else if String.eqb (process_platform env) "win32" then negb (cmd_fails env NetSession)
  else false.

Definition darwin_info : PlatformInfo :=
  {| platform := "darwin"; arch := Str "universal"; key := "darwin-universal";
     isMac := true; isWindows := false; isLinux := false |}.

(** Events of a run without privileges: log lines, requests, the staging
    of the disk image and the Windows privilege probe. *)
Definition unprivileged_event (env : Env) (e : event) : Prop :=
  match e with
  | Exec c _ => c = NetSession
  | Spawn _ _ => False
  | _ => download_event (dmgTempPath env) e
  end.

(** The paths and events of the first part of [postInstall]. *)
Definition prelude_touch (env : Env) (q : string) : Prop :=
  elevated env = true /\
  exists platformInfo,
    getPlatformInfo (process_platform env) (process_arch env) = Ret platformInfo /\
    service_touch env platformInfo q.

Definition prelude_event (env : Env) (e : event) : Prop :=
  is_log e \/ (exists b, e = Exec NetSession b) \/
  (elevated env = true /\
   exists platformInfo,
     getPlatformInfo (process_platform env) (process_arch env) = Ret platformInfo /\
     service_event env platformInfo e).

(** The commands of [installDMG]. *)
Definition installer_cmd (c : cmd) : Prop :=
  match c with
  | HdiutilAttach _ _ | HdiutilDetach _ | RmRf _ | CpR _ _ => True
  | _ => False
  end.

Definition not_installer_event (e : event) : Prop :=
  forall c b, e = Exec c b -> ~ installer_cmd c.

(** What the [catch] block of [postInstall] adds to the trace. *)
Definition failure_report (err : error) (w : World) : World :=
  emit (LogErr releases_url)
    (emit (LogErr "You can download the installer manually from:")
       (emit (LogErr ("Installation failed: " +:+ message err)) w)).

(** Events other than a request or the opening of a file for writing. *)
Definition no_fetch_event (e : event) : Prop :=
  match e with
  | Get _ | OpenWrite _ => False
  | _ => True
  end.

(** The lines [postInstall] logs once the desktop installer is dealt
    with. *)
Definition summary (serviceInstalled desktopInstalled : bool) : M unit :=
  (log rule ;;
   log "Installation Summary:" ;;
   when serviceInstalled (log "Service installed to /usr/local/bin/kaitu-service") ;;
   when desktopInstalled (log "Desktop app installed to /Applications") ;;
   log rule)%M.

(** What the macOS branch does when it does not install. *)
Definition deferred_notice (dmgPath : string) : M unit :=
  (log "Cannot install to /Applications without privileges" ;;
   log ("Downloaded installer to: " +:+ dmgPath) ;;
   log "Please open the DMG and drag Kaitu to Applications manually")%M.

(** An outcome that is a return or an exception. *)
Definition throws_only {A} (o : outcome A) : Prop :=
  match o with
  | Ret _ | Abort (Thrown _) => True
  | _ => False
  end.

Definition only_throws {A} (m : M A) : Prop := forall w, throws_only (m w).1.

(** The mount point and the two ends of the copy in [installDMG]. *)
Definition mountPoint (env : Env) : string :=
  path_join (sep env) [tmpdir env; "kaitu-mount"].

Definition mountedApp (env : Env) : string :=
  path_join (sep env) [mountPoint env; "Kaitu.app"].

Definition copy_done (env : Env) : event :=
  Exec (CpR (mountedApp env) "/Applications/Kaitu.app") true.

(** A run of [installDMG] that fails because of the unmount: it throws
    [err], and when the copy was done [err] is the failure of the unmount
    itself and the world [w'] it leaves has the bundle at its place. *)
Definition unmount_failure (env : Env) {A} (o : outcome A) (tr : list event)
    (w' : World) : Prop :=
  exists err,
    o = Abort (Thrown err) /\
    (In (copy_done env) tr ->
     err = ExecError (HdiutilDetach (mountPoint env)) /\
     is_Some (fs w' !! "/Applications/Kaitu.app")).

Definition fails_on_unmount (env : Env) {A} (m : M A) : Prop :=
  forall w, exists tr,
    events (m w).2 = tr ++ events w /\ unmount_failure env (m w).1 tr (m w).2.

Fixpoint last_char (s : string) (d : ascii) : ascii :=
  match s with
  | EmptyString => d
  | String c r => last_char r c
  end.

(** ** Concrete scenarios *)

Module Scenario.

Definition abc : list Byte.byte := [Byte.x61; Byte.x62; Byte.x63].

Definition abc_tag : string :=
  "sha256:ba7816bf8f01cfea414140de5dae2223b00361a396177a9cb410ff61f20015ad".

Definition empty_tag_upper : string :=
  "sha256:E3B0C44298FC1C149AFBF4C8996FB92427AE41E4649B934CA495991B7852B855".

Definition wrong_tag : string :=
  "sha256:aaaaaaaaaaaaaaaaaaaaaaaaaaaaaaaaaaaaaaaaaaaaaaaaaaaaaaaaaaaaaaaa".

Definition dmg_url : string := "https://x/App.dmg".
Definition cdn_url : string := "https://cdn/App.dmg".
Definition svc_url : string := "https://x/kaitu-service".

(** [dmg_url] redirects to [cdn_url], which serves [abc]; [svc_url] serves
    the empty file; ["https://x/missing"] is a 404; anything else does not
    resolve. *)
Definition network (u : string) : reply :=
  if String.eqb u dmg_url then Response 302 (Some cdn_url) []
  else if String.eqb u cdn_url then Response 200 None abc
  else if String.eqb u svc_url then Response 200 None []
  else if String.eqb u "https://x/missing" then Response 404 None []
  else RequestError "getaddrinfo ENOTFOUND".

(** A disk image whose volume holds the bundle under its canonical name. *)
Definition volume : gmap string node :=
  {[ "Kaitu.app" := Dir; "Kaitu.app/Info.plist" := File [] ]}.

(** A disk image whose volume holds a bundle under another name only. *)
Definition volume_renamed : gmap string node :=
  {[ "Kaitu Beta.app" := Dir; "Kaitu Beta.app/Info.plist" := File [] ]}.

Definition manifest (installer_hash : string) : PackageConfig :=
  {| service := Some [("darwin-universal", {| url := svc_url; hash := abc_tag |})];
     installer := Some [("darwin-universal", {| url := dmg_url; hash := installer_hash |})] |}.

Definition mac (vol : gmap string node) (installer_hash : string)
    (privileged detach_fails : bool) : Env :=
  {| process_platform := "darwin";
     process_arch := "arm64";
     tmpdir := "/tmp";
     ProgramFiles := None;
     LOCALAPPDATA := None;
     package_json := Some (manifest installer_hash);
     net := network;
     access_W_OK := fun _ => privileged;
     dmg_volume := fun _ => Some vol;
     cmd_fails := fun c => match c with HdiutilDetach _ => detach_fails | _ => false end;
     spawn_result := fun _ _ => ChildExit (Some 0%Z) None |}.

(** The same Mac with a manifest that has the installer only, served as
    [abc] with its digest. *)
Definition mac_app_only (vol : gmap string node) (detach_fails : bool) : Env :=
  {| process_platform := "darwin";
     process_arch := "arm64";
     tmpdir := "/tmp";
     ProgramFiles := None;
     LOCALAPPDATA := None;
     package_json :=
       Some {| service := None;
               installer := Some [("darwin-universal",
                                   {| url := dmg_url; hash := abc_tag |})] |};
     net := network;
     access_W_OK := fun _ => true;
     dmg_volume := fun _ => Some vol;
     cmd_fails := fun c => match c with HdiutilDetach _ => detach_fails | _ => false end;
     spawn_result := fun _ _ => ChildExit (Some 0%Z) None |}.

Definition linux : Env :=
  {| process_platform := "linux";
     process_arch := "x64";
     tmpdir := "/tmp";
     ProgramFiles := None;
     LOCALAPPDATA := None;
     package_json := Some (manifest abc_tag);
     net := network;
     access_W_OK := fun _ => true;
     dmg_volume := fun _ => None;
     cmd_fails := fun _ => false;
     spawn_result := fun _ _ => ChildExit (Some 0%Z) None |}.

Definition world (files : gmap string node) : World :=
  {| fs := files; events := []; registered := false |}.

(** A machine with the standard directories and nothing installed. *)
Definition fresh : World :=
  world {[ "/Applications" := Dir; "/usr/local/bin" := Dir; "/tmp" := Dir ]}.

(** The same machine with a bundle installed earlier. *)
Definition with_app : World :=
  world {[ "/Applications" := Dir; "/usr/local/bin" := Dir; "/tmp" := Dir;
           "/Applications/Kaitu.app" := Dir;
           "/Applications/Kaitu.app/Info.plist" := File abc ]}.

(** The same machine with a disk image left in the temp directory. *)
Definition with_cached (bytes : list Byte.byte) : World :=
  world {[ "/Applications" := Dir; "/usr/local/bin" := Dir; "/tmp" := Dir;
           "/tmp/kaitu-installer.dmg" := File bytes ]}.

End Scenario.

(** ** Vocabulary of the further properties *)

(** Whether [sub] occurs in [s]. *)
Fixpoint contains (sub s : string) : bool :=
  String.prefix sub s ||
  match s with
  | EmptyString => false
  | String _ r => contains sub r
  end.



(** The steps of [installService] after the download. *)
Definition installService_rest (env : Env) (platformInfo : PlatformInfo)
    (serviceInfo : Descriptor) : M bool :=
  log "Verifying service binary..." ;;
  verifyHash (serviceTempPath env platformInfo) (hash serviceInfo) ;;
  log "Verification successful" ;;
  if isMac platformInfo || isLinux platformInfo then
    log ("Installing service to " +:+ serviceTargetPath env platformInfo +:+ "...") ;;
    present <- existsSync (dirname (serviceTargetPath env platformInfo)) ;;
    when (negb present) (execSync env (MkdirP (dirname (serviceTargetPath env platformInfo)))) ;;
    execSync env (Cp (serviceTempPath env platformInfo) (serviceTargetPath env platformInfo)) ;;
    execSync env (ChmodX (serviceTargetPath env platformInfo)) ;;
    unlinkSync (serviceTempPath env platformInfo) ;;
    log "Running service installation..." ;;
    try_catch
      (execSync env (ServiceInstall (serviceTargetPath env platformInfo)) ;;
       log "Service installed successfully")
      (fun err =>
         log "Service installation requires sudo privileges" ;;
         log "Please run manually: sudo kaitu-service install") ;;
    ret true
  else if isWindows platformInfo then
    log "Windows service installation is not yet automated" ;;
    log "Please install the service manually" ;;
    ret false
  else ret false.

(** From [w] to [w'] the registration of the service did not change. *)
Definition same_registration (w w' : World) : Prop := registered w' = registered w.

(** * Properties *)

(** ** The effect monad *)

Lemma bind_run {A B} (m : M A) (k : A -> M B) (w : World) :
  bind m k w =
  match m w with
  | (Ret a, w') => k a w'
  | (Abort why, w') => (Abort why, w')
  end.
Proof. reflexivity. Qed.

#[export] Instance changes_preorder touch allowed : PreOrder (changes touch allowed).
Proof.
  split.
  - intros w. split; [done|]. exists []. by split.
  - intros w1 w2 w3 [F1 (t1 & E1 & A1)] [F2 (t2 & E2 & A2)]. split.
    + intros q Hq. by rewrite F2, F1.
    + exists (t2 ++ t1). split.
      * by rewrite E2, E1, app_assoc.
      * by apply Forall_app.
Qed.

Lemma changes_weaken (touch touch' : string -> Prop) (allowed allowed' : event -> Prop) w w' :
  (forall q, touch q -> touch' q) ->
  (forall e, allowed e -> allowed' e) ->
  changes touch allowed w w' -> changes touch' allowed' w w'.
Proof.
  intros Ht Ha [F (tr & E & A)]. split.
  - intros q Hq. apply F. auto.
  - exists tr. split; [done|]. eapply Forall_impl; eauto.
Qed.

Lemma changes_emit touch (allowed : event -> Prop) e w :
  allowed e -> changes touch allowed w (emit e w).
Proof.
  intros He. split; [done|]. exists [e]. split; [done|]. by constructor.
Qed.

Lemma changes_set_fs (touch : string -> Prop) allowed m w :
  (forall q, ~ touch q -> m !! q = fs w !! q) ->
  changes touch allowed w (set_fs m w).
Proof. intros H. split; [done|]. exists []. by split. Qed.

Lemma keeps_run {A} (R : World -> World -> Prop) (m : M A) w o w' :
  keeps R m -> m w = (o, w') -> R w w'.
Proof. intros H E. specialize (H w). by rewrite E in H. Qed.

Section Keeps.
Context (R : World -> World -> Prop) `{!PreOrder R}.

Lemma keeps_ret {A} (a : A) : keeps R (ret a).
Proof. intros w. simpl. reflexivity. Qed.

Lemma keeps_stop {A} why : keeps R (@stop A why).
Proof. intros w. simpl. reflexivity. Qed.

Lemma keeps_lift {A} (o : outcome A) : keeps R (lift o).
Proof. intros w. simpl. reflexivity. Qed.

Lemma keeps_bind {A B} (m : M A) (k : A -> M B) :
  keeps R m -> (forall a, keeps R (k a)) -> keeps R (bind m k).
Proof.
  intros Hm Hk w. rewrite bind_run. specialize (Hm w).
  destruct (m w) as [[a|why] w1]; simpl in *; [|done].
  etrans; [exact Hm|]. apply Hk.
Qed.

Lemma keeps_bind_post {A B} (P : A -> Prop) (m : M A) (k : A -> M B) :
  keeps R m -> (forall w a w', m w = (Ret a, w') -> P a) ->
  (forall a, P a -> keeps R (k a)) -> keeps R (bind m k).
Proof.
  intros Hm Hp Hk w. rewrite bind_run. specialize (Hm w). specialize (Hp w).
  destruct (m w) as [[a|why] w1]; simpl in *; [|done].
  etrans; [exact Hm|]. apply Hk. by eapply Hp.
Qed.

Lemma keeps_try_catch {A} (body : M A) handler :
  keeps R body -> (forall e, keeps R (handler e)) -> keeps R (try_catch body handler).
Proof.
  intros Hb Hh w. unfold try_catch. specialize (Hb w).
  destruct (body w) as [[a|[e| | | |]] w1]; simpl in *; try done.
  etrans; [exact Hb|]. apply Hh.
Qed.

Lemma keeps_when b (m : M unit) : keeps R m -> keeps R (when b m).
Proof. intros Hm. destruct b; simpl; [done|]. apply keeps_ret. Qed.

Lemma keeps_existsSync p : keeps R (existsSync p).
Proof. intros w. simpl. reflexivity. Qed.

Lemma keeps_verifyHash p h : keeps R (verifyHash p h).
Proof.
  intros w. unfold verifyHash.
  destruct (fs w !! p) as [[bytes|]|]; [|reflexivity..].
  destruct (String.eqb _ _); reflexivity.
Qed.

Lemma keeps_readdirSync p : keeps R (readdirSync p).
Proof.
  intros w. unfold readdirSync. destruct (fs w !! p) as [[?|]|]; reflexivity.
Qed.

Lemma keeps_getPackageConfig env : keeps R (getPackageConfig env).
Proof. unfold getPackageConfig. destruct (package_json env); [apply keeps_ret|apply keeps_stop]. Qed.
End Keeps.

(** Inversion of a run through [bind] and [try_catch]. *)
Lemma bind_inv {A B} (m : M A) (k : A -> M B) w o w' :
  bind m k w = (o, w') ->
  (exists a w1, m w = (Ret a, w1) /\ k a w1 = (o, w')) \/
  (exists why, m w = (Abort why, w') /\ o = Abort why).
Proof.
  rewrite bind_run. destruct (m w) as [[a|why] w1]; intros H.
  - left. by exists a, w1.
  - right. exists why. by injection H as <- <-.
Qed.

Lemma bind_ret_inv {A B} (m : M A) (k : A -> M B) w b w' :
  bind m k w = (Ret b, w') ->
  exists a w1, m w = (Ret a, w1) /\ k a w1 = (Ret b, w').
Proof.
  intros H. apply bind_inv in H as [H|(why & _ & [=])]. done.
Qed.

Lemma try_catch_ret_inv {A} (body : M A) handler w a w' :
  try_catch body handler w = (Ret a, w') ->
  body w = (Ret a, w') \/
  exists e w1, body w = (Abort (Thrown e), w1) /\ handler e w1 = (Ret a, w').
Proof.
  unfold try_catch. destruct (body w) as [[x|[e| | | |]] w1]; intros H; try done.
  - by left.
  - right. by exists e, w1.
Qed.

Lemma tell_run e w : tell e w = (Ret tt, emit e w).
Proof. reflexivity. Qed.

Lemma log_run {A} msg (k : M A) w : (log msg ;; k) w = k (emit (Log msg) w).
Proof. reflexivity. Qed.

Lemma fs_emit e w : fs (emit e w) = fs w.
Proof. reflexivity. Qed.

Lemma when_ret_inv b (m : M unit) w a w' :
  when b m w = (Ret a, w') ->
  (b = true /\ m w = (Ret a, w')) \/ (b = false /\ w' = w).
Proof. destruct b; simpl; intros H; [by left|right]. by injection H as <-. Qed.

Lemma unlinkSync_ret_inv p w a w' :
  unlinkSync p w = (Ret a, w') ->
  w' = emit (Unlink p) (set_fs (delete p (fs w)) w).
Proof.
  unfold unlinkSync. destruct (fs w !! p) as [[?|]|]; intros H; try done.
  by injection H as <-.
Qed.

(** Breaking a run that returned into the runs of its steps. *)
Ltac inv_run H :=
  repeat
    (let a := fresh "a" in
     let w := fresh "w" in
     let E := fresh "E" in
     apply bind_ret_inv in H as (a & w & E & H)).

(** ** Commands *)

Lemma cmd_sem_frame env c w w' q :
  cmd_sem env c w = Some w' -> ~ cmd_touch c q -> fs w' !! q = fs w !! q.
Proof.
  destruct c; simpl; intros H Hq; try (exfalso; by apply Hq).
  - destruct (fs w !! dir) as [[?|]|]; try done.
    + by injection H as <-.
    + injection H as <-. simpl. apply lookup_insert_ne. congruence.
  - destruct (fs w !! src) as [[bytes|]|]; try done.
    injection H as <-. simpl. apply lookup_insert_ne.
    unfold cp_target. destruct (fs w !! dst) as [[?|]|]; intros <-; apply Hq; auto.
  - destruct (fs w !! p); [|done]. by injection H as <-.
  - destruct (fs w !! bin) as [[?|]|]; try done. by injection H as <-.
  - by injection H as <-.
  - by injection H as <-.
Qed.

Lemma cmd_sem_events env c w w' : cmd_sem env c w = Some w' -> events w' = events w.
Proof.
  destruct c; simpl; intros H;
    repeat match type of H with
           | context [match ?x with _ => _ end] => destruct x
           end; try done; by injection H as <-.
Qed.

Lemma changes_execSync env c (touch : string -> Prop) (allowed : event -> Prop) :
  (forall q, cmd_touch c q -> touch q) -> (forall b, allowed (Exec c b)) ->
  keeps (changes touch allowed) (execSync env c).
Proof.
  intros Ht Ha w. unfold execSync.
  destruct (if cmd_fails env c then None else cmd_sem env c w) as [w'|] eqn:E; simpl.
  - destruct (cmd_fails env c); [done|].
    split.
    + intros q Hq. simpl. eapply cmd_sem_frame; [done|]. intros Hc. apply Hq. by apply Ht.
    + exists [Exec c true]. simpl. split; [|by constructor].
      by rewrite (cmd_sem_events _ _ _ _ E).
  - by apply changes_emit.
Qed.

Lemma execSync_cases env c w :
  (exists w0, cmd_sem env c w = Some w0 /\
              execSync env c w = (Ret tt, emit (Exec c true) w0)) \/
  execSync env c w = (Abort (Thrown (ExecError c)), emit (Exec c false) w).
Proof.
  unfold execSync. destruct (cmd_fails env c); [by right|].
  destruct (cmd_sem env c w) as [w0|]; [left; by exists w0|by right].
Qed.

Lemma execSync_fails env c w :
  cmd_fails env c = true ->
  execSync env c w = (Abort (Thrown (ExecError c)), emit (Exec c false) w).
Proof. intros H. unfold execSync. by rewrite H. Qed.

(** ** File-system primitives *)

Lemma changes_unlinkSync p (touch : string -> Prop) (allowed : event -> Prop) :
  touch p -> allowed (Unlink p) -> keeps (changes touch allowed) (unlinkSync p).
Proof.
  intros Ht Ha w. unfold unlinkSync.
  destruct (fs w !! p) as [[bytes|]|]; simpl; try by apply changes_emit.
  etrans; [|by apply changes_emit].
  apply changes_set_fs. intros q Hq. apply lookup_delete_ne. congruence.
Qed.

Lemma changes_createWriteStream p (touch : string -> Prop) (allowed : event -> Prop) :
  touch p -> allowed (OpenWrite p) -> keeps (changes touch allowed) (createWriteStream p).
Proof.
  intros Ht Ha w. unfold createWriteStream.
  assert (changes touch allowed w (emit (OpenWrite p) (set_fs (<[p:=File []]> (fs w)) w))).
  { etrans; [|by apply changes_emit].
    apply changes_set_fs. intros q Hq. apply lookup_insert_ne. congruence. }
  destruct (fs w !! p) as [[bytes|]|]; simpl; try done. by apply changes_emit.
Qed.

Lemma changes_pipe body p (touch : string -> Prop) (allowed : event -> Prop) :
  touch p -> keeps (changes touch allowed) (pipe body p).
Proof.
  intros Ht w. simpl. apply changes_set_fs.
  intros q Hq. apply lookup_insert_ne. congruence.
Qed.

Lemma changes_tell e (touch : string -> Prop) (allowed : event -> Prop) :
  allowed e -> keeps (changes touch allowed) (tell e).
Proof. intros Ha w. by apply changes_emit. Qed.

Lemma changes_https_get env u (touch : string -> Prop) (allowed : event -> Prop) :
  allowed (Get u) -> keeps (changes touch allowed) (https_get env u).
Proof. intros Ha w. by apply changes_emit. Qed.

(** ** [downloadFile] *)

(** A download writes nothing but its destination and emits nothing but
    its own requests, opens, unlinks and log lines. *)
Lemma downloadFile_changes fuel env u dest (touch : string -> Prop) (allowed : event -> Prop) :
  touch dest -> (forall e, download_event dest e -> allowed e) ->
  keeps (changes touch allowed) (downloadFile fuel env u dest).
Proof.
  intros Ht Ha. revert u.
  assert (Hun : keeps (changes touch allowed)
                  (ex <- existsSync dest ;; when ex (unlinkSync dest))).
  { apply keeps_bind; [apply _|apply keeps_existsSync; apply _|].
    intros b. apply keeps_when; [apply _|]. apply changes_unlinkSync; [done|]. by apply Ha. }
  induction fuel as [|fuel IH]; intros u; simpl.
  - apply keeps_stop; apply _.
  - apply keeps_bind; [apply _|apply changes_tell; by apply Ha|]. intros _.
    apply keeps_bind; [apply _|apply changes_createWriteStream; [done|by apply Ha]|]. intros _.
    apply keeps_bind; [apply _|apply changes_https_get; by apply Ha|]. intros r.
    destruct r as [sc loc body|msg| |].
    + destruct (_ || _).
      * apply keeps_bind; [apply _|apply keeps_existsSync; apply _|]. intros b.
        apply keeps_bind; [apply _| |by intros _].
        apply keeps_when; [apply _|]. apply changes_unlinkSync; [done|]. by apply Ha.
      * destruct (negb _).
        -- apply keeps_bind; [apply _|apply keeps_existsSync; apply _|]. intros b.
           apply keeps_bind; [apply _| |intros _; apply keeps_stop; apply _].
           apply keeps_when; [apply _|]. apply changes_unlinkSync; [done|]. by apply Ha.
        -- apply keeps_bind; [apply _|by apply changes_pipe|]. intros _.
           apply changes_tell. by apply Ha.
    + apply keeps_bind; [apply _|apply keeps_existsSync; apply _|]. intros b.
      apply keeps_bind; [apply _| |intros _; apply keeps_stop; apply _].
      apply keeps_when; [apply _|]. apply changes_unlinkSync; [done|]. by apply Ha.
    + apply keeps_stop; apply _.
    + apply keeps_stop; apply _.
Qed.

Lemma createWriteStream_run p w :
  fs w !! p <> Some Dir ->
  createWriteStream p w =
  (Ret tt, emit (OpenWrite p) (set_fs (<[p := File []]> (fs w)) w)).
Proof. intros H. unfold createWriteStream. by destruct (fs w !! p) as [[?|]|]. Qed.

(** [if (fs.existsSync(p)) fs.unlinkSync(p)] on a regular file. *)
Lemma discard_run {A} p bytes (k : M A) w :
  fs w !! p = Some (File bytes) ->
  (ex <- existsSync p ;; when ex (unlinkSync p) ;; k) w =
  k (emit (Unlink p) (set_fs (delete p (fs w)) w)).
Proof.
  intros H. rewrite bind_run. unfold existsSync. rewrite H. simpl.
  rewrite bind_run. unfold unlinkSync. by rewrite H.
Qed.

(** The outcome of a download and the node it leaves at its destination
    are those of the final reply of the redirect chain. *)
Lemma downloadFile_final fuel env u dest w :
  fs w !! dest <> Some Dir ->
  (downloadFile fuel env u dest w).1 = download_outcome (final_reply fuel env u) /\
  forall r, final_reply fuel env u = Some r ->
            fs (downloadFile fuel env u dest w).2 !! dest = download_leaves r.
Proof.
  revert u w. induction fuel as [|fuel IH]; intros u w Hd; simpl.
  - split; [done|]. intros r [=].
  - rewrite bind_run. simpl. rewrite bind_run.
    rewrite createWriteStream_run by done.
    rewrite bind_run. simpl.
    set (w1 := emit (Get u) _).
    assert (H1 : fs w1 !! dest = Some (File [])) by (simpl; apply lookup_insert_eq).
    destruct (request env u) as [sc loc body|msg| |] eqn:Er.
    + unfold is_redirect. destruct ((sc =? 302)%nat || (sc =? 301)%nat) eqn:Ered.
      * rewrite (discard_run _ _ _ _ H1). apply IH. simpl. by rewrite lookup_delete_eq.
      * destruct (sc =? 200)%nat eqn:E200; simpl.
        -- rewrite E200. split; [done|].
           intros r [= <-]. simpl. by rewrite E200, lookup_insert_eq.
        -- rewrite (discard_run _ _ _ _ H1). simpl. rewrite E200. split; [done|].
           intros r [= <-]. simpl. by rewrite E200, lookup_delete_eq.
    + rewrite (discard_run _ _ _ _ H1). simpl. split; [done|].
      intros r [= <-]. simpl. by rewrite lookup_delete_eq.
    + simpl. split; [done|]. by intros r [= <-].
    + simpl. split; [done|]. by intros r [= <-].
Qed.

Lemma downloadFile_ret fuel env u dest w a w' :
  downloadFile fuel env u dest w = (Ret a, w') ->
  exists location body,
    final_reply fuel env u = Some (Response 200 location body) /\
    fs w' !! dest = Some (File body).
Proof.
  intros H.
  assert (Hd : fs w !! dest <> Some Dir).
  { intros Hd. destruct fuel; simpl in H; [done|].
    rewrite bind_run in H. simpl in H. rewrite bind_run in H.
    unfold createWriteStream in H. simpl in H. by rewrite Hd in H. }
  destruct (downloadFile_final fuel env u dest w Hd) as [Ho Hl].
  rewrite H in Ho, Hl. simpl in Ho, Hl.
  destruct (final_reply fuel env u) as [[sc loc body|msg| |]|] eqn:Er; simpl in Ho; try done.
  destruct (sc =? 200)%nat eqn:E200; [|done].
  apply Nat.eqb_eq in E200. subst sc.
  exists loc, body. split; [done|]. by rewrite (Hl _ eq_refl).
Qed.

(** A download whose redirect chain ends in a 200 reply returns, with the
    body of that reply at the destination. *)
Lemma downloadFile_ok fuel env u dest w location body :
  fs w !! dest <> Some Dir ->
  final_reply fuel env u = Some (Response 200 location body) ->
  (downloadFile fuel env u dest w).1 = Ret tt /\
  fs (downloadFile fuel env u dest w).2 !! dest = Some (File body).
Proof.
  intros Hd Hr. destruct (downloadFile_final fuel env u dest w Hd) as [Ho Hl].
  rewrite Ho, Hr. split; [done|]. by rewrite (Hl _ Hr).
Qed.

(** Combinator-directed proofs that a computation [keeps] a relation. *)
Ltac keeps_step :=
  lazymatch goal with
  | |- keeps _ (bind _ _) => apply keeps_bind; [apply _| |intros ?]
  | |- keeps _ (try_catch _ _) => apply keeps_try_catch; [apply _| |intros ?]
  | |- keeps _ (when _ _) => apply keeps_when; [apply _|]
  | |- keeps _ (ret _) => apply keeps_ret; apply _
  | |- keeps _ (stop _) => apply keeps_stop; apply _
  | |- keeps _ (throw _) => apply keeps_stop; apply _
  | |- keeps _ (exit _) => apply keeps_stop; apply _
  | |- keeps _ (lift _) => apply keeps_lift; apply _
  | |- keeps _ (existsSync _) => apply keeps_existsSync; apply _
  | |- keeps _ (verifyHash _ _) => apply keeps_verifyHash; apply _
  | |- keeps _ (readdirSync _) => apply keeps_readdirSync; apply _
  | |- keeps _ (getPackageConfig _) => apply keeps_getPackageConfig; apply _
  | |- keeps _ (log _) => apply changes_tell
  | |- keeps _ (logErr _) => apply changes_tell
  | |- keeps _ (tell _) => apply changes_tell
  | |- keeps _ (unlinkSync _) => apply changes_unlinkSync
  | |- keeps _ (execSync _ _) => apply changes_execSync
  | |- keeps _ (downloadFile _ _ _ _) => apply downloadFile_changes
  | |- keeps _ (if ?b then _ else _) => destruct b
  | |- keeps _ (match ?x with _ => _ end) => destruct x
  end.


(** ** [verifyHash] and the cache check *)

Lemma verifyHash_match p h w bytes :
  fs w !! p = Some (File bytes) -> sha256_tag bytes = h ->
  verifyHash p h w = (Ret true, w).
Proof.
  intros E <-. unfold verifyHash. rewrite E. fold (sha256_tag bytes).
  by rewrite String.eqb_refl.
Qed.

Lemma verifyHash_mismatch p h w bytes :
  fs w !! p = Some (File bytes) -> sha256_tag bytes <> h ->
  verifyHash p h w = (Abort (Thrown (HashMismatch h (sha256_tag bytes))), w).
Proof.
  intros E Hne. unfold verifyHash. rewrite E. fold (sha256_tag bytes).
  apply String.eqb_neq in Hne. by rewrite Hne.
Qed.

Lemma verifyHash_dir p h w :
  fs w !! p = Some Dir ->
  verifyHash p h w = (Abort (Thrown (FsError "EISDIR" p)), w).
Proof. intros E. unfold verifyHash. by rewrite E. Qed.

Lemma verifyHash_ret_inv p h w a w' :
  verifyHash p h w = (Ret a, w') ->
  w' = w /\ exists bytes, fs w !! p = Some (File bytes) /\ sha256_tag bytes = h.
Proof.
  unfold verifyHash. destruct (fs w !! p) as [[bytes|]|]; try done.
  fold (sha256_tag bytes).
  destruct (String.eqb (sha256_tag bytes) h) eqn:E; [|done].
  intros [= <- <-]. split; [done|]. exists bytes. split; [done|].
  by apply String.eqb_eq.
Qed.

(** A verified image at the temp path is kept, and nothing is requested. *)
Lemma postInstall_fetch_cached fuel env d dmg w bytes :
  fs w !! dmg = Some (File bytes) -> sha256_tag bytes = hash d ->
  postInstall_fetch fuel env d dmg w = (Ret tt, emit (Log "Using cached installer...") w).
Proof.
  intros E Hh. unfold postInstall_fetch. rewrite bind_run. unfold existsSync.
  rewrite E. rewrite log_run. unfold try_catch. rewrite bind_run.
  by rewrite (verifyHash_match _ _ _ bytes).
Qed.

(** An image at the temp path that does not verify is unlinked, and the
    download starts from the path left empty. *)
Lemma postInstall_fetch_stale fuel env d dmg w bytes :
  fs w !! dmg = Some (File bytes) -> sha256_tag bytes <> hash d ->
  postInstall_fetch fuel env d dmg w =
  downloadFile fuel env (Some (url d)) dmg
    (emit (Unlink dmg)
       (set_fs (delete dmg (fs w))
          (emit (Log "Cached installer verification failed, re-downloading...")
             (emit (Log "Using cached installer...") w)))).
Proof.
  intros E Hh. unfold postInstall_fetch. rewrite bind_run. unfold existsSync.
  rewrite E. rewrite log_run. unfold try_catch. rewrite bind_run.
  rewrite (verifyHash_mismatch _ _ _ bytes) by done.
  rewrite log_run. rewrite bind_run. unfold unlinkSync. by rewrite fs_emit, fs_emit, E.
Qed.

(** A directory at the temp path: the check fails and so does the unlink. *)
Lemma postInstall_fetch_dir fuel env d dmg w :
  fs w !! dmg = Some Dir ->
  postInstall_fetch fuel env d dmg w =
  (Abort (Thrown (FsError "EPERM" dmg)),
   emit (Unlink dmg)
     (emit (Log "Cached installer verification failed, re-downloading...")
        (emit (Log "Using cached installer...") w))).
Proof.
  intros E. unfold postInstall_fetch. rewrite bind_run. unfold existsSync.
  rewrite E. rewrite log_run. unfold try_catch. rewrite bind_run.
  rewrite verifyHash_dir by done. rewrite log_run. rewrite bind_run.
  unfold unlinkSync. rewrite fs_emit, fs_emit, E. done.
Qed.

Lemma postInstall_fetch_absent fuel env d dmg w :
  fs w !! dmg = None ->
  postInstall_fetch fuel env d dmg w = downloadFile fuel env (Some (url d)) dmg w.
Proof.
  intros E. unfold postInstall_fetch. rewrite bind_run. unfold existsSync. by rewrite E.
Qed.

Lemma postInstall_fetch_changes fuel env d dmg :
  keeps (changes (eq dmg) (download_event dmg)) (postInstall_fetch fuel env d dmg).
Proof. unfold postInstall_fetch. repeat keeps_step; simpl; auto. Qed.

(** When the cache check returns, the image at the temp path is the
    verified cached one or the body the network served. *)
Lemma postInstall_fetch_ret fuel env d dmg w a w' :
  postInstall_fetch fuel env d dmg w = (Ret a, w') ->
  (exists bytes, fs w !! dmg = Some (File bytes) /\ sha256_tag bytes = hash d /\
                 w' = emit (Log "Using cached installer...") w) \/
  (exists location body,
      final_reply fuel env (Some (url d)) = Some (Response 200 location body) /\
      fs w' !! dmg = Some (File body)).
Proof.
  intros H. destruct (fs w !! dmg) as [[bytes|]|] eqn:E.
  - destruct (decide (sha256_tag bytes = hash d)) as [Hh|Hh].
    + left. exists bytes. rewrite (postInstall_fetch_cached _ _ _ _ _ _ E Hh) in H.
      by injection H as <- <-.
    + right. rewrite (postInstall_fetch_stale _ _ _ _ _ _ E Hh) in H.
      by apply downloadFile_ret in H.
  - exfalso. by rewrite (postInstall_fetch_dir _ _ _ _ _ E) in H.
  - right. rewrite (postInstall_fetch_absent _ _ _ _ _ E) in H.
    by apply downloadFile_ret in H.
Qed.

(** When no verified image is cached and the network serves one, the cache
    check returns with the served body at the temp path. *)
Lemma postInstall_fetch_fresh fuel env d dmg w location body :
  fs w !! dmg <> Some Dir ->
  (forall bytes, fs w !! dmg = Some (File bytes) -> sha256_tag bytes <> hash d) ->
  final_reply fuel env (Some (url d)) = Some (Response 200 location body) ->
  (postInstall_fetch fuel env d dmg w).1 = Ret tt /\
  fs (postInstall_fetch fuel env d dmg w).2 !! dmg = Some (File body).
Proof.
  intros Hd Hc Hr. destruct (fs w !! dmg) as [[bytes|]|] eqn:E; [|done|].
  - rewrite (postInstall_fetch_stale _ _ _ _ _ _ E (Hc _ eq_refl)).
    eapply downloadFile_ok; [|done]. simpl. by rewrite lookup_delete_eq.
  - rewrite (postInstall_fetch_absent _ _ _ _ _ E).
    eapply downloadFile_ok; [|done]. by rewrite E.
Qed.

(** The macOS branch when no image that can reach the temp path has the
    expected digest: the branch stops before [installDMG], having written
    nothing but the temp path. *)
Lemma postInstall_mac_mismatch fuel env d hp w :
  (forall bytes, fs w !! dmgTempPath env = Some (File bytes) -> sha256_tag bytes <> hash d) ->
  (forall location body,
      final_reply fuel env (Some (url d)) = Some (Response 200 location body) ->
      sha256_tag body <> hash d) ->
  (exists why, (postInstall_mac fuel env d hp w).1 = Abort why) /\
  changes (eq (dmgTempPath env)) (download_event (dmgTempPath env))
    w (postInstall_mac fuel env d hp w).2 /\
  (forall location body,
      fs w !! dmgTempPath env <> Some Dir ->
      final_reply fuel env (Some (url d)) = Some (Response 200 location body) ->
      (postInstall_mac fuel env d hp w).1 =
        Abort (Thrown (HashMismatch (hash d) (sha256_tag body))) /\
      fs (postInstall_mac fuel env d hp w).2 !! dmgTempPath env = Some (File body)).
Proof.
  intros Hc Hn. unfold postInstall_mac.
  rewrite log_run. set (w1 := emit _ w).
  assert (C1 : changes (eq (dmgTempPath env)) (download_event (dmgTempPath env)) w w1)
    by (by apply changes_emit).
  rewrite bind_run.
  pose proof (postInstall_fetch_changes fuel env d (dmgTempPath env) w1) as C2.
  destruct (postInstall_fetch fuel env d (dmgTempPath env) w1) as [[a|why] w2] eqn:EF;
    simpl in C2.
  - apply postInstall_fetch_ret in EF as [(bytes & E & Hh & _)|(loc & body & Hr & E)].
    { exfalso. by apply (Hc bytes). }
    rewrite log_run. rewrite bind_run.
    rewrite (verifyHash_mismatch _ _ _ body); [|exact E|by eapply Hn]. simpl.
    split; [by eexists|]. split.
    + etrans; [exact C1|]. etrans; [exact C2|]. by apply changes_emit.
    + intros loc' body' _ Hr'. rewrite Hr in Hr'. injection Hr' as _ <-. done.
  - simpl. split; [by eexists|]. split; [by etrans|].
    intros loc body Hd Hr.
    destruct (postInstall_fetch_fresh fuel env d (dmgTempPath env) w1 loc body)
      as [Ho _]; [done|done|done|].
    by rewrite EF in Ho.
Qed.

(** ** Staged files *)

Lemma installDMG_ret_unlinks env dmgPath w w' :
  installDMG env dmgPath w = (Ret tt, w') -> fs w' !! dmgPath = None.
Proof.
  unfold installDMG. intros H.
  apply bind_ret_inv in H as (_ & w1 & _ & H).
  apply try_catch_ret_inv in H as [H|(e & w2 & _ & H)].
  - unfold installDMG_try in H. inv_run H.
    match goal with
    | U : unlinkSync _ _ = _ |- _ => apply unlinkSync_ret_inv in U; subst
    end.
    unfold log, tell in *. simplify_eq. simpl. apply lookup_delete_eq.
  - unfold installDMG_catch in H. inv_run H. done.
Qed.

Lemma installService_ret_unlinks fuel env platformInfo packageConfig w w' :
  installService fuel env platformInfo packageConfig w = (Ret true, w') ->
  fs w' !! serviceTempPath env platformInfo = None.
Proof.
  unfold installService. intros H.
  apply bind_ret_inv in H as (_ & w1 & _ & H).
  destruct (entry _ _) as [serviceInfo|].
  2:{ inv_run H. done. }
  apply try_catch_ret_inv in H as [H|(e & w2 & _ & H)].
  2:{ inv_run H. done. }
  inv_run H.
  destruct (isMac platformInfo || isLinux platformInfo).
  2:{ destruct (isWindows platformInfo); inv_run H; done. }
  inv_run H.
  match goal with
  | U : unlinkSync _ _ = _ |- _ => apply unlinkSync_ret_inv in U
  end.
  match goal with
  | T : try_catch _ _ _ = _ |- _ =>
      eapply (keeps_run (changes (fun _ => False) (fun _ => True))) in T;
        [destruct T as [F _]|repeat keeps_step; done]
  end.
  injection H as <-. rewrite F by tauto.
  unfold log, tell in *. simplify_eq. simpl. apply lookup_delete_eq.
Qed.

(** ** Path names *)

Lemma last_char_app a b d : last_char (a +:+ b) d = last_char b (last_char a d).
Proof. revert d. induction a as [|c a IH]; intros d; simpl; [done|]. apply IH. Qed.

Lemma path_join_pair sp a c b :
  path_join sp [a; String c b] =
  match a with
  | EmptyString => String c b
  | _ => a +:+ sp +:+ String c b
  end.
Proof. by destruct a. Qed.

Lemma last_char_path_join sp a c b d :
  last_char (path_join sp [a; String c b]) d = last_char b c.
Proof.
  rewrite path_join_pair. destruct a as [|x a]; [done|].
  by rewrite !last_char_app.
Qed.

Lemma last_char_basename s d :
  last_char (basename s) d = d \/ forall d', last_char (basename s) d = last_char s d'.
Proof.
  induction s as [|c r IH]; simpl; [by left|].
  destruct (has_slash r).
  - destruct IH as [IH|IH]; [by left|]. right. intros d'. apply IH.
  - destruct (Ascii.eqb c "/"); [|by right].
    destruct r as [|c' r]; [by left|]. by right.
Qed.

Lemma serviceTempPath_darwin env :
  serviceTempPath env darwin_info =
  path_join (sep env) [tmpdir env; "kaitu-service-darwin-universal"].
Proof. reflexivity. Qed.

(** Distinct last characters tell two paths apart. *)
Ltac by_last_char :=
  let H := fresh in
  intros H; apply (f_equal (fun s => last_char s "000"%char)) in H;
  rewrite ?serviceTempPath_darwin in H;
  unfold dmgTempPath in H;
  rewrite ?last_char_path_join in H;
  rewrite ?last_char_app in H; simpl in H; discriminate.

Lemma dmgTempPath_not_app env : dmgTempPath env <> "/Applications/Kaitu.app".
Proof. by_last_char. Qed.

Lemma service_touch_not_dmg env q :
  service_touch env darwin_info q -> q <> dmgTempPath env.
Proof.
  unfold service_touch, cmd_touch, serviceTargetPath. simpl.
  intros [->|[->|[->| ->]]]; try by_last_char.
  intros H. apply (f_equal (fun s => last_char s "000"%char)) in H.
  unfold dmgTempPath in H. rewrite last_char_path_join in H.
  rewrite !last_char_app in H. simpl in H.
  destruct (last_char_basename (serviceTempPath env darwin_info) "/") as [E|E].
  - rewrite E in H. discriminate.
  - rewrite (E "000"%char), serviceTempPath_darwin in H.
    rewrite last_char_path_join in H. discriminate.
Qed.

Lemma service_touch_not_app env q :
  service_touch env darwin_info q -> q <> "/Applications/Kaitu.app".
Proof.
  unfold service_touch, cmd_touch, serviceTargetPath. simpl.
  intros [->|[->|[->| ->]]]; try by_last_char; discriminate.
Qed.

(** ** [installService], [checkPrivileges] and the first part of [postInstall] *)

Lemma installService_changes fuel env platformInfo packageConfig :
  keeps (changes (service_touch env platformInfo) (service_event env platformInfo))
    (installService fuel env platformInfo packageConfig).
Proof.
  unfold installService.
  repeat keeps_step; unfold service_touch, service_event; simpl; auto.
  all: intros e He; by destruct e.
Qed.

Lemma checkPrivileges_run env w :
  (checkPrivileges env w).1 = Ret (elevated env) /\
  changes (fun _ => False) (fun e => exists b, e = Exec NetSession b)
    w (checkPrivileges env w).2.
Proof.
  unfold checkPrivileges, elevated.
  destruct (String.eqb (process_platform env) "darwin") eqn:Ed; simpl.
  { split; [done|]. reflexivity. }
  destruct (String.eqb (process_platform env) "linux") eqn:El; simpl.
  { split; [done|]. reflexivity. }
  destruct (String.eqb (process_platform env) "win32") eqn:Ew; simpl.
  2:{ split; [done|]. reflexivity. }
  unfold try_catch. rewrite bind_run. unfold execSync. simpl.
  destruct (cmd_fails env NetSession); simpl.
  - split; [done|]. apply changes_emit. by eexists.
  - split; [done|]. apply changes_emit. by eexists.
Qed.

(** What the first part of [postInstall] returns, and what it changes. *)
Lemma postInstall_prelude_ret fuel env w found w' :
  postInstall_prelude fuel env w = (Ret found, w') ->
  exists platformInfo packageConfig serviceInstalled,
    found = (platformInfo, elevated env, packageConfig, serviceInstalled) /\
    getPlatformInfo (process_platform env) (process_arch env) = Ret platformInfo /\
    package_json env = Some packageConfig /\
    (elevated env = false -> serviceInstalled = false) /\
    changes (fun q => elevated env = true /\ service_touch env platformInfo q)
      (fun e => (elevated env = true /\ service_event env platformInfo e) \/
                is_log e \/ exists b, e = Exec NetSession b)
      w w'.
Proof.
  unfold postInstall_prelude. intros H.
  apply bind_ret_inv in H as (u1 & w1 & E1 & H).
  apply bind_ret_inv in H as (platformInfo & w2 & E2 & H).
  apply bind_ret_inv in H as (u3 & w3 & E3 & H).
  apply bind_ret_inv in H as (hp & w4 & E4 & H).
  apply bind_ret_inv in H as (u5 & w5 & E5 & H).
  apply bind_ret_inv in H as (packageConfig & w6 & E6 & H).
  apply bind_ret_inv in H as (serviceInstalled & w7 & E7 & H).
  injection H as <- <-.
  destruct (checkPrivileges_run env w3) as [Hv Hc]. rewrite E4 in Hv, Hc.
  simpl in Hv, Hc. injection Hv as ->.
  exists platformInfo, packageConfig, serviceInstalled.
  unfold lift in E2. injection E2 as E2 <-.
  unfold getPackageConfig in E6. destruct (package_json env) as [cfg|]; [|done].
  injection E6 as <- <-.
  split; [done|]. split; [done|]. split; [done|]. split.
  { intros Hf. rewrite Hf in E7. by injection E7 as <-. }
  set (R := changes _ _).
  assert (L : forall msg v, R v (emit (Log msg) v)).
  { intros msg v. apply changes_emit. right. by left. }
  unfold log, tell in E1, E3. injection E1 as _ <-. injection E3 as _ <-.
  etrans; [apply L|]. etrans; [apply L|].
  etrans.
  { eapply changes_weaken; [| |exact Hc]; [by intros ? []|]. intros e He. by right; right. }
  etrans.
  { eapply (keeps_run R), E5. unfold R. repeat keeps_step; right; by left. }
  destruct (elevated env) eqn:Ee.
  - eapply changes_weaken; [| |eapply keeps_run, E7; apply installService_changes].
    + by intros q Hq.
    + intros e He. by left.
  - injection E7 as _ <-. reflexivity.
Qed.

Lemma postInstall_prelude_changes fuel env :
  keeps (changes (prelude_touch env) (prelude_event env)) (postInstall_prelude fuel env).
Proof.
  unfold postInstall_prelude.
  keeps_step; [keeps_step; by left|].
  eapply (keeps_bind_post _
            (fun a => getPlatformInfo (process_platform env) (process_arch env) = Ret a));
    [keeps_step| |].
  { intros v x v' H. by injection H as ->. }
  intros platformInfo Hpi.
  keeps_step; [keeps_step; by left|].
  eapply (keeps_bind_post _ (fun a => a = elevated env)); [| |].
  { intros v. destruct (checkPrivileges_run env v) as [_ Hc].
    eapply changes_weaken; [| |exact Hc]; [by intros ? []|].
    intros e He. right. by left. }
  { intros v x v' H. destruct (checkPrivileges_run env v) as [Hv _].
    rewrite H in Hv. by injection Hv as ->. }
  intros hp ->.
  keeps_step. { repeat keeps_step; by left. }
  keeps_step; [keeps_step|].
  keeps_step; [|keeps_step].
  destruct (elevated env) eqn:Ee; [|keeps_step].
  intros w. eapply changes_weaken; [| |apply installService_changes].
  - intros q Hq. split; [done|]. by exists platformInfo.
  - intros e He. right; right. split; [done|]. by exists platformInfo.
Qed.


(** ** [postInstall] *)

(** Either the body threw, and the run reports the failure and exits with
    code 1, or the run is the run of the body. *)
Lemma postInstall_cases fuel env w :
  (exists err w1,
      postInstall_body fuel env w = (Abort (Thrown err), w1) /\
      postInstall fuel env w = (Abort (Exited 1), failure_report err w1)) \/
  ((forall err, (postInstall_body fuel env w).1 <> Abort (Thrown err)) /\
   postInstall fuel env w = postInstall_body fuel env w).
Proof.
  unfold postInstall, try_catch.
  destruct (postInstall_body fuel env w) as [[[]|[err| | | |]] w1] eqn:E; simpl.
  all: try (right; split; [by intros|done]).
  left. by exists err, w1.
Qed.

Lemma changes_failure_report (touch : string -> Prop) (allowed : event -> Prop) err w :
  (forall e, is_log e -> allowed e) ->
  changes touch allowed w (failure_report err w).
Proof.
  intros Ha. unfold failure_report.
  etrans; [|apply changes_emit; by apply Ha].
  etrans; [|apply changes_emit; by apply Ha].
  apply changes_emit; by apply Ha.
Qed.

(** What the body changes carries over to the whole run. *)
Lemma postInstall_changes_of_body fuel env w (touch : string -> Prop)
    (allowed : event -> Prop) :
  (forall e, is_log e -> allowed e) ->
  changes touch allowed w (postInstall_body fuel env w).2 ->
  changes touch allowed w (postInstall fuel env w).2.
Proof.
  intros Ha Hb.
  destruct (postInstall_cases fuel env w) as [(err & w1 & Eb & Ep)|[_ Ep]].
  - rewrite Ep. rewrite Eb in Hb. simpl in *.
    etrans; [exact Hb|]. by apply changes_failure_report.
  - by rewrite Ep.
Qed.

Lemma getPlatformInfo_darwin env :
  process_platform env = "darwin" ->
  getPlatformInfo (process_platform env) (process_arch env) = Ret darwin_info.
Proof. intros ->. reflexivity. Qed.

(** On darwin the first part of the run writes neither the temp image nor
    the installed bundle, and runs no command of [installDMG]. *)
Lemma postInstall_prelude_darwin fuel env w :
  process_platform env = "darwin" ->
  changes (fun q => q <> dmgTempPath env /\ q <> "/Applications/Kaitu.app")
    not_installer_event w (postInstall_prelude fuel env w).2.
Proof.
  intros Hp. eapply changes_weaken; [| |apply postInstall_prelude_changes].
  - intros q (_ & pi & Hpi & Hq).
    rewrite (getPlatformInfo_darwin _ Hp) in Hpi. injection Hpi as <-.
    split; [by apply service_touch_not_dmg|by apply (service_touch_not_app env)].
  - intros e He c b' ->. destruct He as [He|[[b He]|(_ & pi & _ & He)]]; simpl in *.
    + done.
    + injection He as -> _. by intros [].
    + destruct c; simpl in *; tauto.
Qed.

Lemma postInstall_desktop_mac fuel env hp cfg si d :
  entry "darwin-universal" (default [] (installer cfg)) = Some d ->
  postInstall_desktop fuel env darwin_info hp cfg si =
  (postInstall_mac fuel env d hp ;; summary si hp)%M.
Proof.
  intros H. unfold postInstall_desktop.
  change (key darwin_info) with "darwin-universal". by rewrite H.
Qed.

(** The run on darwin when no image that can reach the temp path has the
    expected digest. *)
Lemma postInstall_body_mismatch fuel env packageConfig d w :
  process_platform env = "darwin" ->
  package_json env = Some packageConfig ->
  entry "darwin-universal" (default [] (installer packageConfig)) = Some d ->
  (forall bytes, fs w !! dmgTempPath env = Some (File bytes) -> sha256_tag bytes <> hash d) ->
  (forall location body,
      final_reply fuel env (Some (url d)) = Some (Response 200 location body) ->
      sha256_tag body <> hash d) ->
  (exists why, (postInstall_body fuel env w).1 = Abort why) /\
  changes (fun q => q <> "/Applications/Kaitu.app") not_installer_event
    w (postInstall_body fuel env w).2 /\
  (forall found w1 location body,
      postInstall_prelude fuel env w = (Ret found, w1) ->
      fs w !! dmgTempPath env <> Some Dir ->
      final_reply fuel env (Some (url d)) = Some (Response 200 location body) ->
      (postInstall_body fuel env w).1 =
        Abort (Thrown (HashMismatch (hash d) (sha256_tag body))) /\
      fs (postInstall_body fuel env w).2 !! dmgTempPath env = Some (File body)).
Proof.
  intros Hp Hcfg He Hc Hn. unfold postInstall_body. rewrite bind_run.
  pose proof (postInstall_prelude_darwin fuel env w Hp) as Cp.
  destruct (postInstall_prelude fuel env w) as [[found|why] w1] eqn:EP; simpl in Cp.
  2:{ simpl. split; [by eexists|]. split.
      - eapply changes_weaken; [| |exact Cp]; [by intros q []|done].
      - by intros. }
  apply postInstall_prelude_ret in EP as (pi & cfg & si & -> & Hpi & Hcfg' & _).
  rewrite (getPlatformInfo_darwin _ Hp) in Hpi. injection Hpi as <-.
  rewrite Hcfg in Hcfg'. injection Hcfg' as <-.
  assert (Hdmg : fs w1 !! dmgTempPath env = fs w !! dmgTempPath env).
  { apply Cp. intros [? _]. done. }
  rewrite (postInstall_desktop_mac _ _ _ _ _ _ He). rewrite bind_run.
  destruct (postInstall_mac_mismatch fuel env d (elevated env) w1)
    as ((why & Ho) & Cm & Hex); [by rewrite Hdmg|done|].
  destruct (postInstall_mac fuel env d (elevated env) w1) as [o w2].
  simpl in Ho, Cm, Hex. subst o.
  split; [by eexists|]. split.
  - etrans.
    { eapply changes_weaken; [| |exact Cp]; [by intros q []|done]. }
    eapply changes_weaken; [| |exact Cm].
    + intros q <-. apply dmgTempPath_not_app.
    + intros e He' c b ->. done.
  - intros found w1' loc body [= _ _] Hd Hr.
    apply (Hex loc body); [by rewrite Hdmg|done].
Qed.

(** ** The cached disk image *)

(** With a verified image at the temp path the macOS branch goes straight
    to the install step. *)
Lemma postInstall_mac_cached fuel env d hp w bytes :
  fs w !! dmgTempPath env = Some (File bytes) -> sha256_tag bytes = hash d ->
  postInstall_mac fuel env d hp w =
  (if hp then installDMG env (dmgTempPath env) else deferred_notice (dmgTempPath env))
    (emit (Log "Verification successful")
       (emit (Log "Verifying installer...")
          (emit (Log "Using cached installer...")
             (emit (Log "Installing Kaitu Desktop App...") w)))).
Proof.
  intros E Hh. unfold postInstall_mac. rewrite log_run, bind_run.
  rewrite (postInstall_fetch_cached _ _ _ _ _ bytes); [|by rewrite fs_emit|done].
  rewrite log_run, bind_run.
  rewrite (verifyHash_match _ _ _ bytes); [|by rewrite !fs_emit|done].
  rewrite log_run. by destruct hp.
Qed.

(** With an image at the temp path that does not verify, the macOS branch
    unlinks it, downloads afresh and verifies what it downloaded before the
    install step. *)
Lemma postInstall_mac_stale fuel env d hp w bytes :
  fs w !! dmgTempPath env = Some (File bytes) -> sha256_tag bytes <> hash d ->
  postInstall_mac fuel env d hp w =
  (downloadFile fuel env (Some (url d)) (dmgTempPath env) ;;
   log "Verifying installer..." ;;
   verifyHash (dmgTempPath env) (hash d) ;;
   log "Verification successful" ;;
   if hp then installDMG env (dmgTempPath env) else deferred_notice (dmgTempPath env))%M
    (emit (Unlink (dmgTempPath env))
       (set_fs (delete (dmgTempPath env) (fs w))
          (emit (Log "Cached installer verification failed, re-downloading...")
             (emit (Log "Using cached installer...")
                (emit (Log "Installing Kaitu Desktop App...") w))))).
Proof.
  intros E Hh. unfold postInstall_mac. rewrite log_run.
  rewrite bind_run, (bind_run (downloadFile _ _ _ _)).
  rewrite (postInstall_fetch_stale _ _ _ _ _ bytes); [|by rewrite fs_emit|done].
  rewrite fs_emit.
  destruct (downloadFile _ _ _ _ _) as [[[]|why] w2]; [|done].
  by destruct hp.
Qed.

Lemma installDMG_no_fetch env dmgPath :
  keeps (changes (fun _ => True) no_fetch_event) (installDMG env dmgPath).
Proof.
  unfold installDMG, installDMG_try, installDMG_catch.
  repeat keeps_step; simpl; auto.
Qed.

Lemma summary_logs (touch : string -> Prop) (allowed : event -> Prop) si hp :
  (forall e, is_log e -> allowed e) -> keeps (changes touch allowed) (summary si hp).
Proof. intros Ha. unfold summary. repeat keeps_step; by apply Ha. Qed.

Lemma deferred_notice_logs (touch : string -> Prop) (allowed : event -> Prop) dmgPath :
  (forall e, is_log e -> allowed e) ->
  keeps (changes touch allowed) (deferred_notice dmgPath).
Proof. intros Ha. unfold deferred_notice. repeat keeps_step; by apply Ha. Qed.

(** On darwin, once the first part has returned, the rest of the run is
    the macOS branch followed by the summary. *)
Lemma postInstall_body_darwin fuel env packageConfig d w found w1 :
  process_platform env = "darwin" ->
  package_json env = Some packageConfig ->
  entry "darwin-universal" (default [] (installer packageConfig)) = Some d ->
  postInstall_prelude fuel env w = (Ret found, w1) ->
  exists si,
    found = (darwin_info, elevated env, packageConfig, si) /\
    postInstall_body fuel env w =
    (postInstall_mac fuel env d (elevated env) ;; summary si (elevated env))%M w1.
Proof.
  intros Hp Hcfg He Hpre. unfold postInstall_body. rewrite bind_run, Hpre.
  apply postInstall_prelude_ret in Hpre as (pi & cfg & si & -> & Hpi & Hcfg' & _).
  rewrite (getPlatformInfo_darwin _ Hp) in Hpi. injection Hpi as <-.
  rewrite Hcfg in Hcfg'. injection Hcfg' as <-.
  exists si. split; [done|]. by rewrite (postInstall_desktop_mac _ _ _ _ _ _ He).
Qed.

Lemma postInstall_prelude_keeps_image fuel env w found w1 :
  process_platform env = "darwin" ->
  postInstall_prelude fuel env w = (Ret found, w1) ->
  fs w1 !! dmgTempPath env = fs w !! dmgTempPath env.
Proof.
  intros Hp Hpre. pose proof (postInstall_prelude_darwin fuel env w Hp) as C.
  rewrite Hpre in C. apply C. by intros [? _].
Qed.

(** A run that finds a verified image at the temp path requests nothing
    and opens no file for writing after its first part. *)
Lemma postInstall_cached_no_fetch fuel env packageConfig d w bytes found w1 :
  process_platform env = "darwin" ->
  package_json env = Some packageConfig ->
  entry "darwin-universal" (default [] (installer packageConfig)) = Some d ->
  fs w !! dmgTempPath env = Some (File bytes) ->
  sha256_tag bytes = hash d ->
  postInstall_prelude fuel env w = (Ret found, w1) ->
  changes (fun _ => True) no_fetch_event w1 (postInstall fuel env w).2.
Proof.
  intros Hp Hcfg He E Hh Hpre.
  set (R := changes (fun _ => True) no_fetch_event).
  assert (Hb : R w1 (postInstall_body fuel env w).2).
  { destruct (postInstall_body_darwin fuel env packageConfig d w found w1)
      as (si & _ & ->); try done.
    rewrite bind_run.
    rewrite (postInstall_mac_cached _ _ _ _ _ bytes);
      [|by rewrite (postInstall_prelude_keeps_image fuel env w found w1)|done].
    set (w2 := emit (Log "Verification successful") _).
    assert (C1 : R w1 w2).
    { unfold w2. repeat (etrans; [|by apply changes_emit]). reflexivity. }
    set (X := (if elevated env then installDMG env (dmgTempPath env)
               else deferred_notice (dmgTempPath env)) w2).
    assert (C2 : R w2 X.2).
    { unfold X. destruct (elevated env); [apply installDMG_no_fetch|].
      apply deferred_notice_logs. by intros []. }
    destruct X as [[[]|why] w3]; simpl in C2 |- *.
    - etrans; [exact C1|]. etrans; [exact C2|]. apply summary_logs. by intros [].
    - by etrans. }
  destruct (postInstall_cases fuel env w) as [(err & w2 & Eb & ->)|[_ ->]]; [|done].
  rewrite Eb in Hb. simpl in *. etrans; [exact Hb|].
  apply changes_failure_report. by intros [].
Qed.

(** Whatever happens, a run only adds to the trace. *)
Lemma postInstall_extends fuel env :
  keeps (changes (fun _ => True) (fun _ => True)) (postInstall fuel env).
Proof.
  unfold postInstall, postInstall_body, postInstall_prelude, postInstall_desktop,
    postInstall_mac, postInstall_fetch, installService, checkPrivileges,
    installDMG, installDMG_try, installDMG_catch.
  repeat keeps_step; simpl; auto.
Qed.

(** C10. On darwin a disk image already at the temp path survives the
    first part of the run.  When its digest is the expected one the macOS
    branch reuses it: it goes straight to the install step, and the rest of
    the run requests nothing and opens no file for writing.  When its digest
    is not the expected one the branch unlinks it, downloads the installer
    afresh and verifies the download before the install step, so that a
    command of [installDMG] runs only when the served image has the expected
    digest. *)
Theorem C10_cached_installer fuel env packageConfig d w bytes :
  process_platform env = "darwin" ->
  package_json env = Some packageConfig ->
  entry "darwin-universal" (default [] (installer packageConfig)) = Some d ->
  fs w !! dmgTempPath env = Some (File bytes) ->
  (forall found w1,
      postInstall_prelude fuel env w = (Ret found, w1) ->
      fs w1 !! dmgTempPath env = Some (File bytes)) /\
  (sha256_tag bytes = hash d ->
   (forall hp v,
       fs v !! dmgTempPath env = Some (File bytes) ->
       postInstall_mac fuel env d hp v =
       (if hp then installDMG env (dmgTempPath env)
        else deferred_notice (dmgTempPath env))
         (emit (Log "Verification successful")
            (emit (Log "Verifying installer...")
               (emit (Log "Using cached installer...")
                  (emit (Log "Installing Kaitu Desktop App...") v))))) /\
   (forall found w1,
       postInstall_prelude fuel env w = (Ret found, w1) ->
       exists tr, events (postInstall fuel env w).2 = tr ++ events w1 /\
                  Forall no_fetch_event tr)) /\
  (sha256_tag bytes <> hash d ->
   (forall hp v,
       fs v !! dmgTempPath env = Some (File bytes) ->
       postInstall_mac fuel env d hp v =
       (downloadFile fuel env (Some (url d)) (dmgTempPath env) ;;
        log "Verifying installer..." ;;
        verifyHash (dmgTempPath env) (hash d) ;;
        log "Verification successful" ;;
        if hp then installDMG env (dmgTempPath env)
        else deferred_notice (dmgTempPath env))%M
         (emit (Unlink (dmgTempPath env))
            (set_fs (delete (dmgTempPath env) (fs v))
               (emit (Log "Cached installer verification failed, re-downloading...")
                  (emit (Log "Using cached installer...")
                     (emit (Log "Installing Kaitu Desktop App...") v)))))) /\
   (exists tr, events (postInstall fuel env w).2 = tr ++ events w /\
               forall c b, In (Exec c b) tr -> installer_cmd c ->
                 exists location body,
                   final_reply fuel env (Some (url d)) = Some (Response 200 location body) /\
                   sha256_tag body = hash d)).
Proof.
  intros Hp Hcfg He E. split; [|split].
  - intros found w1 Hpre.
    by rewrite (postInstall_prelude_keeps_image fuel env w found w1).
  - intros Hh. split.
    + intros hp v Ev. by apply (postInstall_mac_cached _ _ _ _ _ bytes).
    + intros found w1 Hpre.
      by destruct (postInstall_cached_no_fetch fuel env packageConfig d w bytes found w1)
        as [_ Htr].
  - intros Hh. split.
    + intros hp v Ev. by apply (postInstall_mac_stale _ _ _ _ _ bytes).
    + assert (Hc : forall bytes', fs w !! dmgTempPath env = Some (File bytes') ->
                                  sha256_tag bytes' <> hash d).
      { intros bytes' E'. rewrite E in E'. by injection E' as <-. }
      destruct (final_reply fuel env (Some (url d))) as [[sc loc body|msg| |]|] eqn:Er.
      1: destruct (decide (sc = 200 /\ sha256_tag body = hash d)) as [[-> Hm]|Hno].
      1:{ destruct (postInstall_extends fuel env w) as [_ (tr & Etr & _)].
          exists tr. split; [done|]. intros c b _ _. by exists loc, body. }
      all: destruct (postInstall_body_mismatch fuel env packageConfig d w Hp Hcfg He Hc)
             as (_ & Cb & _);
             [intros loc' body' Hr' Hm; rewrite Er in Hr';
              first [discriminate|injection Hr' as -> _ ->; by apply Hno]|].
      all: assert (Hlog : forall e, is_log e -> not_installer_event e)
             by (intros e Hl c b ->; destruct Hl).
      all: destruct (postInstall_changes_of_body fuel env w _ _ Hlog Cb)
             as [_ (tr & Etr & Htr)].
      all: exists tr; split; [done|]; intros c b Hin Hic.
      all: rewrite Forall_forall in Htr.
      all: by destruct (Htr (Exec c b) (proj2 (list_elem_of_In _ _) Hin) c b eq_refl).
Qed.

(** ** Runs without privileges *)

Lemma unprivileged_log env e : is_log e -> unprivileged_event env e.
Proof. by destruct e. Qed.

Lemma postInstall_desktop_unprivileged fuel env platformInfo packageConfig si :
  keeps (changes (eq (dmgTempPath env)) (unprivileged_event env))
    (postInstall_desktop fuel env platformInfo false packageConfig si).
Proof.
  unfold postInstall_desktop, postInstall_mac, postInstall_fetch.
  repeat keeps_step; simpl; auto.
  all: intros ev Hev; by destruct ev.
Qed.

Lemma postInstall_unprivileged fuel env :
  elevated env = false ->
  keeps (changes (eq (dmgTempPath env)) (unprivileged_event env)) (postInstall fuel env).
Proof.
  intros Hu w. apply postInstall_changes_of_body; [apply unprivileged_log|].
  revert w. unfold postInstall_body.
  eapply (keeps_bind_post _
            (fun found => exists pi cfg si, found = (pi, false, cfg, si))).
  - intros w. eapply changes_weaken; [| |apply postInstall_prelude_changes].
    + intros q [Ht _]. congruence.
    + intros e [He|[[b ->]|[Ht _]]]; [by apply unprivileged_log|done|congruence].
  - intros w found w1 Hpre.
    apply postInstall_prelude_ret in Hpre as (pi & cfg & si & -> & _).
    rewrite Hu. by exists pi, cfg, si.
  - intros found (pi & cfg & si & ->). apply postInstall_desktop_unprivileged.
Qed.

Lemma isAppInstalled_run env w : exists b, isAppInstalled env w = (Ret b, w).
Proof.
  unfold isAppInstalled.
  destruct (String.eqb (process_platform env) "darwin"); [by eexists|].
  destruct (String.eqb (process_platform env) "win32"); by eexists.
Qed.

(** The status query returns in every world and changes no file. *)
Lemma showStatus_runs env w :
  exists w', showStatus env w = (Ret tt, w') /\ fs w' = fs w.
Proof.
  unfold showStatus. rewrite log_run, bind_run.
  destruct (isAppInstalled_run env (emit (Log "Kaitu Installation Status:") w)) as [b ->].
  rewrite log_run. unfold isServiceInstalled at 1. rewrite bind_run. unfold existsSync at 1.
  rewrite log_run. rewrite bind_run.
  match goal with
  | |- context [isAppInstalled env ?v] => destruct (isAppInstalled_run env v) as [b' ->]
  end.
  rewrite bind_run.
  destruct b'; unfold isServiceInstalled, existsSync, ret; simpl.
  - destruct (negb _); simpl; by eexists.
  - by eexists.
Qed.

(** An unprivileged run on darwin that returns has told the user that the
    desktop install was skipped. *)
Lemma postInstall_unprivileged_notice fuel env packageConfig d w :
  elevated env = false ->
  process_platform env = "darwin" ->
  package_json env = Some packageConfig ->
  entry "darwin-universal" (default [] (installer packageConfig)) = Some d ->
  (postInstall fuel env w).1 = Ret tt ->
  In (Log "Cannot install to /Applications without privileges")
     (events (postInstall fuel env w).2) /\
  exists bytes,
    fs (postInstall fuel env w).2 !! dmgTempPath env = Some (File bytes) /\
    sha256_tag bytes = hash d.
Proof.
  intros Hu Hp Hcfg He Hret.
  destruct (postInstall_cases fuel env w) as [(err & w2 & _ & Ep)|[_ Ep]].
  { by rewrite Ep in Hret. }
  rewrite Ep in Hret |- *.
  destruct (postInstall_body fuel env w) as [o w'] eqn:Eb. simpl in Hret. subst o.
  simpl. unfold postInstall_body in Eb.
  apply bind_ret_inv in Eb as (found & w1 & Hpre & Eb).
  apply postInstall_prelude_ret in Hpre as (pi & cfg & si & -> & Hpi & Hcfg' & _).
  rewrite (getPlatformInfo_darwin _ Hp) in Hpi. injection Hpi as <-.
  rewrite Hcfg in Hcfg'. injection Hcfg' as <-.
  rewrite (postInstall_desktop_mac _ _ _ _ _ _ He), Hu in Eb.
  apply bind_ret_inv in Eb as (u & w2 & Emac & Esum).
  unfold postInstall_mac in Emac.
  apply bind_ret_inv in Emac as (u1 & v1 & E1 & Emac).
  apply bind_ret_inv in Emac as (u2 & v2 & E2 & Emac).
  apply bind_ret_inv in Emac as (u3 & v3 & E3 & Emac).
  apply bind_ret_inv in Emac as (u4 & v4 & E4 & Emac).
  apply bind_ret_inv in Emac as (u5 & v5 & E5 & Emac).
  apply verifyHash_ret_inv in E4 as (-> & bytes & Ef & Hh).
  unfold log, tell in E3, E5. injection E3 as _ <-. injection E5 as _ <-.
  unfold summary, when in Esum. simpl in Emac.
  assert (Hw2 : events w2 =
                  Log "Please open the DMG and drag Kaitu to Applications manually"
                    :: Log ("Downloaded installer to: " +:+ dmgTempPath env)
                    :: Log "Cannot install to /Applications without privileges"
                    :: Log "Verification successful" :: Log "Verifying installer..."
                    :: events v2 /\ fs w2 = fs v2).
  { cbv beta iota delta [bind log tell] in Emac. by injection Emac as _ <-. }
  destruct Hw2 as [Hev Hfs].
  assert (Hs : exists tr, events w' = tr ++ events w2 /\ fs w' = fs w2).
  { cbv beta iota delta [bind log tell ret] in Esum.
    destruct si; injection Esum as <-; simpl; eexists; (split; [|done]).
    - by instantiate (1 := [_; _; _; _]).
    - by instantiate (1 := [_; _; _]). }
  destruct Hs as (tr & Etr & Hfs').
  split.
  - rewrite Etr, Hev. apply in_or_app. right. simpl. auto.
  - exists bytes. by rewrite Hfs', Hfs.
Qed.

(** ** The unmount step of [installDMG] *)

Lemma only_throws_bind {A B} (m : M A) (k : A -> M B) :
  only_throws m -> (forall a, only_throws (k a)) -> only_throws (bind m k).
Proof.
  intros Hm Hk w. rewrite bind_run. specialize (Hm w).
  destruct (m w) as [[a|why] w1]; simpl in *; [apply Hk|done].
Qed.

Lemma only_throws_execSync env c : only_throws (execSync env c).
Proof. intros w. unfold execSync. by destruct (if cmd_fails env c then _ else _). Qed.

Lemma only_throws_when b (m : M unit) : only_throws m -> only_throws (when b m).
Proof. intros Hm. by destruct b. Qed.

Lemma only_throws_readdirSync p : only_throws (readdirSync p).
Proof. intros w. unfold readdirSync. by destruct (fs w !! p) as [[?|]|]. Qed.

Ltac only_throws_step :=
  lazymatch goal with
  | |- only_throws (bind _ _) => apply only_throws_bind; [|intros ?]
  | |- only_throws (when _ _) => apply only_throws_when
  | |- only_throws (execSync _ _) => apply only_throws_execSync
  | |- only_throws (readdirSync _) => apply only_throws_readdirSync
  | |- only_throws (match ?x with _ => _ end) => destruct x
  | |- only_throws _ => by intros ?
  end.


(** ** SHA-256 test vectors *)

Example sha256_round_constants :
  List.nth 0 Sha256.K 0%Z = 0x428a2f98%Z /\ List.nth 63 Sha256.K 0%Z = 0xc67178f2%Z /\
  List.nth 0 Sha256.H0 0%Z = 0x6a09e667%Z /\ List.nth 7 Sha256.H0 0%Z = 0x5be0cd19%Z.
Proof. vm_compute. done. Qed.

Example sha256_empty :
  Sha256.sha256_hex [] =
  "e3b0c44298fc1c149afbf4c8996fb92427ae41e4649b934ca495991b7852b855".
Proof. vm_compute. reflexivity. Qed.

Example sha256_abc_vector : sha256_tag Scenario.abc = Scenario.abc_tag.
Proof. vm_compute. reflexivity. Qed.

(** ** The claims *)




(** ** [verifyHash] *)

Lemma lower_ascii_hex_digit d :
  (0 <= d < 16)%Z -> lower_ascii (Sha256.hex_digit d) = Sha256.hex_digit d.
Proof.
  intros Hd.
  assert (H : (d = 0 \/ d = 1 \/ d = 2 \/ d = 3 \/ d = 4 \/ d = 5 \/ d = 6 \/ d = 7 \/
               d = 8 \/ d = 9 \/ d = 10 \/ d = 11 \/ d = 12 \/ d = 13 \/ d = 14 \/
               d = 15)%Z) by lia.
  repeat (destruct H as [->|H]; [reflexivity|]). by subst.
Qed.

Lemma lower_app a b : lower (a +:+ b) = lower a +:+ lower b.
Proof. induction a as [|c a IH]; simpl; [done|]. by rewrite IH. Qed.

Lemma lower_hex_of n x : lower (Sha256.hex_of n x) = Sha256.hex_of n x.
Proof.
  induction n as [|n IH]; simpl; [done|].
  rewrite IH, lower_ascii_hex_digit; [done|].
  change 15%Z with (Z.ones 4). rewrite Z.land_ones by lia.
  apply Z.mod_pos_bound. lia.
Qed.

Lemma lower_hex_of_words ws :
  lower (Sha256.hex_of_words ws) = Sha256.hex_of_words ws.
Proof.
  induction ws as [|x ws IH]; [done|].
  change (Sha256.hex_of_words (x :: ws))
    with (Sha256.hex_of 8 x +:+ Sha256.hex_of_words ws).
  by rewrite lower_app, lower_hex_of, IH.
Qed.

(** The digest [verifyHash] computes is already in lower case. *)
Lemma lower_sha256_tag bytes : lower (sha256_tag bytes) = sha256_tag bytes.
Proof.
  unfold sha256_tag. rewrite lower_app. f_equal. apply lower_hex_of_words.
Qed.

(** C3, as amended. [verifyHash] succeeds exactly when the file is there
    and the expected string is, character for character, ["sha256:"]
    followed by the lower-case hexadecimal digest of the file.  The
    expected string is not normalized: one whose normal form is the right
    digest, but which is not itself that digest, is rejected with the hash
    mismatch error. *)
Theorem C3_verifyHash_exact_match w filePath expectedHash :
  ((verifyHash filePath expectedHash w).1 = Ret true <->
   exists bytes, fs w !! filePath = Some (File bytes) /\ expectedHash = sha256_tag bytes) /\
  (forall bytes,
      fs w !! filePath = Some (File bytes) ->
      lower (sha256_tag bytes) = sha256_tag bytes /\
      (expectedHash <> sha256_tag bytes ->
       (verifyHash filePath expectedHash w).1 =
       Abort (Thrown (HashMismatch expectedHash (sha256_tag bytes))))) /\
  (verifyHash filePath expectedHash w).2 = w.
Proof.
  unfold verifyHash. fold (sha256_tag).
  destruct (fs w !! filePath) as [[bytes|]|] eqn:E.
  - fold (sha256_tag bytes).
    destruct (String.eqb (sha256_tag bytes) expectedHash) eqn:Eq; simpl.
    + apply String.eqb_eq in Eq. subst expectedHash.
      split; [|split; [|done]].
      * split; [|done]. intros _. by exists bytes.
      * intros ? [= <-]. split; [apply lower_sha256_tag|done].
    + apply String.eqb_neq in Eq.
      split; [|split; [|done]].
      * split; [done|]. intros (b & [= <-] & ->). done.
      * intros ? [= <-]. split; [apply lower_sha256_tag|done].
  - simpl. split; [|split; [|done]].
    + split; [done|]. by intros (b & [=] & _).
    + by intros ? [=].
  - simpl. split; [|split; [|done]].
    + split; [done|]. by intros (b & [=] & _).
    + by intros ? [=].
Qed.

Lemma C3_witness :
  (verifyHash "/tmp/kaitu-installer.dmg" Scenario.abc_tag
     (Scenario.with_cached Scenario.abc)).1 = Ret true.
Proof.
  apply (proj1 (C3_verifyHash_exact_match (Scenario.with_cached Scenario.abc)
                  "/tmp/kaitu-installer.dmg" Scenario.abc_tag)).
  exists Scenario.abc. split; vm_compute; reflexivity.
Defined.

(** C3 as stated fails: the expected digest of the empty file written in
    upper case denotes the right digest after normalization, and
    [verifyHash] rejects it. *)
Lemma C3_uppercase_digest_rejected :
  fs (Scenario.with_cached []) !! "/tmp/kaitu-installer.dmg" = Some (File []) /\
  spec_normalize_digest Scenario.empty_tag_upper = sha256_tag [] /\
  (verifyHash "/tmp/kaitu-installer.dmg" Scenario.empty_tag_upper
     (Scenario.with_cached [])).1 <> Ret true.
Proof. vm_compute. repeat split; discriminate. Qed.

(** ** [getPlatformInfo] *)








(** ** index.js *)

(** C9. On linux [isAppInstalled] answers false whatever the file system
    holds, so [start], [launch] and [open] report that the app is not
    installed and end the process with code 1 before [launchApp] runs. *)
Theorem C9_linux_never_installed fuel env postinstallPath command rest w :
  process_platform env = "linux" ->
  In command ["start"; "launch"; "open"] ->
  isAppInstalled env w = (Ret false, w) /\
  (main fuel env postinstallPath (command :: rest) w).1 = Abort (Exited 1) /\
  events (main fuel env postinstallPath (command :: rest) w).2 =
    Log "Please run: sudo npm install -g kaitu"
      :: LogErr "Kaitu app is not installed" :: events w /\
  fs (main fuel env postinstallPath (command :: rest) w).2 = fs w.
Proof.
  intros Hp Hc. unfold main, isAppInstalled. rewrite Hp.
  simpl in Hc. destruct Hc as [<-|[<-|[<-|[]]]]; done.
Qed.

Lemma C9_witness :
  (main 3 Scenario.linux "/opt/kaitu/postinstall.js" ["start"] Scenario.with_app).1 =
  Abort (Exited 1).
Proof.
  apply (C9_linux_never_installed 3 Scenario.linux "/opt/kaitu/postinstall.js"
           "start" [] Scenario.with_app).
  - reflexivity.
  - simpl. auto.
Defined.

(** ** Staged files *)

Lemma postInstall_mismatch_keeps_image fuel env packageConfig d w found w1 location body :
  process_platform env = "darwin" ->
  package_json env = Some packageConfig ->
  entry "darwin-universal" (default [] (installer packageConfig)) = Some d ->
  (forall bytes, fs w !! dmgTempPath env = Some (File bytes) -> sha256_tag bytes <> hash d) ->
  postInstall_prelude fuel env w = (Ret found, w1) ->
  fs w !! dmgTempPath env <> Some Dir ->
  final_reply fuel env (Some (url d)) = Some (Response 200 location body) ->
  sha256_tag body <> hash d ->
  (postInstall fuel env w).1 = Abort (Exited 1) /\
  fs (postInstall fuel env w).2 !! dmgTempPath env = Some (File body).
Proof.
  intros Hp Hcfg He Hc Hpre Hd Hr Hne.
  destruct (postInstall_body_mismatch fuel env packageConfig d w Hp Hcfg He Hc)
    as (_ & _ & Hex).
  { intros loc' body' Hr'. rewrite Hr in Hr'. by injection Hr' as _ <-. }
  destruct (Hex found w1 location body Hpre Hd Hr) as [Ho Hf].
  destruct (postInstall_cases fuel env w) as [(err & w2 & Eb & ->)|[Hnt _]].
  - rewrite Eb in Hf. done.
  - by destruct (Hnt _ Ho).
Qed.

(** C7, as amended. A staged download is deleted when its install step
    succeeds: [installDMG] that returns has unlinked the disk image, and
    [installService] that returns true has unlinked the service binary's
    temp file.  A failed attempt does not delete it: after a digest mismatch
    of the fetched disk image the run exits with code 1 and the image is
    still at its temp path. *)
Theorem C7_staged_file_deleted_on_success_only fuel env :
  (forall dmgPath w,
      (installDMG env dmgPath w).1 = Ret tt ->
      fs (installDMG env dmgPath w).2 !! dmgPath = None) /\
  (forall platformInfo packageConfig w,
      (installService fuel env platformInfo packageConfig w).1 = Ret true ->
      fs (installService fuel env platformInfo packageConfig w).2
        !! serviceTempPath env platformInfo = None) /\
  (forall packageConfig d w found w1 location body,
      process_platform env = "darwin" ->
      package_json env = Some packageConfig ->
      entry "darwin-universal" (default [] (installer packageConfig)) = Some d ->
      fs w !! dmgTempPath env = None ->
      postInstall_prelude fuel env w = (Ret found, w1) ->
      final_reply fuel env (Some (url d)) = Some (Response 200 location body) ->
      sha256_tag body <> hash d ->
      (postInstall fuel env w).1 = Abort (Exited 1) /\
      fs (postInstall fuel env w).2 !! dmgTempPath env = Some (File body)).
Proof.
  split; [|split].
  - intros dmgPath w H.
    destruct (installDMG env dmgPath w) as [o w'] eqn:E. simpl in *. subst o.
    by eapply installDMG_ret_unlinks.
  - intros platformInfo packageConfig w H.
    destruct (installService fuel env platformInfo packageConfig w) as [o w'] eqn:E.
    simpl in *. subst o. by eapply installService_ret_unlinks.
  - intros packageConfig d w found w1 location body Hp Hcfg He Hnone Hpre Hr Hne.
    eapply postInstall_mismatch_keeps_image; try done.
    + intros bytes Hb. by rewrite Hnone in Hb.
    + by rewrite Hnone.
Qed.

(** C7 as stated fails: after a digest mismatch the run exits with code 1
    and both staged files are still on disk. *)
Lemma C7_mismatch_leaves_staged_files :
  (postInstall 3 (Scenario.mac Scenario.volume Scenario.wrong_tag true false)
     Scenario.fresh).1 = Abort (Exited 1) /\
  fs (postInstall 3 (Scenario.mac Scenario.volume Scenario.wrong_tag true false)
        Scenario.fresh).2 !! "/tmp/kaitu-installer.dmg" = Some (File Scenario.abc) /\
  fs (postInstall 3 (Scenario.mac Scenario.volume Scenario.wrong_tag true false)
        Scenario.fresh).2 !! "/tmp/kaitu-service-darwin-universal" = Some (File []).
Proof. vm_compute. done. Qed.

(** ** The cached disk image *)

Lemma C10_witness :
  fs (postInstall_prelude 3 (Scenario.mac Scenario.volume Scenario.abc_tag true false)
        (Scenario.with_cached Scenario.abc)).2 !! "/tmp/kaitu-installer.dmg" =
  Some (File Scenario.abc).
Proof.
  destruct (C10_cached_installer 3
              (Scenario.mac Scenario.volume Scenario.abc_tag true false)
              (Scenario.manifest Scenario.abc_tag)
              {| url := Scenario.dmg_url; hash := Scenario.abc_tag |}
              (Scenario.with_cached Scenario.abc) Scenario.abc)
    as (Hkeep & _ & _).
  - reflexivity.
  - reflexivity.
  - reflexivity.
  - vm_compute. reflexivity.
  - destruct (postInstall_prelude 3 _ _) as [[found|why] w1] eqn:E.
    + exact (Hkeep found w1 eq_refl).
    + vm_compute in E. discriminate.
Defined.

(** ** Runs without privileges *)

(** C8. When [checkPrivileges] answers false, the run writes no path but
    the temp path of the disk image and runs no command (but the Windows
    privilege probe itself): the service install is skipped and the desktop
    install stops after download and verification.  A run on darwin that
    returns has logged that the install was skipped and has left the
    verified image at the temp path.  The status query still returns. *)
Theorem C8_unprivileged_run fuel env w :
  (checkPrivileges env w).1 = Ret false ->
  (forall q, q <> dmgTempPath env ->
             fs (postInstall fuel env w).2 !! q = fs w !! q) /\
  (exists tr, events (postInstall fuel env w).2 = tr ++ events w /\
              Forall (unprivileged_event env) tr) /\
  (forall packageConfig d,
      process_platform env = "darwin" ->
      package_json env = Some packageConfig ->
      entry "darwin-universal" (default [] (installer packageConfig)) = Some d ->
      (postInstall fuel env w).1 = Ret tt ->
      In (Log "Cannot install to /Applications without privileges")
         (events (postInstall fuel env w).2) /\
      exists bytes,
        fs (postInstall fuel env w).2 !! dmgTempPath env = Some (File bytes) /\
        sha256_tag bytes = hash d) /\
  (exists w', showStatus env (postInstall fuel env w).2 = (Ret tt, w') /\
              fs w' = fs (postInstall fuel env w).2).
Proof.
  intros Hpriv.
  assert (Hu : elevated env = false).
  { destruct (checkPrivileges_run env w) as [Hv _]. rewrite Hv in Hpriv.
    by injection Hpriv. }
  destruct (postInstall_unprivileged fuel env Hu w) as [Hframe Htrace].
  split; [|split; [done|split]].
  - intros q Hq. apply Hframe. congruence.
  - intros packageConfig d Hp Hcfg He Hret.
    by apply (postInstall_unprivileged_notice fuel env packageConfig d w).
  - apply showStatus_runs.
Qed.

Lemma C8_witness :
  (postInstall 3 (Scenario.mac Scenario.volume Scenario.abc_tag false false)
     Scenario.fresh).1 = Ret tt /\
  fs (postInstall 3 (Scenario.mac Scenario.volume Scenario.abc_tag false false)
        Scenario.fresh).2 !! "/Applications/Kaitu.app" = None /\
  fs (postInstall 3 (Scenario.mac Scenario.volume Scenario.abc_tag false false)
        Scenario.fresh).2 !! "/usr/local/bin/kaitu-service" = None.
Proof.
  destruct (C8_unprivileged_run 3
              (Scenario.mac Scenario.volume Scenario.abc_tag false false)
              Scenario.fresh) as (Hframe & _).
  - reflexivity.
  - split; [vm_compute; reflexivity|]. split.
    + rewrite Hframe; [reflexivity|]. vm_compute. discriminate.
    + rewrite Hframe; [reflexivity|]. vm_compute. discriminate.
Defined.

(** * Further properties of the code *)

(** ** [downloadFile] *)

Lemma final_reply_more_fuel n k env u r :
  final_reply n env u = Some r -> final_reply (n + k) env u = Some r.
Proof.
  revert u. induction n as [|n IH]; intros u; simpl; [done|].
  destruct (request env u) as [sc loc body|msg| |]; try done.
  destruct (is_redirect sc); [apply IH|done].
Qed.

Lemma downloadFile_more_fuel n k env u dest w r :
  final_reply n env u = Some r ->
  downloadFile (n + k) env u dest w = downloadFile n env u dest w.
Proof.
  revert u w. induction n as [|n IH]; intros u w; simpl; [done|].
  intros Hr. rewrite !log_run, !bind_run.
  destruct (createWriteStream dest _) as [[[]|why] w1]; [|done].
  rewrite !bind_run. unfold https_get.
  destruct (request env u) as [sc loc body|msg| |]; try done.
  unfold is_redirect in Hr.
  destruct ((sc =? 302)%nat || (sc =? 301)%nat); [|done].
  rewrite !bind_run. destruct (existsSync dest _) as [[b|why] w2]; [|done].
  rewrite !bind_run. destruct (when b (unlinkSync dest) w2) as [[[]|why] w3]; [|done].
  by apply IH.
Qed.

(** The redirect budget of the model is no part of the result: once the
    chain of requests ends within the budget, a download with any larger
    budget is the same run, and when the chain ends with an answer it is
    not the run that exhausts the budget. *)
Lemma downloadFile_budget_irrelevant n k env u dest w r :
  final_reply n env u = Some r ->
  r <> Unanswered ->
  fs w !! dest <> Some Dir ->
  downloadFile (n + k) env u dest w = downloadFile n env u dest w /\
  (downloadFile n env u dest w).1 <> Abort OutOfFuel.
Proof.
  intros Hr Hu Hd. split; [by apply (downloadFile_more_fuel _ _ _ _ _ _ r)|].
  destruct (downloadFile_final n env u dest w Hd) as [Ho _].
  rewrite Ho, Hr. destruct r as [sc loc body|msg| |]; simpl; try done.
  by destruct (sc =? 200)%nat.
Qed.

(** Redirects are followed without a limit: against a URL that redirects
    to itself no budget is enough, so the promise never settles. *)
Theorem downloadFile_redirect_loop_never_settles fuel env u dest w statusCode body :
  request env (Some u) = Response statusCode (Some u) body ->
  is_redirect statusCode = true ->
  fs w !! dest <> Some Dir ->
  (downloadFile fuel env (Some u) dest w).1 = Abort OutOfFuel.
Proof.
  intros Hr Hred Hd.
  destruct (downloadFile_final fuel env (Some u) dest w Hd) as [-> _].
  enough (final_reply fuel env (Some u) = None) as -> by done.
  clear Hd. simpl in Hr. induction fuel as [|fuel IH]; simpl; [done|].
  by rewrite Hr, Hred.
Qed.



(** A download writes no path but its destination, runs no command and
    starts no process: its events are log lines, requests, and the opening
    and unlinking of the destination. *)
Theorem downloadFile_touches_only_destination fuel env u dest w :
  (forall q, q <> dest ->
             fs (downloadFile fuel env u dest w).2 !! q = fs w !! q) /\
  (exists tr, events (downloadFile fuel env u dest w).2 = tr ++ events w /\
              Forall (download_event dest) tr).
Proof.
  destruct (downloadFile_changes fuel env u dest (eq dest) (download_event dest)
              eq_refl (fun e H => H) w) as [Hf Ht].
  split; [|done]. intros q Hq. apply Hf. congruence.
Qed.

Lemma downloadFile_redirect_loop_never_settles_witness :
  (downloadFile 9
     {| process_platform := "darwin"; process_arch := "arm64"; tmpdir := "/tmp";
        ProgramFiles := None; LOCALAPPDATA := None; package_json := None;
        net := fun _ => Response 301 (Some "https://x/loop") [];
        access_W_OK := fun _ => true; dmg_volume := fun _ => None;
        cmd_fails := fun _ => false;
        spawn_result := fun _ _ => ChildExit None None |}
     (Some "https://x/loop") "/tmp/kaitu-installer.dmg" Scenario.fresh).1 =
  Abort OutOfFuel.
Proof.
  refine (downloadFile_redirect_loop_never_settles 9 _ "https://x/loop"
            "/tmp/kaitu-installer.dmg" Scenario.fresh 301 [] _ _ _).
  - reflexivity.
  - reflexivity.
  - vm_compute. discriminate.
Defined.

(** ** [installDMG] *)

Lemma only_throws_unlinkSync p : only_throws (unlinkSync p).
Proof. intros w. unfold unlinkSync. by destruct (fs w !! p) as [[?|]|]. Qed.

Lemma installDMG_try_only_throws env dmgPath : only_throws (installDMG_try env dmgPath).
Proof.
  unfold installDMG_try.
  repeat first [apply only_throws_unlinkSync|only_throws_step].
Qed.

(** What the [catch] block of [installDMG] does with an error. *)
Lemma installDMG_catch_events env err w :
  exists b,
    (installDMG_catch env err w).1 = Abort (Thrown err) /\
    events (installDMG_catch env err w).2 =
      Exec (HdiutilDetach (mountPoint env)) b
        :: LogErr ("Installation failed: " +:+ message err) :: events w.
Proof.
  unfold installDMG_catch. fold (mountPoint env).
  rewrite bind_run. unfold logErr. rewrite tell_run, bind_run.
  set (w1 := emit (LogErr _) w). unfold try_catch.
  destruct (execSync_cases env (HdiutilDetach (mountPoint env)) w1)
    as [(w0 & E & ->)| ->].
  - exists true. split; [done|]. unfold throw, stop. cbn [snd events emit].
    by rewrite (cmd_sem_events _ _ _ _ E).
  - by exists false.
Qed.

Lemma installDMG_try_extends env dmgPath :
  keeps (changes (fun _ => True) (fun _ => True)) (installDMG_try env dmgPath).
Proof. unfold installDMG_try. repeat keeps_step; simpl; auto. Qed.

(** [installDMG] ends by returning or by throwing, never otherwise.  When
    it throws, the error is the one its [try] block raised, and the last two
    things it did were to report that error and to attempt the unmount:
    no failure leaves without the unmount having been tried. *)
Theorem installDMG_failure_reported_then_unmounted env dmgPath w :
  throws_only (installDMG env dmgPath w).1 /\
  forall err,
    (installDMG env dmgPath w).1 = Abort (Thrown err) ->
    (installDMG_try env dmgPath (emit (Log "Installing Kaitu app from DMG...") w)).1 =
      Abort (Thrown err) /\
    exists b tr,
      events (installDMG env dmgPath w).2 =
        Exec (HdiutilDetach (mountPoint env)) b
          :: LogErr ("Installation failed: " +:+ message err)
          :: tr ++ events w.
Proof.
  unfold installDMG. rewrite log_run. unfold try_catch.
  set (w1 := emit _ w).
  pose proof (installDMG_try_only_throws env dmgPath w1) as Ht.
  destruct (installDMG_try_extends env dmgPath w1) as [_ (tr & Etr & _)].
  destruct (installDMG_try env dmgPath w1) as [[[]|[e| | | |]] w2]; simpl in *; try done.
  destruct (installDMG_catch_events env e w2) as (b & Ho & Ev).
  rewrite Ho. split; [done|]. intros err [= <-]. split; [done|].
  exists b, (tr ++ [Log "Installing Kaitu app from DMG..."]).
  by rewrite Ev, Etr, <- app_assoc.
Qed.


(** ** Trees of the file system *)

Lemma strip_prefix_app p r : strip_prefix p (p +:+ r) = Some r.
Proof. induction p as [|c p IH]; simpl; [done|]. by rewrite Ascii.eqb_refl. Qed.

Lemma strip_prefix_Some p k r : strip_prefix p k = Some r -> k = p +:+ r.
Proof.
  revert k. induction p as [|c p IH]; intros k; simpl.
  - by intros [= ->].
  - destruct k as [|c' k]; [done|].
    destruct (Ascii.eqb c c') eqn:E; [|done].
    apply Ascii.eqb_eq in E as ->. intros H. by rewrite (IH _ H).
Qed.

Lemma app_empty_r s : s +:+ "" = s.
Proof.
  induction s as [|c s IH]; [done|].
  change (String c (s +:+ "") = String c s). by rewrite IH.
Qed.

Lemma app_assoc_string a b c : (a +:+ b) +:+ c = a +:+ (b +:+ c).
Proof.
  induction a as [|x a IH]; [done|].
  change (String x ((a +:+ b) +:+ c) = String x (a +:+ (b +:+ c))). by rewrite IH.
Qed.

Lemma under_refl p : under p p = true.
Proof.
  unfold under. pose proof (strip_prefix_app p "") as H.
  rewrite app_empty_r in H. by rewrite H.
Qed.

Lemma under_child p r : under p (p +:+ "/" +:+ r) = true.
Proof. unfold under. by rewrite strip_prefix_app. Qed.

Lemma length_app_string a b :
  String.length (a +:+ b) = (String.length a + String.length b)%nat.
Proof.
  induction a as [|c a IH]; [done|].
  change (S (String.length (a +:+ b)) = S (String.length a + String.length b)).
  by rewrite IH.
Qed.

Lemma app_cons_neq s c r : s <> s +:+ String c r.
Proof.
  intros H. apply (f_equal String.length) in H.
  rewrite length_app_string in H. simpl in H. lia.
Qed.

Lemma rm_tree_lookup_None p m q : m !! q = None -> rm_tree p m !! q = None.
Proof. intros H. unfold rm_tree. apply map_lookup_filter_None. by left. Qed.

Lemma rm_tree_lookup_under p m q : under p q = true -> rm_tree p m !! q = None.
Proof.
  intros H. unfold rm_tree. apply map_lookup_filter_None. right.
  intros x _. cbn [fst]. rewrite H. by intros [].
Qed.

Lemma rm_tree_lookup_outside p m q : under p q = false -> rm_tree p m !! q = m !! q.
Proof.
  intros H. unfold rm_tree. destruct (m !! q) as [x|] eqn:E.
  - apply map_lookup_filter_Some. split; [done|]. cbn [fst]. by rewrite H.
  - apply map_lookup_filter_None. by left.
Qed.

#[local] Instance mount_key_inj mp : Inj (=) (=) (fun r => mp +:+ "/" +:+ r).
Proof.
  intros a b H. apply (inj (String.app mp)) in H. by injection H.
Qed.

(** What is visible under the mount point after [hdiutil attach] is the
    volume of the image. *)
Lemma attach_lookup env dmg mp w w1 :
  cmd_sem env (HdiutilAttach dmg mp) w = Some w1 ->
  exists bytes vol,
    fs w !! dmg = Some (File bytes) /\
    dmg_volume env bytes = Some vol /\
    (forall r, fs w1 !! (mp +:+ "/" +:+ r) = vol !! r) /\
    fs w1 !! mp = Some Dir.
Proof.
  simpl. destruct (fs w !! dmg) as [[bytes|]|] eqn:E; try done.
  destruct (dmg_volume env bytes) as [vol|] eqn:Ev; [|done].
  intros [= <-]. exists bytes, vol. split; [done|]. split; [done|]. simpl. split.
  - intros r. rewrite lookup_union.
    rewrite (lookup_kmap (fun r => mp +:+ "/" +:+ r)).
    rewrite lookup_insert_ne by apply (app_cons_neq mp "/"%char r).
    rewrite rm_tree_lookup_under by apply under_child.
    by destruct (vol !! r).
  - rewrite lookup_union.
    assert (H : (kmap (fun r => mp +:+ "/" +:+ r) vol : gmap string node) !! mp = None).
    { apply (lookup_kmap_None (fun r => mp +:+ "/" +:+ r)). intros r Hr.
      exfalso. apply (app_cons_neq mp "/"%char r). exact Hr. }
    rewrite H, lookup_insert_eq. done.
Qed.

Lemma prefix_app sub rest : String.prefix sub (sub +:+ rest) = true.
Proof.
  induction sub as [|c sub IH]; [by destruct rest|].
  change (String.prefix (String c sub) (String c (sub +:+ rest)) = true).
  simpl. destruct (ascii_dec c c); [done|congruence].
Qed.

Lemma contains_prefix sub s : String.prefix sub s = true -> contains sub s = true.
Proof. intros H. destruct s; cbn [contains]; by rewrite H. Qed.

Lemma contains_app sub x rest : contains sub (x +:+ sub +:+ rest) = true.
Proof.
  induction x as [|c x IH].
  - change (contains sub (sub +:+ rest) = true). apply contains_prefix, prefix_app.
  - change (contains sub (String c (x +:+ sub +:+ rest)) = true).
    cbn [contains]. rewrite IH. apply orb_true_r.
Qed.

(** The mount point is not an ancestor of the installed bundle. *)
Lemma bundle_outside_mountPoint env :
  under (mountPoint env) "/Applications/Kaitu.app" = false.
Proof.
  destruct (under (mountPoint env) "/Applications/Kaitu.app") eqn:E; [|done].
  unfold under in E.
  destruct (strip_prefix (mountPoint env) "/Applications/Kaitu.app") as [rest|] eqn:Es;
    [|done].
  apply strip_prefix_Some in Es.
  assert (H : contains "kaitu-mount" "/Applications/Kaitu.app" = true).
  { rewrite Es at 1. unfold mountPoint. rewrite path_join_pair.
    destruct (tmpdir env) as [|c t].
    - apply (contains_app "kaitu-mount" "" rest).
    - rewrite !app_assoc_string.
      pose proof (contains_app "kaitu-mount" (String c t +:+ sep env) rest) as H.
      by rewrite !app_assoc_string in H. }
  vm_compute in H. discriminate.
Qed.

(** After [cp -R] has run, something is at its destination. *)
Lemma cpR_destination_exists env src dst w w' :
  cmd_sem env (CpR src dst) w = Some w' -> is_Some (fs w' !! dst).
Proof.
  simpl. destruct (fs w !! src) as [n|] eqn:Es; [|done].
  assert (Hc : forall t, t = dst \/ is_Some (fs w !! dst) ->
                         is_Some (copy_tree src t (fs w) !! dst)).
  { intros t Ht. unfold copy_tree. apply lookup_union_is_Some.
    destruct Ht as [->|Ht]; [left|by right].
    unfold kmap. destruct (list_to_map _ !! dst) as [x|] eqn:El; [by eexists|].
    apply not_elem_of_list_to_map_2 in El. destruct El.
    apply list_elem_of_fmap. exists (dst, n). split; [done|].
    apply list_elem_of_fmap. exists (src, n). split.
    - unfold prod_map, rebase. simpl. pose proof (strip_prefix_app src "") as H.
      rewrite app_empty_r in H. by rewrite H, app_empty_r.
    - apply elem_of_map_to_list. apply map_lookup_filter_Some.
      split; [done|]. cbn [fst]. by rewrite under_refl. }
  unfold cp_target.
  destruct n, (fs w !! dst) as [[?|]|] eqn:Ed; intros [= <-]; simpl; apply Hc; eauto.
Qed.

(** ** What [installDMG] leaves behind *)

Lemma execSync_ret_inv env c w a w' :
  execSync env c w = (Ret a, w') ->
  exists w0, cmd_sem env c w = Some w0 /\ w' = emit (Exec c true) w0.
Proof.
  intros H. destruct (execSync_cases env c w) as [(w0 & E & R)|R];
    rewrite R in H; [|done].
  exists w0. split; [done|]. by injection H as <-.
Qed.

Lemma detach_fs env mp w w' :
  cmd_sem env (HdiutilDetach mp) w = Some w' -> fs w' = rm_tree mp (fs w).
Proof. simpl. destruct (fs w !! mp); [|done]. by intros [= <-]. Qed.

Lemma rm_tree_lookup_cases p m q : rm_tree p m !! q = None \/ rm_tree p m !! q = m !! q.
Proof.
  destruct (under p q) eqn:E.
  - left. by apply rm_tree_lookup_under.
  - right. by apply rm_tree_lookup_outside.
Qed.

(** The [catch] block of [installDMG] never returns. *)
Lemma installDMG_ret_inv env dmgPath w w' :
  installDMG env dmgPath w = (Ret tt, w') ->
  installDMG_try env dmgPath (emit (Log "Installing Kaitu app from DMG...") w) = (Ret tt, w').
Proof.
  unfold installDMG. rewrite log_run. intros H.
  apply try_catch_ret_inv in H as [H|(e & w2 & _ & H)]; [done|].
  destruct (installDMG_catch_events env e w2) as (b & Ho & _).
  rewrite H in Ho. discriminate.
Qed.

Lemma installDMG_try_ret_installed env dmgPath w w' :
  dmgPath <> "/Applications/Kaitu.app" ->
  installDMG_try env dmgPath w = (Ret tt, w') ->
  is_Some (fs w' !! "/Applications/Kaitu.app") /\
  fs w' !! dmgPath = None /\
  fs w' !! mountPoint env = None.
Proof.
  intros Hne H. unfold installDMG_try in H. fold (mountPoint env) in H.
  inv_run H.
  repeat match goal with
         | U : unlinkSync _ _ = _ |- _ => apply unlinkSync_ret_inv in U
         | U : execSync _ (CpR _ _) _ = _ |- _ =>
             apply execSync_ret_inv in U as (? & ?%cpR_destination_exists & ?)
         | U : execSync _ (HdiutilDetach _) _ = _ |- _ =>
             apply execSync_ret_inv in U as (? & ?%detach_fs & ?)
         end.
  unfold log, tell in *. simplify_eq. cbn [fs emit set_fs].
  match goal with D : fs _ = rm_tree _ _ |- _ => rewrite D end.
  split; [|split].
  - rewrite lookup_delete_ne by done.
    rewrite rm_tree_lookup_outside by apply bundle_outside_mountPoint. done.
  - apply lookup_delete_eq.
  - destruct (decide (dmgPath = mountPoint env)) as [->|Hd].
    + apply lookup_delete_eq.
    + rewrite lookup_delete_ne by done. apply rm_tree_lookup_under, under_refl.
Qed.

(** When [installDMG] returns, something is at [/Applications/Kaitu.app]
    and the disk image is deleted; asked afterwards on darwin,
    [isAppInstalled] answers true. *)
Theorem installDMG_returns_installed env dmgPath w :
  dmgPath <> "/Applications/Kaitu.app" ->
  (installDMG env dmgPath w).1 = Ret tt ->
  is_Some (fs (installDMG env dmgPath w).2 !! "/Applications/Kaitu.app") /\
  fs (installDMG env dmgPath w).2 !! dmgPath = None /\
  (process_platform env = "darwin" ->
   (isAppInstalled env (installDMG env dmgPath w).2).1 = Ret true).
Proof.
  intros Hne Hr.
  destruct (installDMG env dmgPath w) as [o w'] eqn:E. simpl in *. subst o.
  apply installDMG_ret_inv in E.
  destruct (installDMG_try_ret_installed env dmgPath _ w' Hne E) as ([n Hn] & Hd & Hm).
  split; [by exists n|]. split; [done|].
  intros Hp. unfold isAppInstalled, existsSync. rewrite Hp. simpl. by rewrite Hn.
Qed.

Lemma installDMG_returns_installed_witness :
  is_Some (fs (installDMG (Scenario.mac Scenario.volume Scenario.abc_tag true false)
                 "/tmp/kaitu-installer.dmg" (Scenario.with_cached Scenario.abc)).2
             !! "/Applications/Kaitu.app").
Proof.
  refine (proj1 (installDMG_returns_installed
                   (Scenario.mac Scenario.volume Scenario.abc_tag true false)
                   "/tmp/kaitu-installer.dmg" (Scenario.with_cached Scenario.abc) _ _)).
  - discriminate.
  - vm_compute. reflexivity.
Defined.

(** ** [installDMG] on an image without [Kaitu.app] *)

Lemma sep_darwin env : process_platform env = "darwin" -> sep env = "/".
Proof. intros H. unfold sep. by rewrite H. Qed.

Lemma mountPoint_nonempty env : exists c r, mountPoint env = String c r.
Proof.
  unfold mountPoint. rewrite path_join_pair.
  destruct (tmpdir env) as [|c t]; [by eexists _, _|].
  exists c, (t +:+ sep env +:+ "kaitu-mount"). done.
Qed.

Lemma mountedApp_darwin env :
  process_platform env = "darwin" ->
  mountedApp env = mountPoint env +:+ "/" +:+ "Kaitu.app".
Proof.
  intros H. unfold mountedApp. rewrite path_join_pair, (sep_darwin _ H).
  by destruct (mountPoint_nonempty env) as (c & r & ->).
Qed.

(** [hdiutil attach] changes nothing outside the mount point. *)
Lemma attach_frame env dmg mp w w1 q :
  cmd_sem env (HdiutilAttach dmg mp) w = Some w1 ->
  under mp q = false -> fs w1 !! q = fs w !! q.
Proof.
  simpl. destruct (fs w !! dmg) as [[bytes|]|]; try done.
  destruct (dmg_volume env bytes) as [vol|]; [|done].
  intros [= <-] Hq. simpl. rewrite lookup_union.
  assert (H : (kmap (fun r => mp +:+ "/" +:+ r) vol : gmap string node) !! q = None).
  { apply (lookup_kmap_None (fun r => mp +:+ "/" +:+ r)). intros r ->.
    by rewrite under_child in Hq. }
  rewrite H, lookup_insert_ne, rm_tree_lookup_outside by (done || intros ->; by rewrite under_refl in Hq).
  by destruct (fs w !! q).
Qed.

(** The entries [readdirSync] lists at the mount point are the top-level
    names of the volume. *)
Lemma children_attach env dmg mp w w1 bytes vol f :
  cmd_sem env (HdiutilAttach dmg mp) w = Some w1 ->
  fs w !! dmg = Some (File bytes) ->
  dmg_volume env bytes = Some vol ->
  In f (children mp (fs w1)) <->
  is_Some (vol !! f) /\ nonempty f = true /\ has_slash f = false.
Proof.
  intros Ha Hb Hv.
  destruct (attach_lookup _ _ _ _ _ Ha) as (bytes' & vol' & Hb' & Hv' & Hl & _).
  rewrite Hb in Hb'. injection Hb' as <-. rewrite Hv in Hv'. injection Hv' as <-.
  unfold children. rewrite <- list_elem_of_In, list_elem_of_omap. split.
  - intros ([k n] & Hin & Hf). apply elem_of_map_to_list in Hin. simpl in Hf.
    destruct (strip_prefix (mp +:+ "/") k) as [rest|] eqn:Es; [|done].
    destruct (nonempty rest && negb (has_slash rest)) eqn:Ec; [|done].
    injection Hf as ->. apply strip_prefix_Some in Es. rewrite app_assoc_string in Es.
    subst k. rewrite Hl in Hin. apply andb_true_iff in Ec as [? ?%negb_true_iff].
    split; [by exists n|done].
  - intros ([n Hn] & Hne & Hs). exists (mp +:+ "/" +:+ f, n). split.
    + apply elem_of_map_to_list. by rewrite Hl.
    + simpl. rewrite <- app_assoc_string, strip_prefix_app, Hne, Hs. done.
Qed.

Lemma execSync_ok env c w w0 :
  cmd_fails env c = false -> cmd_sem env c w = Some w0 ->
  execSync env c w = (Ret tt, emit (Exec c true) w0).
Proof. intros Hf Hs. unfold execSync. by rewrite Hf, Hs. Qed.

Lemma execSync_none env c w :
  cmd_sem env c w = None ->
  execSync env c w = (Abort (Thrown (ExecError c)), emit (Exec c false) w).
Proof. intros Hs. unfold execSync. rewrite Hs. by destruct (cmd_fails env c). Qed.

Lemma attach_ok env dmg mp w bytes vol :
  fs w !! dmg = Some (File bytes) -> dmg_volume env bytes = Some vol ->
  exists w1, cmd_sem env (HdiutilAttach dmg mp) w = Some w1.
Proof. intros Hb Hv. simpl. rewrite Hb, Hv. by eexists. Qed.

Lemma cpR_missing_source env src dst w :
  fs w !! src = None -> cmd_sem env (CpR src dst) w = None.
Proof. intros H. simpl. by rewrite H. Qed.

(** The [catch] block of [installDMG] throws the error again; on the way
    it changes nothing outside the mount point. *)
Lemma installDMG_catch_run env err w :
  exists w',
    installDMG_catch env err w = (Abort (Thrown err), w') /\
    forall q, fs w' !! q = fs w !! q \/
              (under (mountPoint env) q = true /\ fs w' !! q = None).
Proof.
  unfold installDMG_catch. fold (mountPoint env).
  rewrite bind_run. unfold logErr. rewrite tell_run, bind_run.
  set (w1 := emit (LogErr _) w). unfold try_catch.
  destruct (execSync_cases env (HdiutilDetach (mountPoint env)) w1)
    as [(w0 & E & ->)| ->].
  - eexists. split; [done|]. intros q. cbn [snd fs emit].
    rewrite (detach_fs _ _ _ _ E). subst w1. rewrite fs_emit.
    destruct (under (mountPoint env) q) eqn:Eu.
    + right. split; [done|]. by apply rm_tree_lookup_under.
    + left. by apply rm_tree_lookup_outside.
  - eexists. split; [done|]. intros q. by left.
Qed.

(** The run of the [try] block on an image whose volume has no
    [Kaitu.app]. *)
Lemma installDMG_try_no_canonical env dmgPath w bytes vol :
  process_platform env = "darwin" ->
  fs w !! dmgPath = Some (File bytes) ->
  dmg_volume env bytes = Some vol ->
  vol !! "Kaitu.app" = None ->
  exists err w',
    installDMG_try env dmgPath w = (Abort (Thrown err), w') /\
    (forall q, under "/Applications/Kaitu.app" q = true ->
               under (mountPoint env) q = false ->
               fs w' !! q = None \/ fs w' !! q = fs w !! q) /\
    (cmd_fails env (HdiutilAttach dmgPath (mountPoint env)) = false ->
     (forall r, is_Some (vol !! r) -> has_slash r = false -> endsWith r ".app" = false) ->
     err = NoAppInDMG /\
     forall q, under (mountPoint env) q = false -> fs w' !! q = fs w !! q) /\
    (cmd_fails env (HdiutilAttach dmgPath (mountPoint env)) = false ->
     cmd_fails env (RmRf "/Applications/Kaitu.app") = false ->
     forall name,
       is_Some (vol !! name) -> has_slash name = false -> endsWith name ".app" = true ->
       err = ExecError (CpR (mountedApp env) "/Applications/Kaitu.app") /\
       fs w' !! "/Applications/Kaitu.app" = None).
Proof.
  intros Hp Hb Hv Hnc. unfold installDMG_try.
  fold (mountPoint env). fold (mountedApp env).
  rewrite log_run, bind_run. set (w0 := emit _ w).
  destruct (cmd_fails env (HdiutilAttach dmgPath (mountPoint env))) eqn:Hfa.
  { rewrite (execSync_fails _ _ _ Hfa). eexists _, _. split; [done|].
    split; [intros q _ _; by right|]. split; intros; done. }
  destruct (attach_ok env dmgPath (mountPoint env) w0 bytes vol Hb Hv) as [w1 Ha].
  rewrite (execSync_ok _ _ _ _ Hfa Ha).
  destruct (attach_lookup _ _ _ _ _ Ha) as (bytes' & vol' & Hb' & Hv' & Hl & Hmp).
  change (fs w0) with (fs w) in Hb'.
  rewrite Hb in Hb'. injection Hb' as <-. rewrite Hv in Hv'. injection Hv' as <-.
  pose proof (fun q => attach_frame _ _ _ _ _ q Ha) as Hfrm.
  change (fs w0) with (fs w) in Hfrm.
  assert (Happ : fs w1 !! mountedApp env = None).
  { by rewrite (mountedApp_darwin _ Hp), Hl. }
  rewrite bind_run. unfold existsSync at 1. cbn [fs emit]. rewrite Happ.
  cbn [negb when]. rewrite !bind_run. unfold readdirSync. cbn [fs emit]. rewrite Hmp.
  destruct (List.find _ _) as [f|] eqn:Ef.
  - apply find_some in Ef as [Hin Hends].
    apply (children_attach _ _ _ _ _ _ _ _ Ha Hb Hv) in Hin as (Hf & _ & Hs).
    assert (Hno : (forall r, is_Some (vol !! r) -> has_slash r = false ->
                             endsWith r ".app" = false) -> False).
    { intros H. specialize (H f Hf Hs). congruence. }
    cbv beta iota delta [ret]. rewrite log_run, bind_run.
    unfold existsSync at 1. cbn [fs emit].
    destruct (fs w1 !! "/Applications/Kaitu.app") as [n|] eqn:Ed.
    + cbn [when]. rewrite bind_run, log_run.
      destruct (cmd_fails env (RmRf "/Applications/Kaitu.app")) eqn:Hfr.
      { rewrite (execSync_fails _ _ _ Hfr). eexists _, _. split; [done|].
        cbn [fs emit]. split; [intros q _ Hm; right; by apply Hfrm|]. split; [|done].
        intros _ H. destruct (Hno H). }
      rewrite (execSync_ok _ _ _ _ Hfr eq_refl), bind_run.
      rewrite execSync_none.
      2:{ apply cpR_missing_source. cbn [fs emit set_fs].
          by apply rm_tree_lookup_None. }
      eexists _, _. split; [done|]. cbn [fs emit set_fs].
      split; [intros q Hq _; left; by apply rm_tree_lookup_under|].
      split; [intros _ H; destruct (Hno H)|].
      intros _ _ name _ _ _. split; [done|].
      apply rm_tree_lookup_under, under_refl.
    + cbn [when]. rewrite bind_run. cbv beta iota delta [ret].
      rewrite bind_run, execSync_none by (by apply cpR_missing_source).
      eexists _, _. split; [done|]. cbn [fs emit].
      split; [intros q _ Hm; right; by apply Hfrm|].
      split; [intros _ H; destruct (Hno H)|done].
  - unfold throw, stop. eexists _, _. split; [done|]. cbn [fs emit].
    split; [intros q _ Hm; right; by apply Hfrm|].
    split; [intros _ _; split; [done|intros q Hm; by apply Hfrm]|].
    intros _ _ name Hn Hs He. exfalso.
    assert (Hin : In name (children (mountPoint env) (fs w1))).
    { apply (children_attach _ _ _ _ _ _ _ _ Ha Hb Hv). split; [done|]. split; [|done].
      by destruct name. }
    apply (find_none _ _ Ef) in Hin. congruence.
Qed.

Lemma installDMG_no_canonical env dmgPath w bytes vol :
  process_platform env = "darwin" ->
  fs w !! dmgPath = Some (File bytes) ->
  dmg_volume env bytes = Some vol ->
  vol !! "Kaitu.app" = None ->
  exists err w',
    installDMG env dmgPath w = (Abort (Thrown err), w') /\
    (forall q, under "/Applications/Kaitu.app" q = true ->
               under (mountPoint env) q = false ->
               fs w' !! q = None \/ fs w' !! q = fs w !! q) /\
    (cmd_fails env (HdiutilAttach dmgPath (mountPoint env)) = false ->
     (forall r, is_Some (vol !! r) -> has_slash r = false -> endsWith r ".app" = false) ->
     err = NoAppInDMG /\
     forall q, under (mountPoint env) q = false -> fs w' !! q = fs w !! q) /\
    (cmd_fails env (HdiutilAttach dmgPath (mountPoint env)) = false ->
     cmd_fails env (RmRf "/Applications/Kaitu.app") = false ->
     forall name,
       is_Some (vol !! name) -> has_slash name = false -> endsWith name ".app" = true ->
       err = ExecError (CpR (mountedApp env) "/Applications/Kaitu.app") /\
       fs w' !! "/Applications/Kaitu.app" = None).
Proof.
  intros Hp Hb Hv Hnc. unfold installDMG. rewrite log_run. unfold try_catch.
  destruct (installDMG_try_no_canonical env dmgPath
              (emit (Log "Installing Kaitu app from DMG...") w) bytes vol Hp Hb Hv Hnc)
    as (err & w1 & -> & H1 & H2 & H3).
  destruct (installDMG_catch_run env err w1) as (w2 & -> & Hq).
  exists err, w2. split; [done|].
  assert (E : forall q, under (mountPoint env) q = false -> fs w2 !! q = fs w1 !! q).
  { intros q Hm. destruct (Hq q) as [E|[E _]]; [done|congruence]. }
  split; [|split].
  - intros q Hd Hm. rewrite (E q Hm). by apply H1.
  - intros Hfa Hno. destruct (H2 Hfa Hno) as [-> Hf]. split; [done|].
    intros q Hm. rewrite (E q Hm). by apply Hf.
  - intros Hfa Hfr name Hn Hs He. destruct (H3 Hfa Hfr name Hn Hs He) as [-> Hd].
    split; [done|]. by rewrite (E _ (bundle_outside_mountPoint env)).
Qed.

(** [installDMG] installs nothing from an image whose volume has no
    [Kaitu.app] at its top: it throws, whatever else the volume holds, and
    [/Applications/Kaitu.app] is afterwards either as it was or absent.  The
    same holds of every path inside the bundle (outside the mount point):
    nothing of the image is found there. *)
Theorem installDMG_needs_Kaitu_app env dmgPath w bytes vol :
  process_platform env = "darwin" ->
  fs w !! dmgPath = Some (File bytes) ->
  dmg_volume env bytes = Some vol ->
  vol !! "Kaitu.app" = None ->
  (exists err, (installDMG env dmgPath w).1 = Abort (Thrown err)) /\
  (fs (installDMG env dmgPath w).2 !! "/Applications/Kaitu.app" = None \/
   fs (installDMG env dmgPath w).2 !! "/Applications/Kaitu.app" =
     fs w !! "/Applications/Kaitu.app") /\
  (forall q, under "/Applications/Kaitu.app" q = true ->
             under (mountPoint env) q = false ->
             fs (installDMG env dmgPath w).2 !! q = None \/
             fs (installDMG env dmgPath w).2 !! q = fs w !! q).
Proof.
  intros Hp Hb Hv Hnc.
  destruct (installDMG_no_canonical env dmgPath w bytes vol Hp Hb Hv Hnc)
    as (err & w' & -> & Hd & _).
  split; [by exists err|]. split; [|done].
  apply Hd; [apply under_refl|apply bundle_outside_mountPoint].
Qed.

Lemma installDMG_needs_Kaitu_app_witness :
  exists err,
    (installDMG (Scenario.mac Scenario.volume_renamed Scenario.abc_tag true false)
       "/tmp/kaitu-installer.dmg" (Scenario.with_cached Scenario.abc)).1 =
    Abort (Thrown err).
Proof.
  refine (proj1 (installDMG_needs_Kaitu_app
                   (Scenario.mac Scenario.volume_renamed Scenario.abc_tag true false)
                   "/tmp/kaitu-installer.dmg" (Scenario.with_cached Scenario.abc)
                   Scenario.abc Scenario.volume_renamed _ _ _ _)).
  - reflexivity.
  - vm_compute. reflexivity.
  - reflexivity.
  - vm_compute. reflexivity.
Defined.

(** An image that holds its bundle under another name passes the search
    for an application bundle, and the name found is not used: the existing
    installation is removed, the copy of [Kaitu.app] from the volume fails,
    and [installDMG] throws that failure with nothing left at
    [/Applications/Kaitu.app], also when the application was installed
    before. *)
Theorem installDMG_renamed_bundle_removes_installation env dmgPath w bytes vol name :
  process_platform env = "darwin" ->
  fs w !! dmgPath = Some (File bytes) ->
  dmg_volume env bytes = Some vol ->
  vol !! "Kaitu.app" = None ->
  is_Some (vol !! name) -> has_slash name = false -> endsWith name ".app" = true ->
  cmd_fails env (HdiutilAttach dmgPath (mountPoint env)) = false ->
  cmd_fails env (RmRf "/Applications/Kaitu.app") = false ->
  (installDMG env dmgPath w).1 =
    Abort (Thrown (ExecError (CpR (mountedApp env) "/Applications/Kaitu.app"))) /\
  fs (installDMG env dmgPath w).2 !! "/Applications/Kaitu.app" = None.
Proof.
  intros Hp Hb Hv Hnc Hn Hs He Hfa Hfr.
  destruct (installDMG_no_canonical env dmgPath w bytes vol Hp Hb Hv Hnc)
    as (err & w' & -> & _ & _ & H).
  destruct (H Hfa Hfr name Hn Hs He) as [-> Hd]. done.
Qed.

Lemma installDMG_renamed_bundle_removes_installation_witness :
  is_Some (fs (Scenario.world
                 {[ "/Applications" := Dir; "/tmp" := Dir;
                    "/Applications/Kaitu.app" := Dir;
                    "/tmp/kaitu-installer.dmg" := File Scenario.abc ]})
             !! "/Applications/Kaitu.app") /\
  fs (installDMG (Scenario.mac Scenario.volume_renamed Scenario.abc_tag true false)
        "/tmp/kaitu-installer.dmg"
        (Scenario.world
           {[ "/Applications" := Dir; "/tmp" := Dir;
              "/Applications/Kaitu.app" := Dir;
              "/tmp/kaitu-installer.dmg" := File Scenario.abc ]})).2
    !! "/Applications/Kaitu.app" = None.
Proof.
  split; [vm_compute; by eexists|].
  refine (proj2 (installDMG_renamed_bundle_removes_installation
                   (Scenario.mac Scenario.volume_renamed Scenario.abc_tag true false)
                   "/tmp/kaitu-installer.dmg" _ Scenario.abc Scenario.volume_renamed
                   "Kaitu Beta.app" _ _ _ _ _ _ _ _ _)).
  - reflexivity.
  - vm_compute. reflexivity.
  - reflexivity.
  - vm_compute. reflexivity.
  - vm_compute. by eexists.
  - reflexivity.
  - vm_compute. reflexivity.
  - reflexivity.
  - reflexivity.
Defined.

(** An image whose volume has no entry named [*.app] at its top makes
    [installDMG] throw [No .app file found in DMG] once it is mounted, and
    leaves [/Applications/Kaitu.app] as it was; indeed it leaves every path
    outside the mount point as it was, the contents of the bundle among
    them. *)
Theorem installDMG_no_bundle_in_image env dmgPath w bytes vol :
  process_platform env = "darwin" ->
  fs w !! dmgPath = Some (File bytes) ->
  dmg_volume env bytes = Some vol ->
  (forall r, is_Some (vol !! r) -> has_slash r = false -> endsWith r ".app" = false) ->
  cmd_fails env (HdiutilAttach dmgPath (mountPoint env)) = false ->
  (installDMG env dmgPath w).1 = Abort (Thrown NoAppInDMG) /\
  fs (installDMG env dmgPath w).2 !! "/Applications/Kaitu.app" =
    fs w !! "/Applications/Kaitu.app" /\
  (forall q, under (mountPoint env) q = false ->
             fs (installDMG env dmgPath w).2 !! q = fs w !! q).
Proof.
  intros Hp Hb Hv Hno Hfa.
  assert (Hnc : vol !! "Kaitu.app" = None).
  { destruct (vol !! "Kaitu.app") as [n|] eqn:E; [|done].
    by specialize (Hno "Kaitu.app" (ex_intro _ n E) eq_refl). }
  destruct (installDMG_no_canonical env dmgPath w bytes vol Hp Hb Hv Hnc)
    as (err & w' & -> & _ & H & _).
  destruct (H Hfa Hno) as [-> Hd]. split; [done|]. split; [|done].
  apply Hd, bundle_outside_mountPoint.
Qed.

Lemma installDMG_no_bundle_in_image_witness :
  (installDMG (Scenario.mac {[ "README.txt" := File [] ]} Scenario.abc_tag true false)
     "/tmp/kaitu-installer.dmg" (Scenario.with_cached Scenario.abc)).1 =
  Abort (Thrown NoAppInDMG).
Proof.
  refine (proj1 (installDMG_no_bundle_in_image
                   (Scenario.mac {[ "README.txt" := File [] ]} Scenario.abc_tag true false)
                   "/tmp/kaitu-installer.dmg" (Scenario.with_cached Scenario.abc)
                   Scenario.abc {[ "README.txt" := File [] ]} _ _ _ _ _)).
  - reflexivity.
  - vm_compute. reflexivity.
  - reflexivity.
  - intros r [n Hn] _. apply lookup_singleton_Some in Hn as [<- _]. reflexivity.
  - reflexivity.
Defined.

(** ** [installDMG] when the unmount fails *)

(** A step that neither copies nor stops otherwise than by throwing, put
    before a computation that fails on the unmount. *)
Lemma fails_on_unmount_bind env {A B} (m : M A) (k : A -> M B) :
  only_throws m ->
  keeps (changes (fun _ => True) (fun e => e <> copy_done env)) m ->
  (forall a, fails_on_unmount env (k a)) ->
  fails_on_unmount env (bind m k).
Proof.
  intros Ht Hm Hk w. rewrite bind_run.
  specialize (Ht w). destruct (Hm w) as [_ (tr1 & E1 & F1)].
  assert (Hno : ~ In (copy_done env) tr1).
  { intros Hin. rewrite Forall_forall in F1.
    by apply (F1 _ (proj2 (list_elem_of_In _ _) Hin)). }
  destruct (m w) as [[a|why] w1]; simpl in *.
  - destruct (Hk a w1) as (tr2 & E2 & err & Ho & Hc).
    exists (tr2 ++ tr1). split; [by rewrite E2, E1, app_assoc|].
    exists err. split; [done|]. intros Hin. apply Hc.
    apply in_app_or in Hin as [Hin|Hin]; [done|by destruct Hno].
  - destruct why as [err| | | |]; try done.
    exists tr1. split; [done|]. exists err. split; [done|]. by intros Hin.
Qed.

(** From the copy on, with an unmount that fails: the copy has put the
    bundle at its place, and nothing after it touches the files. *)
Lemma copy_then_failed_unmount env dmgPath :
  cmd_fails env (HdiutilDetach (mountPoint env)) = true ->
  fails_on_unmount env
    (execSync env (CpR (mountedApp env) "/Applications/Kaitu.app") ;;
     log "Unmounting DMG..." ;;
     execSync env (HdiutilDetach (mountPoint env)) ;;
     unlinkSync dmgPath ;;
     log "Kaitu app installed successfully to /Applications" ;;
     log "You can now launch Kaitu from your Applications folder or Launchpad").
Proof.
  intros Hf w. rewrite bind_run.
  destruct (execSync_cases env (CpR (mountedApp env) "/Applications/Kaitu.app") w)
    as [(w0 & E & ->)| ->].
  - rewrite log_run, bind_run, (execSync_fails _ _ _ Hf).
    eexists [_; _; _]. split.
    + simpl. by rewrite (cmd_sem_events _ _ _ _ E).
    + eexists. split; [done|]. intros _. split; [done|].
      cbn [snd fs emit]. exact (cpR_destination_exists _ _ _ _ _ E).
  - eexists [_]. split; [done|]. eexists. split; [done|].
    intros [H|[]]. discriminate.
Qed.

Lemma installDMG_try_fails_on_unmount env dmgPath :
  cmd_fails env (HdiutilDetach (mountPoint env)) = true ->
  fails_on_unmount env (installDMG_try env dmgPath).
Proof.
  intros Hf. unfold installDMG_try. fold (mountPoint env). fold (mountedApp env).
  repeat (apply fails_on_unmount_bind;
          [solve [repeat only_throws_step]
          |solve [repeat keeps_step; simpl; auto; discriminate]
          |intros ?]).
  exact (copy_then_failed_unmount env dmgPath Hf).
Qed.

(** The [catch] block when the unmount fails: the error is reported, the
    unmount is tried and fails, the error is thrown again; no file is
    touched. *)
Lemma installDMG_catch_failed_unmount env err w :
  cmd_fails env (HdiutilDetach (mountPoint env)) = true ->
  installDMG_catch env err w =
    (Abort (Thrown err),
     emit (Exec (HdiutilDetach (mountPoint env)) false)
       (emit (LogErr ("Installation failed: " +:+ message err)) w)).
Proof.
  intros Hf. unfold installDMG_catch. fold (mountPoint env).
  rewrite bind_run. unfold logErr. rewrite tell_run, bind_run.
  unfold try_catch. by rewrite (execSync_fails _ _ _ Hf).
Qed.

(** C4, as amended. A run of [installDMG] in which the unmount of the
    volume fails, fails: it throws, having reported the error.  When the
    copy into [/Applications] had succeeded, the error it throws is the
    failure of the unmount itself, and the world it leaves has the bundle
    at [/Applications/Kaitu.app]: the installation is reported as failed
    although the application is in place. *)
Theorem C4_unmount_failure_fails_install env dmgPath w :
  cmd_fails env (HdiutilDetach (mountPoint env)) = true ->
  exists err tr,
    (installDMG env dmgPath w).1 = Abort (Thrown err) /\
    events (installDMG env dmgPath w).2 = tr ++ events w /\
    In (LogErr ("Installation failed: " +:+ message err)) tr /\
    (In (copy_done env) tr ->
     err = ExecError (HdiutilDetach (mountPoint env)) /\
     is_Some (fs (installDMG env dmgPath w).2 !! "/Applications/Kaitu.app")).
Proof.
  intros Hf. unfold installDMG. rewrite log_run. unfold try_catch.
  set (w1 := emit _ w).
  destruct (installDMG_try_fails_on_unmount env dmgPath Hf w1)
    as (tr & Etr & err & Ho & Hc).
  destruct (installDMG_try env dmgPath w1) as [o w2]. simpl in *. subst o.
  rewrite (installDMG_catch_failed_unmount env err w2 Hf).
  exists err, (Exec (HdiutilDetach (mountPoint env)) false
                 :: LogErr ("Installation failed: " +:+ message err)
                 :: tr ++ [Log "Installing Kaitu app from DMG..."]).
  split; [done|]. split; [cbn [snd events emit]; rewrite Etr; cbn [app]; by rewrite <- app_assoc|].
  split; [simpl; auto|].
  cbn [snd fs emit].
  intros [Hin|[Hin|Hin]]; [| |].
  - exfalso. unfold copy_done in Hin. discriminate.
  - discriminate.
  - apply Hc. apply in_app_or in Hin as [Hin|[Hin|[]]]; [done|discriminate].
Qed.

Lemma C4_witness :
  exists err tr,
    (installDMG (Scenario.mac Scenario.volume Scenario.abc_tag true true)
       "/tmp/kaitu-installer.dmg" (Scenario.with_cached Scenario.abc)).1 =
      Abort (Thrown err) /\
    events (installDMG (Scenario.mac Scenario.volume Scenario.abc_tag true true)
              "/tmp/kaitu-installer.dmg" (Scenario.with_cached Scenario.abc)).2 =
      tr ++ events (Scenario.with_cached Scenario.abc) /\
    In (LogErr ("Installation failed: " +:+ message err)) tr /\
    (In (copy_done (Scenario.mac Scenario.volume Scenario.abc_tag true true)) tr ->
     err = ExecError (HdiutilDetach
                        (mountPoint (Scenario.mac Scenario.volume Scenario.abc_tag true true))) /\
     is_Some (fs (installDMG (Scenario.mac Scenario.volume Scenario.abc_tag true true)
                    "/tmp/kaitu-installer.dmg" (Scenario.with_cached Scenario.abc)).2
                !! "/Applications/Kaitu.app")).
Proof.
  apply (C4_unmount_failure_fails_install
           (Scenario.mac Scenario.volume Scenario.abc_tag true true)
           "/tmp/kaitu-installer.dmg" (Scenario.with_cached Scenario.abc)).
  reflexivity.
Defined.

(** ** [installService] *)




(** The run of [installService] when the manifest has an entry for the
    platform, in terms of the download and of the steps after it. *)
Lemma installService_run fuel env platformInfo packageConfig serviceInfo w :
  entry (key platformInfo) (default [] (service packageConfig)) = Some serviceInfo ->
  installService fuel env platformInfo packageConfig w =
  try_catch
    (downloadFile fuel env (Some (url serviceInfo)) (serviceTempPath env platformInfo) ;;
     installService_rest env platformInfo serviceInfo)
    (fun err => logErr ("Service installation failed: " +:+ message err) ;; ret false)
    (emit (Log "Downloading service binary...") (emit (Log "Installing Kaitu Service...") w)).
Proof. intros E. unfold installService. rewrite log_run, E. reflexivity. Qed.

#[export] Instance same_registration_preorder : PreOrder same_registration.
Proof.
  split; [by intros w|]. intros w1 w2 w3 H1 H2. unfold same_registration in *. congruence.
Qed.



Lemma serviceTempPath_contains env platformInfo :
  contains "kaitu-service-" (serviceTempPath env platformInfo) = true.
Proof.
  unfold serviceTempPath.
  set (rest := key platformInfo +:+ (if isWindows platformInfo then ".exe" else "")).
  change ("kaitu-service-" +:+ rest) with (String "k" ("aitu-service-" +:+ rest)).
  rewrite path_join_pair.
  change (String "k" ("aitu-service-" +:+ rest)) with ("kaitu-service-" +:+ rest).
  destruct (tmpdir env) as [|c t].
  - apply (contains_app "kaitu-service-" "" rest).
  - rewrite <- app_assoc_string. apply contains_app.
Qed.

Lemma serviceTempPath_neq env platformInfo q :
  contains "kaitu-service-" q = false -> serviceTempPath env platformInfo <> q.
Proof. intros H <-. by rewrite serviceTempPath_contains in H. Qed.



Lemma unlinkSync_file p w bytes :
  fs w !! p = Some (File bytes) ->
  unlinkSync p w = (Ret tt, emit (Unlink p) (set_fs (delete p (fs w)) w)).
Proof. intros H. unfold unlinkSync. by rewrite H. Qed.


Lemma getPlatformInfo_unix p a platformInfo :
  getPlatformInfo p a = Ret platformInfo -> p <> "win32" ->
  isMac platformInfo || isLinux platformInfo = true /\ isWindows platformInfo = false.
Proof.
  unfold getPlatformInfo. intros H Hp.
  destruct (String.eqb p "darwin"); [by injection H as <-|].
  destruct (String.eqb p "win32") eqn:Ew; [by apply String.eqb_eq in Ew|].
  destruct (String.eqb p "linux"); [by injection H as <-|done].
Qed.




Lemma getPlatformInfo_win32 a platformInfo :
  getPlatformInfo "win32" a = Ret platformInfo ->
  isMac platformInfo = false /\ isLinux platformInfo = false.
Proof. unfold getPlatformInfo. simpl. by intros [= <-]. Qed.

Lemma installService_rest_not_unix env platformInfo s :
  isMac platformInfo = false -> isLinux platformInfo = false ->
  keeps (changes (fun _ => False) is_log) (installService_rest env platformInfo s) /\
  forall w, (installService_rest env platformInfo s w).1 <> Ret true.
Proof.
  intros Hm Hl. unfold installService_rest. rewrite Hm, Hl. cbn [orb]. split.
  - repeat keeps_step; simpl; auto.
  - intros w. rewrite log_run, bind_run.
    destruct (verifyHash _ _ _) as [[b|why] w1]; [|done].
    rewrite log_run. by destruct (isWindows platformInfo).
Qed.

(** On Windows [installService] never installs: it answers false (or does
    not return), whatever the manifest and the network are, and having
    downloaded and verified the binary it writes no path but its temp file
    and runs no command. *)
Theorem installService_windows_only_downloads fuel env a platformInfo packageConfig w :
  getPlatformInfo "win32" a = Ret platformInfo ->
  (installService fuel env platformInfo packageConfig w).1 <> Ret true /\
  (forall q, q <> serviceTempPath env platformInfo ->
             fs (installService fuel env platformInfo packageConfig w).2 !! q = fs w !! q) /\
  (exists tr,
      events (installService fuel env platformInfo packageConfig w).2 = tr ++ events w /\
      Forall (download_event (serviceTempPath env platformInfo)) tr).
Proof.
  intros Hpi. destruct (getPlatformInfo_win32 _ _ Hpi) as [Hm Hl].
  assert (Hk : keeps (changes (eq (serviceTempPath env platformInfo))
                        (download_event (serviceTempPath env platformInfo)))
                 (installService fuel env platformInfo packageConfig)).
  { unfold installService. rewrite Hm, Hl. cbn [orb].
    repeat keeps_step; simpl; auto. }
  destruct (Hk w) as [Hf Ht]. split; [|split; [|done]].
  2:{ intros q Hq. apply Hf. congruence. }
  destruct (entry (key platformInfo) (default [] (service packageConfig)))
    as [s|] eqn:E.
  2:{ unfold installService. by rewrite log_run, E. }
  rewrite (installService_run _ _ _ _ _ _ E). unfold try_catch. rewrite bind_run.
  destruct (downloadFile _ _ _ _ _) as [[[]|[e| | | |]] w2]; try done.
  pose proof (proj2 (installService_rest_not_unix env platformInfo s Hm Hl) w2) as H.
  by destruct (installService_rest env platformInfo s w2) as [[b|[e| | | |]] w3].
Qed.

Lemma installService_windows_only_downloads_witness :
  (installService 3
     {| process_platform := "win32"; process_arch := "x64"; tmpdir := "C:\Temp";
        ProgramFiles := None; LOCALAPPDATA := None;
        package_json := None;
        net := Scenario.network;
        access_W_OK := fun _ => true; dmg_volume := fun _ => None;
        cmd_fails := fun _ => false;
        spawn_result := fun _ _ => ChildExit None None |}
     {| platform := "windows"; arch := Str "amd64"; key := "windows-amd64";
        isMac := false; isWindows := true; isLinux := false |}
     {| service := Some [("windows-amd64",
                          {| url := Scenario.cdn_url; hash := Scenario.abc_tag |})];
        installer := None |}
     Scenario.fresh).1 <> Ret true.
Proof.
  refine (proj1 (installService_windows_only_downloads 3 _ "x64" _ _ Scenario.fresh _)).
  reflexivity.
Defined.

(** ** How [postInstall] ends *)











Lemma getPlatformInfo_cases p a :
  (exists platformInfo, getPlatformInfo p a = Ret platformInfo) \/
  getPlatformInfo p a = Abort (Thrown (UnsupportedPlatform p)).
Proof.
  unfold getPlatformInfo.
  repeat (destruct (String.eqb _ _); [left; by eexists|]). by right.
Qed.

(** On a platform other than darwin, win32 and linux the run stops at
    once: it prints the banner, reports [Unsupported platform] and exits
    with code 1, having probed, read, requested and written nothing. *)
Theorem postInstall_unsupported_platform fuel env w :
  process_platform env <> "darwin" ->
  process_platform env <> "win32" ->
  process_platform env <> "linux" ->
  (postInstall fuel env w).1 = Abort (Exited 1) /\
  fs (postInstall fuel env w).2 = fs w /\
  events (postInstall fuel env w).2 =
    [LogErr releases_url;
     LogErr "You can download the installer manually from:";
     LogErr ("Installation failed: Unsupported platform: " +:+ process_platform env);
     Log "Installing Kaitu"] ++ events w.
Proof.
  intros Hd Hw Hl.
  assert (E : getPlatformInfo (process_platform env) (process_arch env) =
              Abort (Thrown (UnsupportedPlatform (process_platform env)))).
  { unfold getPlatformInfo.
    apply String.eqb_neq in Hd, Hw, Hl. by rewrite Hd, Hw, Hl. }
  unfold postInstall, try_catch, postInstall_body, postInstall_prelude.
  rewrite bind_run, log_run, bind_run. unfold lift. rewrite E. done.
Qed.

Lemma postInstall_unsupported_platform_witness :
  (postInstall 3
     {| process_platform := "freebsd"; process_arch := "x64"; tmpdir := "/tmp";
        ProgramFiles := None; LOCALAPPDATA := None;
        package_json := Some (Scenario.manifest Scenario.abc_tag);
        net := Scenario.network;
        access_W_OK := fun _ => true; dmg_volume := fun _ => None;
        cmd_fails := fun _ => false;
        spawn_result := fun _ _ => ChildExit None None |}
     Scenario.fresh).1 = Abort (Exited 1).
Proof.
  refine (proj1 (postInstall_unsupported_platform 3 _ Scenario.fresh _ _ _));
    discriminate.
Defined.

(** When package.json cannot be read the run exits with code 1 before
    anything is requested or written: all it has done is to log and, on
    win32, to probe the privileges with [net session]. *)
Theorem postInstall_unreadable_manifest fuel env w :
  package_json env = None ->
  (postInstall fuel env w).1 = Abort (Exited 1) /\
  (forall q, fs (postInstall fuel env w).2 !! q = fs w !! q) /\
  (exists tr,
      events (postInstall fuel env w).2 = tr ++ events w /\
      Forall (fun e => is_log e \/ exists b, e = Exec NetSession b) tr).
Proof.
  intros Hc.
  assert (Hk : keeps (changes (fun _ => False)
                        (fun e => is_log e \/ exists b, e = Exec NetSession b))
                 (postInstall_prelude fuel env)).
  { unfold postInstall_prelude, getPackageConfig. rewrite Hc.
    keeps_step; [keeps_step; by left|].
    keeps_step; [keeps_step|].
    keeps_step; [keeps_step; by left|].
    keeps_step.
    { intros v. destruct (checkPrivileges_run env v) as [_ H].
      eapply changes_weaken; [| |exact H]; [done|]. intros e He. by right. }
    keeps_step; [repeat keeps_step; by left|].
    eapply (keeps_bind_post _ (fun _ => False)); [keeps_step|by intros ???|by intros ?]. }
  assert (Ht : exists err w1,
             postInstall_prelude fuel env w = (Abort (Thrown err), w1)).
  { unfold postInstall_prelude, getPackageConfig. rewrite Hc.
    rewrite log_run, bind_run. unfold lift.
    destruct (getPlatformInfo_cases (process_platform env) (process_arch env))
      as [[pi ->]| ->]; [|by eexists _, _].
    rewrite log_run, bind_run.
    destruct (checkPrivileges_run env (emit (Log ("Platform: " +:+ key pi))
                                         (emit (Log "Installing Kaitu") w)))
      as [Ho _].
    destruct (checkPrivileges env _) as [o v]. simpl in Ho. subst o.
    rewrite bind_run. destruct (elevated env); cbn [negb when].
    - by eexists _, _.
    - rewrite !log_run. by eexists _, _. }
  destruct Ht as (err & w1 & E).
  unfold postInstall, try_catch, postInstall_body. rewrite bind_run, E.
  specialize (Hk w). rewrite E in Hk. simpl in Hk. destruct Hk as [Hf (tr & Et & Ha)].
  split; [done|]. split; [intros q; simpl; apply Hf; tauto|].
  eexists (_ :: _ :: _ :: tr). split; [simpl; by rewrite Et|].
  repeat (constructor; [by left|]). done.
Qed.

Lemma postInstall_unreadable_manifest_witness :
  (postInstall 3
     {| process_platform := "win32"; process_arch := "x64"; tmpdir := "C:\Temp";
        ProgramFiles := None; LOCALAPPDATA := None;
        package_json := None;
        net := Scenario.network;
        access_W_OK := fun _ => true; dmg_volume := fun _ => None;
        cmd_fails := fun _ => false;
        spawn_result := fun _ _ => ChildExit None None |}
     Scenario.fresh).1 = Abort (Exited 1).
Proof.
  refine (proj1 (postInstall_unreadable_manifest 3 _ Scenario.fresh _)). reflexivity.
Defined.

(** A platform for which the manifest lists no installer is not an error.
    Without privileges the run then only prints where to download the
    application by hand and returns, so the process ends with status 0
    although nothing was requested, written or installed. *)
Theorem postInstall_no_installer_entry fuel env w platformInfo packageConfig :
  getPlatformInfo (process_platform env) (process_arch env) = Ret platformInfo ->
  package_json env = Some packageConfig ->
  entry (key platformInfo) (default [] (installer packageConfig)) = None ->
  (checkPrivileges env w).1 = Ret false ->
  (postInstall fuel env w).1 = Ret tt /\
  (forall q, fs (postInstall fuel env w).2 !! q = fs w !! q) /\
  (exists tr,
      events (postInstall fuel env w).2 = tr ++ events w /\
      Forall (fun e => is_log e \/ exists b, e = Exec NetSession b) tr /\
      In (Log releases_url) tr).
Proof.
  intros Hpi Hc He Hp.
  assert (Hu : elevated env = false).
  { destruct (checkPrivileges_run env w) as [Ho _]. congruence. }
  unfold postInstall, try_catch, postInstall_body, postInstall_prelude, getPackageConfig.
  rewrite Hpi, Hc. rewrite bind_run, log_run, bind_run. unfold lift.
  rewrite log_run, bind_run.
  set (w1 := emit _ (emit _ w)).
  destruct (checkPrivileges_run env w1) as [Ho [Hf (tr & Et & Ha)]].
  destruct (checkPrivileges env w1) as [o v]. simpl in Ho, Hf, Et. subst o.
  rewrite Hu. cbn [negb when]. rewrite bind_run, !log_run.
  cbv beta iota delta [log tell ret bind].
  unfold postInstall_desktop. rewrite He.
  cbv beta iota delta [log tell ret bind when negb fst snd].
  cbn [fs events emit].
  split; [done|]. split; [intros q; apply Hf; tauto|].
  eexists (_ :: _ :: _ :: _ :: _ :: _ :: _ :: tr ++ [_; _]).
  split; [|split].
  - rewrite Et. cbn [app]. by rewrite <- app_assoc.
  - repeat (constructor; [by left|]). apply Forall_app. split.
    + eapply Forall_impl; [exact Ha|]. intros e H. by right.
    + repeat (constructor; [by left|]). constructor.
  - simpl. auto.
Qed.

Lemma postInstall_no_installer_entry_witness :
  (postInstall 3
     {| process_platform := "linux"; process_arch := "x64"; tmpdir := "/tmp";
        ProgramFiles := None; LOCALAPPDATA := None;
        package_json := Some (Scenario.manifest Scenario.abc_tag);
        net := Scenario.network;
        access_W_OK := fun _ => false; dmg_volume := fun _ => None;
        cmd_fails := fun _ => false;
        spawn_result := fun _ _ => ChildExit None None |}
     Scenario.fresh).1 = Ret tt.
Proof.
  refine (proj1 (postInstall_no_installer_entry 3 _ Scenario.fresh
                   {| platform := "linux"; arch := Str "amd64"; key := "linux-amd64";
                      isMac := false; isWindows := false; isLinux := true |}
                   (Scenario.manifest Scenario.abc_tag) _ _ _ _));
    reflexivity.
Defined.

(** Outside macOS the desktop step of [postInstall] installs nothing, with
    or without privileges and whether or not the manifest lists an
    installer for the platform: it returns having only logged, so no
    installer is requested, nothing is written and no command is run. *)
Theorem postInstall_desktop_placeholder
    fuel env platformInfo hasPrivileges packageConfig serviceInstalled w :
  isMac platformInfo = false ->
  (postInstall_desktop fuel env platformInfo hasPrivileges packageConfig
     serviceInstalled w).1 = Ret tt /\
  (forall q,
      fs (postInstall_desktop fuel env platformInfo hasPrivileges packageConfig
            serviceInstalled w).2 !! q = fs w !! q) /\
  (exists tr,
      events (postInstall_desktop fuel env platformInfo hasPrivileges packageConfig
                serviceInstalled w).2 = tr ++ events w /\
      Forall is_log tr).
Proof.
  intros Hm.
  assert (Hk : keeps (changes (fun _ => False) is_log)
                 (postInstall_desktop fuel env platformInfo hasPrivileges packageConfig
                    serviceInstalled)).
  { unfold postInstall_desktop. rewrite Hm. cbn [andb].
    repeat keeps_step; simpl; auto. }
  destruct (Hk w) as [Hf Ht]. split; [|split; [intros q; apply Hf; tauto|done]].
  unfold postInstall_desktop. rewrite Hm. cbn [andb].
  destruct (entry _ _); destruct (isWindows platformInfo), (isLinux platformInfo),
    serviceInstalled; reflexivity.
Qed.

Lemma postInstall_desktop_placeholder_witness :
  (postInstall_desktop 3 Scenario.linux
     {| platform := "linux"; arch := Str "amd64"; key := "linux-amd64";
        isMac := false; isWindows := false; isLinux := true |}
     true
     {| service := None;
        installer := Some [("linux-amd64",
                            {| url := Scenario.cdn_url; hash := Scenario.abc_tag |})] |}
     false Scenario.fresh).1 = Ret tt.
Proof.
  refine (proj1 (postInstall_desktop_placeholder 3 Scenario.linux _ true _ false
                   Scenario.fresh _)).
  reflexivity.
Defined.

(** ** Failures inside [installService] *)




(** ** index.js *)

(** A command [main] does not know is reported on stderr, followed by the
    help text, and ends the process with code 1; nothing is started or
    written. *)
Theorem main_unknown_command fuel env postinstallPath command rest w :
  is_one_of (Some command)
    ["start"; "launch"; "open"; "service"; "install"; "setup"; "status";
     "help"; "--help"; "-h"] = false ->
  (main fuel env postinstallPath (command :: rest) w).1 = Abort (Exited 1) /\
  fs (main fuel env postinstallPath (command :: rest) w).2 = fs w /\
  events (main fuel env postinstallPath (command :: rest) w).2 =
    events (showHelp (emit (LogErr ("Unknown command: " +:+ command)) w)).2.
Proof.
  unfold is_one_of. cbn [existsb]. intros H.
  repeat (apply orb_false_elim in H as [? H]).
  unfold main, is_one_of. cbn [head existsb].
  repeat match goal with E : String.eqb _ _ = false |- _ => rewrite E; clear E end.
  done.
Qed.

Lemma main_unknown_command_witness :
  (main 3 Scenario.linux "/opt/kaitu/postinstall.js" ["restart"] Scenario.fresh).1 =
  Abort (Exited 1).
Proof.
  refine (proj1 (main_unknown_command 3 Scenario.linux "/opt/kaitu/postinstall.js"
                   "restart" [] Scenario.fresh _)).
  reflexivity.
Defined.

(** [kaitu service ...] without the service binary in place reports that
    the service is not installed and exits with code 1; no process is
    started. *)
Theorem main_service_requires_binary fuel env postinstallPath args w :
  fs w !! servicePath env = None ->
  (main fuel env postinstallPath ("service" :: args) w).1 = Abort (Exited 1) /\
  fs (main fuel env postinstallPath ("service" :: args) w).2 = fs w /\
  events (main fuel env postinstallPath ("service" :: args) w).2 =
    Log "Please run: sudo npm install -g kaitu"
      :: LogErr "Service not installed" :: events w.
Proof.
  intros H.
  change (main fuel env postinstallPath ("service" :: args))
    with (runServiceCommand env args).
  unfold runServiceCommand. rewrite bind_run. unfold existsSync. rewrite H. done.
Qed.

Lemma main_service_requires_binary_witness :
  (main 3 Scenario.linux "/opt/kaitu/postinstall.js" ["service"; "start"]
     Scenario.fresh).1 = Abort (Exited 1).
Proof.
  refine (proj1 (main_service_requires_binary 3 Scenario.linux
                   "/opt/kaitu/postinstall.js" ["start"] Scenario.fresh _)).
  vm_compute. reflexivity.
Defined.

(** What [isAppInstalled] and [isServiceInstalled] answer depends on the
    file system only. *)
Lemma isAppInstalled_fs env w v :
  fs v = fs w -> isAppInstalled env v = ((isAppInstalled env w).1, v).
Proof.
  intros E. unfold isAppInstalled.
  destruct (String.eqb (process_platform env) "darwin").
  { unfold existsSync. by rewrite E. }
  destruct (String.eqb (process_platform env) "win32"); [|done].
  unfold bind, existsSync, ret. rewrite E. reflexivity.
Qed.

Lemma isServiceInstalled_fs env w v :
  fs v = fs w -> isServiceInstalled env v = ((isServiceInstalled env w).1, v).
Proof. intros E. unfold isServiceInstalled, existsSync. by rewrite E. Qed.

(** [showStatus] reads and prints: it returns in every world with the
    file system as it was, reports the two components as the two checks
    find them, and prints the hint to install exactly when one of them is
    missing. *)
Theorem showStatus_reports env w :
  exists app svc tr,
    (isAppInstalled env w).1 = Ret app /\
    (isServiceInstalled env w).1 = Ret svc /\
    (showStatus env w).1 = Ret tt /\
    fs (showStatus env w).2 = fs w /\
    events (showStatus env w).2 = tr ++ events w /\
    Forall is_log tr /\
    In (Log ("Desktop App: " +:+ (if app then "Installed" else "Not installed"))) tr /\
    In (Log ("Service Binary: " +:+ (if svc then "Installed" else "Not installed"))) tr /\
    (In (Log "  sudo npm install -g kaitu") tr <-> app && svc = false).
Proof.
  destruct (isAppInstalled_run env w) as [app Ea].
  set (svc := match fs w !! servicePath env with Some _ => true | None => false end).
  set (w3 := emit (Log ("Service Binary: " +:+
                        (if svc then "Installed" else "Not installed")))
               (emit (Log ("Desktop App: " +:+
                           (if app then "Installed" else "Not installed")))
                  (emit (Log "Kaitu Installation Status:") w))).
  assert (Hrun : showStatus env w =
                 (Ret tt,
                  emit (Log "")
                    (if negb app || negb svc
                     then emit (Log "  sudo npm install -g kaitu")
                            (emit (Log "To install missing components:") w3)
                     else w3))).
  { unfold showStatus. rewrite log_run, bind_run.
    rewrite (isAppInstalled_fs env w (emit (Log "Kaitu Installation Status:") w)) by done.
    rewrite Ea. cbn [fst]. rewrite log_run, bind_run.
    unfold isServiceInstalled at 1, existsSync at 1. cbn [fs emit]. fold svc.
    rewrite log_run, bind_run. fold w3.
    rewrite (isAppInstalled_fs env w w3) by done. rewrite Ea. cbn [fst].
    rewrite bind_run. destruct app; cbn [negb orb].
    - unfold isServiceInstalled, existsSync. change (fs w3) with (fs w). fold svc.
      clearbody svc. by destruct svc.
    - done. }
  assert (Hs : (isServiceInstalled env w).1 = Ret svc) by done.
  exists app, svc. rewrite Hrun, Ea, Hs. cbn [fst snd].
  subst w3. clearbody svc. clear Hrun Hs.
  assert (Hin : forall (e : event) l, (exists n, nth_error l n = Some e) -> In e l).
  { intros e l [n Hn]. by apply nth_error_In in Hn. }
  destruct app, svc; cbn [negb orb andb].
  - eexists [_; _; _; _]. split; [done|]. split; [done|]. split; [done|].
    split; [done|]. split; [done|]. split; [repeat constructor|].
    split; [apply Hin; by exists 2%nat|]. split; [apply Hin; by exists 1%nat|].
    split; [|done]. intros H. simpl in H. by repeat destruct H as [H|H].
  - eexists [_; _; _; _; _; _]. split; [done|]. split; [done|]. split; [done|].
    split; [done|]. split; [done|]. split; [repeat constructor|].
    split; [apply Hin; by exists 4%nat|]. split; [apply Hin; by exists 3%nat|].
    split; [done|]. intros _. apply Hin. by exists 1%nat.
  - eexists [_; _; _; _; _; _]. split; [done|]. split; [done|]. split; [done|].
    split; [done|]. split; [done|]. split; [repeat constructor|].
    split; [apply Hin; by exists 4%nat|]. split; [apply Hin; by exists 3%nat|].
    split; [done|]. intros _. apply Hin. by exists 1%nat.
  - eexists [_; _; _; _; _; _]. split; [done|]. split; [done|]. split; [done|].
    split; [done|]. split; [done|]. split; [repeat constructor|].
    split; [apply Hin; by exists 4%nat|]. split; [apply Hin; by exists 3%nat|].
    split; [done|]. intros _. apply Hin. by exists 1%nat.
Qed.

(** What [launchApp] does: on darwin it runs [open -a Kaitu] and returns
    whether or not that fails; elsewhere it only prints. *)
Lemma launchApp_run env w :
  exists tr,
    launchApp env w = (Ret tt, {| fs := fs w; events := tr ++ events w;
                                  registered := registered w |}) /\
    (process_platform env = "darwin" ->
     In (Exec OpenApp (negb (cmd_fails env OpenApp))) tr) /\
    (process_platform env <> "darwin" -> Forall is_log tr).
Proof.
  unfold launchApp. destruct (String.eqb_spec (process_platform env) "darwin") as [E|E].
  - unfold try_catch. rewrite bind_run.
    destruct (cmd_fails env OpenApp) eqn:Hf.
    + rewrite (execSync_fails _ _ _ Hf). eexists [_; _; _]. destruct w.
      split; [done|]. split; [intros _; simpl; auto|done].
    + rewrite (execSync_ok _ _ w w Hf eq_refl). eexists [_; _]. destruct w.
      split; [done|]. split; [intros _; simpl; auto|done].
  - destruct (String.eqb (process_platform env) "win32"); eexists [_]; destruct w.
    all: split; [done|]; split; [done|]; intros _; by repeat constructor.
Qed.

(** With the application installed, [start], [launch] and [open] return
    normally and change no file.  On darwin they run [open -a Kaitu], and
    return normally also when that command fails; on any other platform
    they launch nothing and only print where to find the application. *)
Theorem main_start_installed fuel env postinstallPath command rest w :
  In command ["start"; "launch"; "open"] ->
  (isAppInstalled env w).1 = Ret true ->
  (main fuel env postinstallPath (command :: rest) w).1 = Ret tt /\
  fs (main fuel env postinstallPath (command :: rest) w).2 = fs w /\
  exists tr,
    events (main fuel env postinstallPath (command :: rest) w).2 = tr ++ events w /\
    (process_platform env = "darwin" ->
     In (Exec OpenApp (negb (cmd_fails env OpenApp))) tr) /\
    (process_platform env <> "darwin" -> Forall is_log tr).
Proof.
  intros Hc Hi.
  assert (E : main fuel env postinstallPath (command :: rest) =
              (installed <- isAppInstalled env ;;
               when (negb installed)
                 (logErr "Kaitu app is not installed" ;;
                  log "Please run: sudo npm install -g kaitu" ;;
                  exit 1%Z) ;;
               launchApp env)).
  { simpl in Hc. destruct Hc as [<-|[<-|[<-|[]]]]; reflexivity. }
  rewrite E, bind_run. destruct (isAppInstalled_run env w) as [b Eb].
  rewrite Eb in Hi |- *. injection Hi as ->. cbn [negb when]. rewrite bind_run.
  cbv beta iota delta [ret].
  destruct (launchApp_run env w) as (tr & -> & Hd & Ho).
  split; [done|]. split; [done|]. by exists tr.
Qed.

Lemma main_start_installed_witness :
  (main 3 (Scenario.mac Scenario.volume Scenario.abc_tag true false)
     "/opt/kaitu/postinstall.js" ["start"] Scenario.with_app).1 = Ret tt.
Proof.
  refine (proj1 (main_start_installed 3
                   (Scenario.mac Scenario.volume Scenario.abc_tag true false)
                   "/opt/kaitu/postinstall.js" "start" [] Scenario.with_app _ _)).
  - simpl. auto.
  - vm_compute. reflexivity.
Defined.

(** ** The installer and the command line together *)

Lemma installService_rest_true env platformInfo s w w' :
  isWindows platformInfo = false ->
  installService_rest env platformInfo s w = (Ret true, w') ->
  is_Some (fs w' !! "/usr/local/bin/kaitu-service").
Proof.
  intros Hw H. unfold installService_rest, serviceTargetPath in H. rewrite Hw in H.
  inv_run H.
  destruct (isMac platformInfo || isLinux platformInfo); [|by inv_run H].
  inv_run H.
  repeat match goal with
         | U : unlinkSync _ _ = _ |- _ => apply unlinkSync_ret_inv in U
         | U : execSync _ (ChmodX _) _ = _ |- _ =>
             apply execSync_ret_inv in U as (? & U & ?)
         | T : try_catch _ _ _ = _ |- _ =>
             eapply (keeps_run (changes (fun _ => False) (fun _ => True))) in T;
               [destruct T as [T _]|repeat keeps_step; done]
         end.
  match goal with
  | U : cmd_sem _ (ChmodX _) ?v = Some _ |- _ =>
      simpl in U;
      destruct (fs v !! "/usr/local/bin/kaitu-service") as [n|] eqn:Hn; [|done];
      injection U as <-
  end.
  injection H as <-. unfold log, tell in *. simplify_eq.
  match goal with T : forall q, _ -> fs _ !! q = _ |- _ => rewrite T by tauto end.
  cbn [fs emit set_fs]. rewrite lookup_delete_ne, Hn; [done|].
  apply serviceTempPath_neq. reflexivity.
Qed.

(** The two scripts agree on where the service binary is: once
    [installService] has answered true, [isServiceInstalled] of index.js
    answers true. *)
Theorem installService_true_then_isServiceInstalled fuel env platformInfo packageConfig w :
  getPlatformInfo (process_platform env) (process_arch env) = Ret platformInfo ->
  (installService fuel env platformInfo packageConfig w).1 = Ret true ->
  (isServiceInstalled env (installService fuel env platformInfo packageConfig w).2).1 =
    Ret true.
Proof.
  intros Hpi H.
  destruct (installService fuel env platformInfo packageConfig w) as [o w'] eqn:E.
  simpl in H. subst o. cbn [snd].
  destruct (entry (key platformInfo) (default [] (service packageConfig)))
    as [s|] eqn:Ee.
  2:{ unfold installService in E. rewrite log_run, Ee in E. by inv_run E. }
  rewrite (installService_run _ _ _ _ _ _ Ee) in E.
  apply try_catch_ret_inv in E as [E|(e & w2 & _ & E)]; [|by inv_run E].
  apply bind_ret_inv in E as (_ & w2 & _ & E).
  destruct (String.eqb_spec (process_platform env) "win32") as [Ew|Ew].
  { rewrite Ew in Hpi. destruct (getPlatformInfo_win32 _ _ Hpi) as [Hm Hl].
    destruct (installService_rest_not_unix env platformInfo s Hm Hl) as [_ Hn].
    destruct (Hn w2). by rewrite E. }
  destruct (getPlatformInfo_unix _ _ _ Hpi Ew) as [_ Hw].
  destruct (installService_rest_true env platformInfo s w2 w' Hw E) as [n Hn].
  unfold isServiceInstalled, existsSync, servicePath.
  apply String.eqb_neq in Ew. rewrite Ew. cbn [fst]. by rewrite Hn.
Qed.

Lemma installService_true_then_isServiceInstalled_witness :
  (isServiceInstalled (Scenario.mac Scenario.volume Scenario.abc_tag true false)
     (installService 3 (Scenario.mac Scenario.volume Scenario.abc_tag true false)
        darwin_info
        {| service := Some [("darwin-universal",
                             {| url := Scenario.cdn_url; hash := Scenario.abc_tag |})];
           installer := None |}
        Scenario.fresh).2).1 = Ret true.
Proof.
  refine (installService_true_then_isServiceInstalled 3
            (Scenario.mac Scenario.volume Scenario.abc_tag true false)
            darwin_info _ Scenario.fresh _ _).
  - reflexivity.
  - vm_compute. reflexivity.
Defined.

(** ** A run in which everything works *)

Lemma under_rebase src dst k : under src k = true -> under dst (rebase src dst k) = true.
Proof.
  unfold under, rebase. destruct (strip_prefix src k) as [r|]; [|done].
  by rewrite strip_prefix_app.
Qed.

(** [cp -R] changes nothing outside its destination. *)
Lemma copy_tree_lookup_outside src dst m q :
  under dst q = false -> copy_tree src dst m !! q = m !! q.
Proof.
  intros Hq. unfold copy_tree. rewrite lookup_union.
  assert (H : (kmap (rebase src dst) (filter (fun kv => under src kv.1) m)
                 : gmap string node) !! q = None).
  { unfold kmap. apply not_elem_of_list_to_map_1. intros Hin.
    apply list_elem_of_fmap in Hin as ([k n] & -> & Hin).
    apply list_elem_of_fmap in Hin as ([k0 n0] & [= -> ->] & Hin).
    apply elem_of_map_to_list, map_lookup_filter_Some in Hin as [_ Hu].
    cbn [fst] in Hu, Hq. apply Is_true_eq_true in Hu.
    by rewrite (under_rebase _ dst _ Hu) in Hq. }
  rewrite H. by destruct (m !! q).
Qed.

Lemma cpR_fresh env src dst w n :
  fs w !! src = Some n -> fs w !! dst = None ->
  cmd_sem env (CpR src dst) w = Some (set_fs (copy_tree src dst (fs w)) w).
Proof.
  intros Hs Hd. simpl. rewrite Hs, Hd. unfold cp_target. rewrite Hd. by destruct n.
Qed.

Lemma detach_present env mp w n :
  fs w !! mp = Some n ->
  cmd_sem env (HdiutilDetach mp) w = Some (set_fs (rm_tree mp (fs w)) w).
Proof. intros H. simpl. by rewrite H. Qed.

(** When the mounted bundle is not inside the installed one, neither is the
    mount point. *)
Lemma under_mountedApp env :
  process_platform env = "darwin" ->
  under "/Applications/Kaitu.app" (mountedApp env) = false ->
  under "/Applications/Kaitu.app" (mountPoint env) = false.
Proof.
  intros Hp H. destruct (under _ (mountPoint env)) eqn:E; [|done].
  rewrite (mountedApp_darwin _ Hp) in H. unfold under in E, H.
  destruct (strip_prefix _ (mountPoint env)) as [r|] eqn:Es; [|done].
  apply strip_prefix_Some in Es. rewrite Es, app_assoc_string, strip_prefix_app in H.
  destruct r as [|c r]; [done|].
  change ((String c r) +:+ "/" +:+ "Kaitu.app") with (String c (r +:+ "/" +:+ "Kaitu.app")) in H.
  congruence.
Qed.

Lemma strip_prefix_proper d a rest r :
  strip_prefix d (a +:+ rest) = Some r -> strip_prefix d a = None ->
  exists c s, d = a +:+ String c s /\ strip_prefix (String c s) rest = Some r.
Proof.
  revert a. induction d as [|x d IH]; intros a; [done|].
  destruct a as [|y a].
  - intros H _. by exists x, d.
  - change (String y a +:+ rest) with (String y (a +:+ rest)). simpl.
    destruct (Ascii.eqb x y) eqn:E; [|done]. apply Ascii.eqb_eq in E as ->.
    intros H1 H2. destruct (IH a H1 H2) as (c & s & -> & Hs). by exists c, s.
Qed.

(** When [a/rest] is inside [d], either [a] is inside [d] or [d] is inside
    [a]. *)
Lemma under_app d a rest :
  under a (a +:+ rest) = true -> under d (a +:+ rest) = true ->
  under d a = true \/ under a d = true.
Proof.
  intros Hr H. unfold under in Hr. rewrite strip_prefix_app in Hr.
  unfold under in H |- *.
  destruct (strip_prefix d (a +:+ rest)) as [r|] eqn:E; [|done].
  destruct (strip_prefix d a) as [s|] eqn:Ea.
  - left. apply strip_prefix_Some in Ea. subst a.
    rewrite app_assoc_string, strip_prefix_app in E. injection E as <-.
    destruct s as [|c s]; [done|]. exact H.
  - right. destruct (strip_prefix_proper _ _ _ _ E Ea) as (c & s & -> & Hs).
    rewrite strip_prefix_app. destruct rest as [|c' rest]; [done|].
    simpl in Hs. destruct (Ascii.eqb c c') eqn:Ec; [|done].
    apply Ascii.eqb_eq in Ec as ->. exact Hr.
Qed.

(** What [cp -R] puts at its destination. *)
Lemma copy_tree_lookup_copied src dst m rest y :
  under src (src +:+ rest) = true ->
  m !! (src +:+ rest) = Some y ->
  copy_tree src dst m !! (dst +:+ rest) = Some y.
Proof.
  intros Hu Hm. unfold copy_tree. apply lookup_union_Some_l.
  unfold kmap. apply elem_of_list_to_map_1'.
  - intros y' Hin.
    apply list_elem_of_fmap in Hin as ([k0 n0] & [= Hk ->] & Hin).
    apply elem_of_map_to_list, map_lookup_filter_Some in Hin as [Hm0 Hu0].
    cbn [fst] in Hu0. apply Is_true_eq_true in Hu0. unfold rebase in Hk.
    unfold under in Hu0. destruct (strip_prefix src k0) as [r0|] eqn:Es; [|done].
    apply strip_prefix_Some in Es. apply (inj (String.app dst)) in Hk. subst.
    congruence.
  - apply list_elem_of_fmap. exists (src +:+ rest, y). split.
    + unfold prod_map, rebase. cbn [fst snd]. by rewrite strip_prefix_app.
    + apply elem_of_map_to_list, map_lookup_filter_Some. split; [done|].
      cbn [fst]. by rewrite Hu.
Qed.

Lemma contains_mountPoint env rest :
  contains "kaitu-mount" (mountPoint env +:+ rest) = true.
Proof.
  unfold mountPoint. rewrite path_join_pair.
  destruct (tmpdir env) as [|c t].
  - apply (contains_app "kaitu-mount" "" rest).
  - rewrite !app_assoc_string.
    pose proof (contains_app "kaitu-mount" (String c t +:+ sep env) rest) as H.
    by rewrite !app_assoc_string in H.
Qed.

(** The installed bundle is not inside the mounted one. *)
Lemma bundle_outside_mountedApp env :
  process_platform env = "darwin" ->
  under (mountedApp env) "/Applications/Kaitu.app" = false.
Proof.
  intros Hp. destruct (under (mountedApp env) _) eqn:E; [|done].
  unfold under in E.
  destruct (strip_prefix (mountedApp env) "/Applications/Kaitu.app") as [r|] eqn:Es;
    [|done].
  apply strip_prefix_Some in Es.
  assert (H : contains "kaitu-mount" "/Applications/Kaitu.app" = true).
  { rewrite Es at 1. rewrite (mountedApp_darwin _ Hp), !app_assoc_string.
    apply contains_mountPoint. }
  vm_compute in H. discriminate.
Qed.

(** The [try] block of [installDMG] when nothing fails. *)
Lemma installDMG_try_installs env dmgPath w bytes vol :
  process_platform env = "darwin" ->
  fs w !! dmgPath = Some (File bytes) ->
  dmg_volume env bytes = Some vol ->
  is_Some (vol !! "Kaitu.app") ->
  (forall c, cmd_fails env c = false) ->
  under (mountPoint env) dmgPath = false ->
  under "/Applications/Kaitu.app" dmgPath = false ->
  under "/Applications/Kaitu.app" (mountedApp env) = false ->
  exists w',
    installDMG_try env dmgPath w = (Ret tt, w') /\
    (forall q, under (mountPoint env) q = false ->
               under "/Applications/Kaitu.app" q = false ->
               q <> dmgPath -> fs w' !! q = fs w !! q) /\
    (forall rest y,
        under "Kaitu.app" ("Kaitu.app" +:+ rest) = true ->
        vol !! ("Kaitu.app" +:+ rest) = Some y ->
        fs w' !! ("/Applications/Kaitu.app" +:+ rest) = Some y) /\
    registered w' = registered w.
Proof.
  intros Hp Hb Hv [n Hn] Hf Hmd Hdd Hda.
  pose proof (under_mountedApp env Hp Hda) as Hdm.
  unfold installDMG_try. fold (mountPoint env). fold (mountedApp env).
  rewrite log_run, bind_run. set (w0 := emit _ w).
  destruct (attach_ok env dmgPath (mountPoint env) w0 bytes vol Hb Hv) as [w1 Ha].
  rewrite (execSync_ok _ _ _ _ (Hf _) Ha).
  destruct (attach_lookup _ _ _ _ _ Ha) as (bytes' & vol' & Hb' & Hv' & Hl & Hmp).
  change (fs w0) with (fs w) in Hb'.
  rewrite Hb in Hb'. injection Hb' as <-. rewrite Hv in Hv'. injection Hv' as <-.
  pose proof (fun q => attach_frame _ _ _ _ _ q Ha) as Hfr.
  change (fs w0) with (fs w) in Hfr.
  assert (Happ : fs w1 !! mountedApp env = Some n).
  { by rewrite (mountedApp_darwin _ Hp), Hl. }
  rewrite bind_run. unfold existsSync at 1. cbn [fs emit]. rewrite Happ.
  cbn [negb when]. rewrite bind_run. cbv beta iota delta [ret].
  rewrite log_run, bind_run. unfold existsSync at 1. cbn [fs emit].
  set (v := emit (Log "Copying app to /Applications...") _).
  assert (H2 : exists w2,
             when match fs w1 !! "/Applications/Kaitu.app" with
                  | Some _ => true
                  | None => false
                  end
               (log "Removing existing installation..." ;;
                execSync env (RmRf "/Applications/Kaitu.app")) v = (Ret tt, w2) /\
             fs w2 !! "/Applications/Kaitu.app" = None /\
             registered w2 = registered w1 /\
             forall q, under "/Applications/Kaitu.app" q = false ->
                       fs w2 !! q = fs w1 !! q).
  { destruct (fs w1 !! "/Applications/Kaitu.app") as [x|] eqn:Ed; cbn [when].
    - rewrite log_run,
        (execSync_ok env (RmRf "/Applications/Kaitu.app")
           (emit (Log "Removing existing installation...") v) _ (Hf _) eq_refl).
      eexists.
      split; [done|]. cbn [fs emit set_fs]. split; [|split; [done|]].
      + apply rm_tree_lookup_under, under_refl.
      + intros q Hq. by apply rm_tree_lookup_outside.
    - exists v. done. }
  destruct H2 as (w2 & E2 & Hd2 & Hr2 & Hf2). rewrite bind_run, E2. clear E2.
  assert (Hr1 : registered w1 = registered w).
  { simpl in Ha. rewrite Hb, Hv in Ha. by injection Ha as <-. }
  assert (Happ2 : fs w2 !! mountedApp env = Some n) by (by rewrite Hf2).
  rewrite bind_run, (execSync_ok _ _ _ _ (Hf _) (cpR_fresh env _ _ w2 n Happ2 Hd2)).
  rewrite log_run, bind_run.
  set (w3 := emit _ (emit _ (set_fs _ w2))).
  assert (Hf3 : forall q, under "/Applications/Kaitu.app" q = false ->
                          fs w3 !! q = fs w1 !! q).
  { intros q Hq. subst w3. cbn [fs emit set_fs].
    by rewrite copy_tree_lookup_outside, Hf2. }
  assert (Hmp3 : fs w3 !! mountPoint env = Some Dir) by (by rewrite Hf3).
  rewrite (execSync_ok _ _ _ _ (Hf _) (detach_present env _ w3 _ Hmp3)), bind_run.
  set (w4 := emit _ (set_fs _ w3)).
  assert (Hb4 : fs w4 !! dmgPath = Some (File bytes)).
  { subst w4. cbn [fs emit set_fs].
    by rewrite rm_tree_lookup_outside, Hf3, Hfr. }
  rewrite (unlinkSync_file _ _ _ Hb4), !log_run.
  eexists. split; [reflexivity|]. split; [|split; [|simpl; congruence]].
  { intros q Hm Hd Hq. cbn [fs emit set_fs].
    rewrite lookup_delete_ne by done. subst w4. cbn [fs emit set_fs].
    by rewrite rm_tree_lookup_outside, Hf3, Hfr. }
  intros rest y Hr Hy.
  assert (Hr' : forall a, under a (a +:+ rest) = true).
  { intros a. unfold under in Hr |- *. by rewrite strip_prefix_app in Hr |- *. }
  assert (H1 : fs w1 !! (mountedApp env +:+ rest) = Some y).
  { by rewrite (mountedApp_darwin _ Hp), !app_assoc_string, Hl. }
  assert (H2 : fs w2 !! (mountedApp env +:+ rest) = Some y).
  { rewrite Hf2; [done|].
    destruct (under "/Applications/Kaitu.app" (mountedApp env +:+ rest)) eqn:Eu; [|done].
    destruct (under_app _ _ _ (Hr' _) Eu) as [H|H]; [congruence|].
    by rewrite (bundle_outside_mountedApp _ Hp) in H. }
  assert (H3 : fs w3 !! ("/Applications/Kaitu.app" +:+ rest) = Some y).
  { subst w3. cbn [fs emit set_fs]. by apply copy_tree_lookup_copied. }
  cbn [fs emit set_fs]. rewrite lookup_delete_ne.
  2:{ intros ->. by rewrite Hr' in Hdd. }
  subst w4. cbn [fs emit set_fs]. rewrite rm_tree_lookup_outside; [done|].
  destruct (under (mountPoint env) ("/Applications/Kaitu.app" +:+ rest)) eqn:Eu; [|done].
  destruct (under_app _ _ _ (Hr' _) Eu) as [H|H]; [|congruence].
  by rewrite bundle_outside_mountPoint in H.
Qed.

(** When [/Applications] is there, the image mounts to a volume with
    [Kaitu.app] at its top and no command fails, [installDMG] returns, over an earlier installation as
    well: the image is deleted, nothing outside the bundle and the mount
    point has changed, and every entry of the volume's [Kaitu.app] is at the
    same place under [/Applications/Kaitu.app]. *)
Theorem installDMG_installs env dmgPath w bytes vol :
  process_platform env = "darwin" ->
  fs w !! "/Applications" = Some Dir ->
  fs w !! dmgPath = Some (File bytes) ->
  dmg_volume env bytes = Some vol ->
  is_Some (vol !! "Kaitu.app") ->
  (forall c, cmd_fails env c = false) ->
  under (mountPoint env) dmgPath = false ->
  under "/Applications/Kaitu.app" dmgPath = false ->
  under "/Applications/Kaitu.app" (mountedApp env) = false ->
  (installDMG env dmgPath w).1 = Ret tt /\
  fs (installDMG env dmgPath w).2 !! dmgPath = None /\
  (forall q, under (mountPoint env) q = false ->
             under "/Applications/Kaitu.app" q = false ->
             q <> dmgPath ->
             fs (installDMG env dmgPath w).2 !! q = fs w !! q) /\
  fs (installDMG env dmgPath w).2 !! "/Applications/Kaitu.app" = vol !! "Kaitu.app" /\
  (forall r y,
      vol !! ("Kaitu.app/" +:+ r) = Some y ->
      fs (installDMG env dmgPath w).2 !! ("/Applications/Kaitu.app/" +:+ r) = Some y).
Proof.
  intros Hp _ Hb Hv Hn Hf Hmd Hdd Hda.
  unfold installDMG. rewrite log_run. unfold try_catch.
  destruct (installDMG_try_installs env dmgPath
              (emit (Log "Installing Kaitu app from DMG...") w) bytes vol
              Hp Hb Hv Hn Hf Hmd Hdd Hda) as (w' & E & Hfr & Hcp & _).
  assert (Hne : dmgPath <> "/Applications/Kaitu.app").
  { intros ->. by rewrite under_refl in Hdd. }
  destruct (installDMG_try_ret_installed env dmgPath _ w' Hne E) as (H1 & H2 & H3).
  rewrite E. cbn [fst snd]. split; [done|]. split; [done|]. split; [done|]. split.
  - destruct Hn as [n Hn]. rewrite Hn. apply (Hcp "" n); [done|].
    by rewrite app_empty_r.
  - intros r y Hy. apply (Hcp ("/" +:+ r) y); [done|]. exact Hy.
Qed.

Lemma installDMG_installs_witness :
  (installDMG (Scenario.mac Scenario.volume Scenario.abc_tag true false)
     "/tmp/kaitu-installer.dmg"
     (Scenario.world
        {[ "/Applications" := Dir; "/tmp" := Dir;
           "/Applications/Kaitu.app" := Dir;
           "/Applications/Kaitu.app/old" := File [];
           "/tmp/kaitu-installer.dmg" := File Scenario.abc ]})).1 = Ret tt.
Proof.
  refine (proj1 (installDMG_installs
                   (Scenario.mac Scenario.volume Scenario.abc_tag true false)
                   "/tmp/kaitu-installer.dmg" _ Scenario.abc Scenario.volume
                   _ _ _ _ _ _ _ _ _)).
  - reflexivity.
  - vm_compute. reflexivity.
  - vm_compute. reflexivity.
  - reflexivity.
  - vm_compute. by eexists.
  - intros c. by destruct c.
  - reflexivity.
  - reflexivity.
  - reflexivity.
Defined.

(** ** A whole run on macOS *)








(** ** Integrity *)






(** ** The unmount after the copy *)

(** The [try] block of [installDMG] up to and including the copy, when the
    volume has [Kaitu.app] and nothing fails until then: what remains to
    run is the unmount and the deletion of the image. *)
Lemma installDMG_try_copies env dmgPath w bytes vol :
  process_platform env = "darwin" ->
  fs w !! dmgPath = Some (File bytes) ->
  dmg_volume env bytes = Some vol ->
  is_Some (vol !! "Kaitu.app") ->
  cmd_fails env (HdiutilAttach dmgPath (mountPoint env)) = false ->
  cmd_fails env (RmRf "/Applications/Kaitu.app") = false ->
  cmd_fails env (CpR (mountedApp env) "/Applications/Kaitu.app") = false ->
  under "/Applications/Kaitu.app" (mountedApp env) = false ->
  exists w3 tr,
    installDMG_try env dmgPath w =
      (execSync env (HdiutilDetach (mountPoint env)) ;;
       unlinkSync dmgPath ;;
       log "Kaitu app installed successfully to /Applications" ;;
       log "You can now launch Kaitu from your Applications folder or Launchpad")%M w3 /\
    events w3 = Log "Unmounting DMG..." :: copy_done env :: tr ++ events w /\
    (forall q, under "/Applications/Kaitu.app" q = false ->
               under (mountPoint env) q = false -> fs w3 !! q = fs w !! q) /\
    fs w3 !! mountPoint env = Some Dir /\
    (forall rest y,
        under "Kaitu.app" ("Kaitu.app" +:+ rest) = true ->
        vol !! ("Kaitu.app" +:+ rest) = Some y ->
        fs w3 !! ("/Applications/Kaitu.app" +:+ rest) = Some y).
Proof.
  intros Hp Hb Hv [n Hn] Hfa Hfr Hfc Hda.
  pose proof (under_mountedApp env Hp Hda) as Hdm.
  unfold installDMG_try. fold (mountPoint env). fold (mountedApp env).
  rewrite log_run, bind_run. set (w0 := emit _ w).
  destruct (attach_ok env dmgPath (mountPoint env) w0 bytes vol Hb Hv) as [w1 Ha].
  rewrite (execSync_ok _ _ _ _ Hfa Ha).
  destruct (attach_lookup _ _ _ _ _ Ha) as (bytes' & vol' & Hb' & Hv' & Hl & Hmp).
  change (fs w0) with (fs w) in Hb'.
  rewrite Hb in Hb'. injection Hb' as <-. rewrite Hv in Hv'. injection Hv' as <-.
  pose proof (fun q => attach_frame _ _ _ _ _ q Ha) as Hfr1.
  change (fs w0) with (fs w) in Hfr1.
  assert (He1 : events w1 = events w0) by apply (cmd_sem_events _ _ _ _ Ha).
  assert (Happ : fs w1 !! mountedApp env = Some n).
  { by rewrite (mountedApp_darwin _ Hp), Hl. }
  rewrite bind_run. unfold existsSync at 1. cbn [fs emit]. rewrite Happ.
  cbn [negb when]. rewrite bind_run. cbv beta iota delta [ret].
  rewrite log_run, bind_run. unfold existsSync at 1. cbn [fs emit].
  set (v := emit (Log "Copying app to /Applications...") _).
  assert (H2 : exists w2 tr2,
             when match fs w1 !! "/Applications/Kaitu.app" with
                  | Some _ => true
                  | None => false
                  end
               (log "Removing existing installation..." ;;
                execSync env (RmRf "/Applications/Kaitu.app")) v = (Ret tt, w2) /\
             fs w2 !! "/Applications/Kaitu.app" = None /\
             events w2 = tr2 ++ events v /\
             forall q, under "/Applications/Kaitu.app" q = false ->
                       fs w2 !! q = fs w1 !! q).
  { destruct (fs w1 !! "/Applications/Kaitu.app") as [x|] eqn:Ed; cbn [when].
    - rewrite log_run,
        (execSync_ok env (RmRf "/Applications/Kaitu.app")
           (emit (Log "Removing existing installation...") v) _ Hfr eq_refl).
      eexists. eexists [_; _].
      split; [done|]. cbn [fs emit set_fs events]. split; [|split; [done|]].
      + apply rm_tree_lookup_under, under_refl.
      + intros q Hq. by apply rm_tree_lookup_outside.
    - exists v, []. done. }
  destruct H2 as (w2 & tr2 & E2 & Hd2 & He2 & Hf2). rewrite bind_run, E2. clear E2.
  assert (Happ2 : fs w2 !! mountedApp env = Some n) by (by rewrite Hf2).
  rewrite bind_run, (execSync_ok _ _ _ _ Hfc (cpR_fresh env _ _ w2 n Happ2 Hd2)).
  rewrite log_run.
  set (w3 := emit _ (emit _ (set_fs _ w2))).
  assert (Hf3 : forall q, under "/Applications/Kaitu.app" q = false ->
                          fs w3 !! q = fs w1 !! q).
  { intros q Hq. subst w3. cbn [fs emit set_fs].
    by rewrite copy_tree_lookup_outside, Hf2. }
  exists w3, (tr2 ++ [Log "Copying app to /Applications...";
                      Exec (HdiutilAttach dmgPath (mountPoint env)) true;
                      Log "Mounting DMG..."]).
  split; [reflexivity|]. split; [|split; [|split]].
  - subst w3. cbn [events emit set_fs]. rewrite He2. subst v. cbn [events emit].
    rewrite He1. subst w0. cbn [events emit]. unfold copy_done.
    by rewrite <- app_assoc.
  - intros q Hd Hm. by rewrite Hf3, Hfr1.
  - by rewrite Hf3.
  - intros rest y Hr Hy.
    assert (Hr' : forall a, under a (a +:+ rest) = true).
    { intros a. unfold under in Hr |- *. by rewrite strip_prefix_app in Hr |- *. }
    assert (H1 : fs w1 !! (mountedApp env +:+ rest) = Some y).
    { by rewrite (mountedApp_darwin _ Hp), !app_assoc_string, Hl. }
    assert (H2 : fs w2 !! (mountedApp env +:+ rest) = Some y).
    { rewrite Hf2; [done|].
      destruct (under "/Applications/Kaitu.app" (mountedApp env +:+ rest)) eqn:Eu; [|done].
      destruct (under_app _ _ _ (Hr' _) Eu) as [H|H]; [congruence|].
      by rewrite (bundle_outside_mountedApp _ Hp) in H. }
    subst w3. cbn [fs emit set_fs]. by apply copy_tree_lookup_copied.
Qed.

(** A run in which only the unmount fails.  When the image mounts to a
    volume with [Kaitu.app] and the mount, the removal of an earlier
    installation and the copy succeed, but the unmount fails, [installDMG]
    reports [Installation failed], tries the unmount once more and throws
    the failure of the unmount.  The bundle of the volume is in place at
    [/Applications/Kaitu.app] with all its entries; the image is not
    deleted and the volume stays mounted. *)
Theorem installDMG_copied_then_unmount_fails env dmgPath w bytes vol :
  process_platform env = "darwin" ->
  fs w !! dmgPath = Some (File bytes) ->
  dmg_volume env bytes = Some vol ->
  is_Some (vol !! "Kaitu.app") ->
  cmd_fails env (HdiutilAttach dmgPath (mountPoint env)) = false ->
  cmd_fails env (RmRf "/Applications/Kaitu.app") = false ->
  cmd_fails env (CpR (mountedApp env) "/Applications/Kaitu.app") = false ->
  cmd_fails env (HdiutilDetach (mountPoint env)) = true ->
  under (mountPoint env) dmgPath = false ->
  under "/Applications/Kaitu.app" dmgPath = false ->
  under "/Applications/Kaitu.app" (mountedApp env) = false ->
  (installDMG env dmgPath w).1 =
    Abort (Thrown (ExecError (HdiutilDetach (mountPoint env)))) /\
  (exists tr,
      events (installDMG env dmgPath w).2 =
        Exec (HdiutilDetach (mountPoint env)) false
          :: LogErr ("Installation failed: "
                       +:+ message (ExecError (HdiutilDetach (mountPoint env))))
          :: Exec (HdiutilDetach (mountPoint env)) false
          :: Log "Unmounting DMG..."
          :: copy_done env :: tr ++ events w) /\
  fs (installDMG env dmgPath w).2 !! "/Applications/Kaitu.app" = vol !! "Kaitu.app" /\
  (forall r y,
      vol !! ("Kaitu.app/" +:+ r) = Some y ->
      fs (installDMG env dmgPath w).2 !! ("/Applications/Kaitu.app/" +:+ r) = Some y) /\
  fs (installDMG env dmgPath w).2 !! dmgPath = Some (File bytes) /\
  fs (installDMG env dmgPath w).2 !! mountPoint env = Some Dir.
Proof.
  intros Hp Hb Hv Hn Hfa Hfr Hfc Hfd Hmd Hdd Hda.
  unfold installDMG. rewrite log_run. unfold try_catch.
  destruct (installDMG_try_copies env dmgPath
              (emit (Log "Installing Kaitu app from DMG...") w) bytes vol
              Hp Hb Hv Hn Hfa Hfr Hfc Hda) as (w3 & tr & -> & Hev & Hfr3 & Hmp & Hcp).
  rewrite bind_run, (execSync_fails _ _ _ Hfd).
  rewrite (installDMG_catch_failed_unmount env _ _ Hfd).
  cbn [fst snd fs events emit].
  split; [done|]. split; [|split; [|split; [|split; [|done]]]].
  - exists (tr ++ [Log "Installing Kaitu app from DMG..."]).
    rewrite Hev. cbn [events emit]. by rewrite <- app_assoc.
  - destruct Hn as [n Hn]. rewrite Hn. apply (Hcp "" n); [done|].
    by rewrite app_empty_r.
  - intros r y Hy. apply (Hcp ("/" +:+ r) y); [done|]. exact Hy.
  - by rewrite Hfr3.
Qed.

Lemma installDMG_copied_then_unmount_fails_witness :
  (installDMG (Scenario.mac Scenario.volume Scenario.abc_tag true true)
     "/tmp/kaitu-installer.dmg" (Scenario.with_cached Scenario.abc)).1 =
    Abort (Thrown (ExecError (HdiutilDetach "/tmp/kaitu-mount"))) /\
  fs (installDMG (Scenario.mac Scenario.volume Scenario.abc_tag true true)
        "/tmp/kaitu-installer.dmg" (Scenario.with_cached Scenario.abc)).2
    !! "/Applications/Kaitu.app/Info.plist" = Some (File []).
Proof.
  destruct (installDMG_copied_then_unmount_fails
              (Scenario.mac Scenario.volume Scenario.abc_tag true true)
              "/tmp/kaitu-installer.dmg" (Scenario.with_cached Scenario.abc)
              Scenario.abc Scenario.volume) as (Ho & _ & _ & Hcp & _).
  - reflexivity.
  - vm_compute. reflexivity.
  - reflexivity.
  - vm_compute. by eexists.
  - reflexivity.
  - reflexivity.
  - reflexivity.
  - reflexivity.
  - reflexivity.
  - reflexivity.
  - reflexivity.
  - split; [exact Ho|]. apply Hcp. vm_compute. reflexivity.
Defined.

(** C4 as stated fails: in this run the image is verified, mounted and
    copied, no command fails but the unmount, and the run ends with the
    failure report and exit code 1, the bundle being in place. *)
Lemma C4_unmount_failure_ends_the_run :
  (postInstall 3 (Scenario.mac_app_only Scenario.volume true)
     (Scenario.with_cached Scenario.abc)).1 = Abort (Exited 1) /\
  fs (postInstall 3 (Scenario.mac_app_only Scenario.volume true)
        (Scenario.with_cached Scenario.abc)).2 !! "/Applications/Kaitu.app" = Some Dir /\
  Forall (fun e => match e with
                   | Exec c false => c = HdiutilDetach "/tmp/kaitu-mount"
                   | LogErr msg =>
                       msg = "Installation failed: "
                               +:+ message (ExecError (HdiutilDetach "/tmp/kaitu-mount"))
                       \/ msg = "You can download the installer manually from:"
                       \/ msg = releases_url
                   | _ => True
                   end)
    (events (postInstall 3 (Scenario.mac_app_only Scenario.volume true)
               (Scenario.with_cached Scenario.abc)).2).
Proof.
  vm_compute. split; [reflexivity|]. split; [reflexivity|].
  repeat (constructor;
          [first [exact I|reflexivity|by left|by right; left|by right; right]|]).
  constructor.
Qed.

(** ** The bundle under another name *)

(** C5. The code does not install the bundle it finds under another
    name.  On a volume without [Kaitu.app] the search for an entry named
    [*.app] decides only which error is thrown; the entry it finds is not
    used.  [No .app file found in DMG] is thrown exactly when the volume has
    no such entry at its top, as the claim says.  When it has one, the
    earlier installation is removed, the copy of [Kaitu.app] from the volume
    fails and that failure is thrown: nothing is installed, and nothing is
    left at [/Applications/Kaitu.app]. *)
Theorem C5_fallback_bundle_not_installed env dmgPath w bytes vol :
  process_platform env = "darwin" ->
  fs w !! dmgPath = Some (File bytes) ->
  dmg_volume env bytes = Some vol ->
  vol !! "Kaitu.app" = None ->
  cmd_fails env (HdiutilAttach dmgPath (mountPoint env)) = false ->
  cmd_fails env (RmRf "/Applications/Kaitu.app") = false ->
  exists err,
    (installDMG env dmgPath w).1 = Abort (Thrown err) /\
    (err = NoAppInDMG <->
     forall r, is_Some (vol !! r) -> has_slash r = false -> endsWith r ".app" = false) /\
    (forall name,
        is_Some (vol !! name) -> has_slash name = false -> endsWith name ".app" = true ->
        err = ExecError (CpR (mountedApp env) "/Applications/Kaitu.app") /\
        fs (installDMG env dmgPath w).2 !! "/Applications/Kaitu.app" = None /\
        forall q, under "/Applications/Kaitu.app" q = true ->
                  under (mountPoint env) q = false ->
                  fs (installDMG env dmgPath w).2 !! q = None \/
                  fs (installDMG env dmgPath w).2 !! q = fs w !! q).
Proof.
  intros Hp Hb Hv Hnc Hfa Hfr.
  destruct (installDMG_no_canonical env dmgPath w bytes vol Hp Hb Hv Hnc)
    as (err & w' & -> & H1 & H2 & H3).
  exists err. cbn [fst snd]. split; [done|]. split; [split|].
  - intros -> r Hr Hs. destruct (endsWith r ".app") eqn:Ee; [|done].
    by destruct (H3 Hfa Hfr r Hr Hs Ee) as [? _].
  - intros Hno. by destruct (H2 Hfa Hno) as [-> _].
  - intros name Hn Hs He. destruct (H3 Hfa Hfr name Hn Hs He) as [-> Hd].
    split; [done|]. split; [done|]. exact H1.
Qed.

Lemma C5_witness :
  (installDMG (Scenario.mac Scenario.volume_renamed Scenario.abc_tag true false)
     "/tmp/kaitu-installer.dmg" (Scenario.with_cached Scenario.abc)).1 =
  Abort (Thrown (ExecError (CpR "/tmp/kaitu-mount/Kaitu.app" "/Applications/Kaitu.app"))).
Proof.
  destruct (C5_fallback_bundle_not_installed
              (Scenario.mac Scenario.volume_renamed Scenario.abc_tag true false)
              "/tmp/kaitu-installer.dmg" (Scenario.with_cached Scenario.abc)
              Scenario.abc Scenario.volume_renamed) as (err & Ho & _ & Hcp).
  - reflexivity.
  - vm_compute. reflexivity.
  - reflexivity.
  - vm_compute. reflexivity.
  - reflexivity.
  - reflexivity.
  - destruct (Hcp "Kaitu Beta.app") as [-> _].
    + vm_compute. by eexists.
    + reflexivity.
    + vm_compute. reflexivity.
    + exact Ho.
Defined.

(** The run on an image whose volume holds its bundle as
    [Kaitu Beta.app], on a machine with an earlier installation: the
    installation that was there is removed, nothing is installed and the
    failure of the copy is thrown. *)
Lemma C5_renamed_bundle_is_not_installed :
  (installDMG (Scenario.mac Scenario.volume_renamed Scenario.abc_tag true false)
     "/tmp/kaitu-installer.dmg"
     (Scenario.world
        {[ "/Applications" := Dir; "/tmp" := Dir;
           "/Applications/Kaitu.app" := Dir;
           "/tmp/kaitu-installer.dmg" := File Scenario.abc ]})).1 =
    Abort (Thrown (ExecError (CpR "/tmp/kaitu-mount/Kaitu.app" "/Applications/Kaitu.app"))) /\
  fs (installDMG (Scenario.mac Scenario.volume_renamed Scenario.abc_tag true false)
        "/tmp/kaitu-installer.dmg"
        (Scenario.world
           {[ "/Applications" := Dir; "/tmp" := Dir;
              "/Applications/Kaitu.app" := Dir;
              "/tmp/kaitu-installer.dmg" := File Scenario.abc ]})).2
    !! "/Applications/Kaitu.app" = None /\
  fs (installDMG (Scenario.mac Scenario.volume_renamed Scenario.abc_tag true false)
        "/tmp/kaitu-installer.dmg"
        (Scenario.world
           {[ "/Applications" := Dir; "/tmp" := Dir;
              "/Applications/Kaitu.app" := Dir;
              "/tmp/kaitu-installer.dmg" := File Scenario.abc ]})).2
    !! "/Applications/Kaitu Beta.app" = None.
Proof. vm_compute. done. Qed.

(** ** Staged files after an attempt *)

(** The service binary when the network serves a body that does not have
    the expected digest: the mismatch is caught, the answer is false, and
    the body is still at the temp path. *)
Lemma installService_mismatch_keeps_temp fuel env platformInfo packageConfig s w location body :
  entry (key platformInfo) (default [] (service packageConfig)) = Some s ->
  fs w !! serviceTempPath env platformInfo <> Some Dir ->
  final_reply fuel env (Some (url s)) = Some (Response 200 location body) ->
  sha256_tag body <> hash s ->
  (installService fuel env platformInfo packageConfig w).1 = Ret false /\
  fs (installService fuel env platformInfo packageConfig w).2
    !! serviceTempPath env platformInfo = Some (File body).
Proof.
  intros He Hd Hr Hne. rewrite (installService_run _ _ _ _ _ _ He).
  unfold try_catch. rewrite bind_run.
  set (w1 := emit _ (emit _ w)).
  assert (Hd1 : fs w1 !! serviceTempPath env platformInfo <> Some Dir) by done.
  destruct (downloadFile_ok fuel env (Some (url s)) _ w1 location body Hd1 Hr)
    as [Ho Hb].
  destruct (downloadFile fuel env (Some (url s)) _ w1) as [o w2].
  cbn [fst snd] in Ho, Hb. subst o.
  unfold installService_rest. rewrite log_run, bind_run.
  rewrite (verifyHash_mismatch _ _ (emit (Log "Verifying service binary...") w2) body Hb Hne).
  done.
Qed.

(** C7, as amended. A staged download is deleted when its install step
    succeeds: [installDMG] that returns has unlinked the disk image, and
    [installService] that returns true has unlinked the temp file of the
    service binary.  A failed attempt does not delete it: after a digest
    mismatch the fetched disk image is still at its temp path when the run
    has exited with code 1, and the fetched service binary is still at its
    temp path when [installService] has answered false. *)
Theorem C7_staged_files_after_attempt fuel env :
  (forall dmgPath w,
      (installDMG env dmgPath w).1 = Ret tt ->
      fs (installDMG env dmgPath w).2 !! dmgPath = None) /\
  (forall platformInfo packageConfig w,
      (installService fuel env platformInfo packageConfig w).1 = Ret true ->
      fs (installService fuel env platformInfo packageConfig w).2
        !! serviceTempPath env platformInfo = None) /\
  (forall packageConfig d w found w1 location body,
      process_platform env = "darwin" ->
      package_json env = Some packageConfig ->
      entry "darwin-universal" (default [] (installer packageConfig)) = Some d ->
      fs w !! tmpdir env = Some Dir ->
      access_W_OK env (tmpdir env) = true ->
      fs w !! dmgTempPath env = None ->
      postInstall_prelude fuel env w = (Ret found, w1) ->
      final_reply fuel env (Some (url d)) = Some (Response 200 location body) ->
      sha256_tag body <> hash d ->
      (postInstall fuel env w).1 = Abort (Exited 1) /\
      fs (postInstall fuel env w).2 !! dmgTempPath env = Some (File body)) /\
  (forall platformInfo packageConfig s w location body,
      entry (key platformInfo) (default [] (service packageConfig)) = Some s ->
      fs w !! tmpdir env = Some Dir ->
      access_W_OK env (tmpdir env) = true ->
      fs w !! serviceTempPath env platformInfo <> Some Dir ->
      final_reply fuel env (Some (url s)) = Some (Response 200 location body) ->
      sha256_tag body <> hash s ->
      (installService fuel env platformInfo packageConfig w).1 = Ret false /\
      fs (installService fuel env platformInfo packageConfig w).2
        !! serviceTempPath env platformInfo = Some (File body)).
Proof.
  split; [|split; [|split]].
  - intros dmgPath w H.
    destruct (installDMG env dmgPath w) as [o w'] eqn:E. simpl in *. subst o.
    by eapply installDMG_ret_unlinks.
  - intros platformInfo packageConfig w H.
    destruct (installService fuel env platformInfo packageConfig w) as [o w'] eqn:E.
    simpl in *. subst o. by eapply installService_ret_unlinks.
  - intros packageConfig d w found w1 location body Hp Hcfg He _ _ Hnone Hpre Hr Hne.
    eapply postInstall_mismatch_keeps_image; try done.
    + intros bytes Hb. by rewrite Hnone in Hb.
    + by rewrite Hnone.
  - intros platformInfo packageConfig s w location body He _ _ Hd Hr Hne.
    by apply (installService_mismatch_keeps_temp _ _ _ _ s _ location).
Qed.

Lemma C7_witness :
  (installService 3 (Scenario.mac Scenario.volume Scenario.abc_tag true false)
     darwin_info (Scenario.manifest Scenario.abc_tag) Scenario.fresh).1 = Ret false /\
  fs (installService 3 (Scenario.mac Scenario.volume Scenario.abc_tag true false)
        darwin_info (Scenario.manifest Scenario.abc_tag) Scenario.fresh).2
    !! "/tmp/kaitu-service-darwin-universal" = Some (File []).
Proof.
  refine (proj2 (proj2 (proj2 (C7_staged_files_after_attempt 3
                   (Scenario.mac Scenario.volume Scenario.abc_tag true false))))
            darwin_info (Scenario.manifest Scenario.abc_tag)
            {| url := Scenario.svc_url; hash := Scenario.abc_tag |}
            Scenario.fresh None [] _ _ _ _ _ _).
  - reflexivity.
  - reflexivity.
  - reflexivity.
  - vm_compute. discriminate.
  - reflexivity.
  - vm_compute. discriminate.
Defined.

(** ** An earlier installation and a mismatch *)

